(** * Landsat-downloader: tile selection and download orchestration

    A shallow embedding of [api/landsat_api.py] and the properties of its
    grid intersector, catalog client, work-list builder and download loop,
    and of the parts of [gui/gui.py] that call it.

    Python values are modelled as follows.
    - [str] is [string]; the identifiers handled here are ASCII.
    - A [list] is a [list]; [set(verified_tiles)] is a [gset string].
    - A scene record (a dict with keys [display_id] and [entity_id]) is a
      record, as is the [qp] dictionary of query parameters.
    - [None] versus a value is [option].
    - An exception is a value of [exn]; the handler [except Exception] and
      the bare [except:] differ on the exceptions outside [Exception].
    - The remote services, the file system and the widgets are external
      collaborators: the code is embedded over an arbitrary implementation
      of them, and every call it makes to them is recorded in a trace. *)

From Stdlib Require Import Ascii String ZArith Lia.
From stdpp Require Import base decidable list strings gmap.

Local Open Scope Z_scope.
Local Open Scope nat_scope.

(** ** Python string primitives *)

Module PyStr.

(** [s[start:]] for [0 <= start]: indices past the end are clamped. *)
Fixpoint drop (n : nat) (s : string) : string :=
  match n, s with
  | 0, _ => s
  | S _, EmptyString => EmptyString
  | S n', String _ s' => drop n' s'
  end.

(** [s[:stop]] for [0 <= stop]. *)
Fixpoint take (n : nat) (s : string) : string :=
  match n, s with
  | 0, _ => EmptyString
  | S _, EmptyString => EmptyString
  | S n', String c s' => String c (take n' s')
  end.

(** [s[start:stop]] for non-negative bounds. *)
Definition slice (start stop : nat) (s : string) : string :=
  take (stop - start) (drop start s).

(** [s.replace(old, new)] where [old] is one character: every occurrence
    of [old], scanning left to right, is replaced by the string [new]. *)
Fixpoint replace (old : ascii) (new : string) (s : string) : string :=
  match s with
  | EmptyString => EmptyString
  | String c s' =>
      if Ascii.eqb c old then new +:+ replace old new s'
      else String c (replace old new s')
  end.

(** What [replace("_", "0")] does to one character. *)
Definition zero_for_underscore (c : ascii) : ascii :=
  if Ascii.eqb c "_" then "0"%char else c.

(** [b.startswith("/")] *)
Definition startswith_sep (b : string) : bool :=
  match b with
  | String c _ => Ascii.eqb c "/"
  | EmptyString => false
  end.

(** [a.endswith("/")] *)
Fixpoint endswith_sep (a : string) : bool :=
  match a with
  | EmptyString => false
  | String c EmptyString => Ascii.eqb c "/"
  | String _ a' => endswith_sep a'
  end.

(** [os.path.join(a, b)] of [posixpath]: an absolute [b] replaces [a];
    otherwise [b] is appended, after a separator unless [a] is empty or
    ends in one. *)
Definition path_join (a b : string) : string :=
  if startswith_sep b then b
  else if Nat.eqb (String.length a) 0 || endswith_sep a then a +:+ b
  else a +:+ "/" +:+ b.

End PyStr.

(** ** Exceptions and outcomes *)

(** The exceptions that occur in the modelled code.  [TypeError],
    [AttributeError], [StopIteration] and [ValueError] are raised by the
    interpreter or by the geometry library; [LandsatxploreError], [OSError]
    and [TarError] stand for what a collaborator raises.  These derive from
    Python's [Exception].  [KeyboardInterrupt] and [SystemExit] derive from
    [BaseException] only: a bare [except:] catches them, [except Exception]
    does not. *)
Inductive exn :=
| TypeError
| AttributeError
| StopIteration
| ValueError
| LandsatxploreError
| OSError
| TarError
| KeyboardInterrupt
| SystemExit.

(** [isinstance(e, Exception)] *)
Definition is_Exception (e : exn) : bool :=
  match e with
  | KeyboardInterrupt | SystemExit => false
  | _ => true
  end.

(** What a call to a collaborator does: it returns or it raises. *)
Inductive outcome (A : Type) :=
| Ok (a : A)
| Err (e : exn).
Arguments Ok {A} _.
Arguments Err {A} _.

(** ** GridIntersector: [get_tile_list] *)

(** The geometry library (geopandas, shapely) is an external collaborator.
    [to_crs src dst g] reprojects the geometry [g] from the coordinate
    system [src] to [dst]. *)
Class GeometryLib (Geometry : Type) := {
  intersects : Geometry → Geometry → bool;
  unary_union : list Geometry → Geometry;
  to_crs : string → string → Geometry → Geometry
}.

(** One row of a [GeoDataFrame]: the [Name] attribute and the geometry
    column (other attribute columns are not read by the code). *)
Record Feature (Geometry : Type) := mkFeature {
  Name : string;
  geometry : Geometry
}.
Arguments mkFeature {Geometry} _ _.
Arguments Name {Geometry} _.
Arguments geometry {Geometry} _.

(** A [GeoDataFrame]: its rows and its coordinate system, which is [None]
    for a frame read from a file that declares none.  Coordinate systems
    are compared by their identifier. *)
Record GeoDataFrame (Geometry : Type) := mkFrame {
  crs : option string;
  features : list (Feature Geometry)
}.
Arguments mkFrame {Geometry} _ _.
Arguments crs {Geometry} _.
Arguments features {Geometry} _.

Section GridIntersector.
Context {Geometry : Type} `{GeometryLib Geometry}.

(** [f.to_crs(dst)]: geopandas raises [ValueError] for a frame without a
    coordinate system ("Cannot transform naive geometries") and for a
    target that is [None] ("Must pass either crs or epsg"). *)
Definition frame_to_crs (dst : option string) (f : GeoDataFrame Geometry)
  : outcome (GeoDataFrame Geometry) :=
  match crs f, dst with
  | Some src, Some dst =>
      Ok (mkFrame (Some dst)
            (map (λ r, mkFeature (Name r) (to_crs src dst (geometry r)))
                 (features f)))
  | _, _ => Err ValueError
  end.

(** The transformed identifier appended for a selected row:
    [row["Name"].replace("_", "0")]. *)
Definition tile_id (row : Feature Geometry) : string :=
  PyStr.replace "_"%char "0" (Name row).

(** The loop [for index, row in satellite_grid.iterrows()], with the list
    [selected_polygons] it appends to. *)
Fixpoint iterrows_loop (rows : list (Feature Geometry))
    (single_polygon : Geometry) (selected_polygons : list string)
  : list string :=
  match rows with
  | [] => selected_polygons
  | row :: rest =>
      if intersects (geometry row) single_polygon
      then iterrows_loop rest single_polygon
             (selected_polygons ++ [tile_id row])
      else iterrows_loop rest single_polygon selected_polygons
  end.

(** The first statement of [get_tile_list]: the area in the coordinate
    system of the grid. *)
Definition aligned (satellite_grid input_shapefile : GeoDataFrame Geometry)
  : outcome (GeoDataFrame Geometry) :=
  if bool_decide (crs input_shapefile ≠ crs satellite_grid)
  then frame_to_crs (crs satellite_grid) input_shapefile
  else Ok input_shapefile.

(** [get_tile_list(satellite_grid, input_shapefile)].  The source has no
    validity check and no [raise] of its own; what it raises is what
    [to_crs] raises. *)
Definition get_tile_list (satellite_grid input_shapefile : GeoDataFrame Geometry)
  : outcome (list string) :=
  match aligned satellite_grid input_shapefile with
  | Err e => Err e
  | Ok input_shapefile =>
      let single_polygon :=
        unary_union (map geometry (features input_shapefile)) in
      Ok (iterrows_loop (features satellite_grid) single_polygon [])
  end.

(** The unioned area the grid cells are tested against. *)
Definition unioned_area (satellite_grid input_shapefile : GeoDataFrame Geometry)
  : outcome Geometry :=
  match aligned satellite_grid input_shapefile with
  | Err e => Err e
  | Ok input_shapefile =>
      Ok (unary_union (map geometry (features input_shapefile)))
  end.

End GridIntersector.

(** ** DownloadReconciler: the work list *)

(** A scene record returned by the catalog search. *)
Record Scene := mkScene {
  display_id : string;
  entity_id : string
}.

(** The status column of the information table; the source writes the labels
    "необходимо загрузить", "в папке", "загрузка...", "загружено!",
    "загружено и разархивировано!" and "ошибка". *)
Inductive status :=
| needs_download
| in_storage
| downloading
| downloaded
| extracted
| error.

Global Instance status_eq_dec : EqDecision status.
Proof. solve_decision. Defined.

(** The tile code of a scene: [t["display_id"][10:16]]. *)
Definition tile_code (id : string) : string := PyStr.slice 10 16 id.

(** The list comprehension that builds [data_for_table]:
    [[t["display_id"], "необходимо загрузить"] for t in query
       if any(zone == t["display_id"][10:16] for zone in zones)
       if t["display_id"] not in image_tiles_set]. *)
Fixpoint data_for_table (query : list Scene) (zones : list string)
    (image_tiles_set : gset string) : list (string * status) :=
  match query with
  | [] => []
  | t :: rest =>
      if existsb (λ zone, String.eqb zone (tile_code (display_id t))) zones
      then
        if bool_decide (display_id t ∉ image_tiles_set)
        then (display_id t, needs_download)
               :: data_for_table rest zones image_tiles_set
        else data_for_table rest zones image_tiles_set
      else data_for_table rest zones image_tiles_set
  end.

(** [titles = [title for title, _ in data_for_table]] *)
Definition titles_of (data : list (string * status)) : list string :=
  map fst data.


(** ** Results, events and the collaborators *)

(** The outcome of running a piece of Python code.  [OutOfFuel] is not a
    Python outcome: it is what the model of a loop answers when its
    iteration bound is used up ([titles_loop_fuel] shows that the bound the
    model uses is never used up). *)
Inductive result (A : Type) :=
| Returned (a : A)
| Raised (e : exn)
| OutOfFuel.
Arguments Returned {A} _.
Arguments Raised {A} _.
Arguments OutOfFuel {A}.

(** The [qp] dictionary. *)
Record QueryParameters := mkQuery {
  qp_dataset : string;
  qp_bbox : Z * Z * Z * Z;
  qp_start_date : string;
  qp_end_date : string;
  qp_max_cloud_cover : Z
}.

(** The lines the code prints. *)
Inductive message :=
| MsgApiConnected                      (* "Соединение с Landsat API установлено." *)
| MsgApiLoginError (e : exn)
| MsgEEConnected                       (* "Подключение к API Landsat Earth Explorer выполнено." *)
| MsgEELoginError (e : exn)
| MsgNoProductFound                    (* "Ни одного продукта не найдено" *)
| MsgScenesFound (n : nat)             (* "Cцен найдено: n." *)
| MsgCannotBeDone                      (* "Процесс не может быть выполнен" *)
| MsgZones (zones : list string)
| MsgAfterFilter (n : nat)             (* "Продуктов найдено после фильтрации: n." *)
| MsgNothingAfterFilter                (* "После фильтра ни одного продукта не найдено" *)
| MsgInFolder (title : string)
| MsgMustDownload (title : string)
| MsgProductDownloaded (title : string)
| MsgItemError (title : string) (e : exn)
| MsgTotalDownloaded (n : nat).        (* "Продуктов загружено: n." *)

(** What the code does to the outside world, in the order it does it.  A
    call is recorded when it is made, whether it then returns or raises. *)
Inductive event :=
| EvPrint (m : message)
| EvApiLogin (username password : string)          (* API(username, password) *)
| EvApiSearch (qp : QueryParameters)               (* api.search(..., max_results=500) *)
| EvApiLogout                                      (* api.logout() *)
| EvEELogin (username password : string)           (* EarthExplorer(username, password) *)
| EvListdir (dir : string)                         (* os.listdir(dir_downld) *)
| EvRemove (path : string)                         (* os.remove(path) *)
| EvGetFileinfo (url : string) (output_dir : string) (* ee._get_fileinfo(url, ...) *)
| EvDownload (identifier output_dir dataset : string) (* ee.download(...) *)
| EvExtract (archive dest : string)                (* tarfile.open(archive).extractall(dest) *)
| EvInformationTable (data : list (string * status))
| EvTableInsert (row_num : nat) (st : status)      (* information_table.insert(row_num, 1, st) *)
| EvDownloadBarFrame
| EvDownloadProgressBar (location : string) (size : option Z).

(** The remote catalog, the remote download service and the file system,
    over a world state [W].  Each operation returns or raises and leaves a
    new world behind. *)
Class Collaborators (W : Type) := {
  api_login : string → string → W → outcome unit * W;
  api_search : QueryParameters → W → outcome (list Scene) * W;
  api_logout : W → outcome unit * W;
  ee_login : string → string → W → outcome unit * W;
  ee_get_fileinfo : string → string → W → outcome (string * Z) * W;
  ee_download : string → string → string → W → outcome unit * W;
  os_listdir : string → W → outcome (list string) * W;
  os_remove : string → W → outcome unit * W;
  tar_extractall : string → string → W → outcome unit * W
}.

(** The handles returned by the two login functions. *)
Inductive API := api_session.
Inductive EarthExplorer := ee_session.

(** The state the code runs in: the world, the trace of what was done to it
    and the rows of the information table. *)
Record state (W : Type) := mkState {
  world : W;
  trace : list event;
  table : list (string * status)
}.
Arguments mkState {W} _ _ _.
Arguments world {W} _.
Arguments trace {W} _.
Arguments table {W} _.

(** ** A state and exception monad *)

Section Monad.
Context {W : Type}.

Definition M (A : Type) : Type := state W → result A * state W.

Definition ret {A} (a : A) : M A := λ st, (Returned a, st).

Definition raise {A} (e : exn) : M A := λ st, (Raised e, st).

Definition bind {A B} (m : M A) (k : A → M B) : M B :=
  λ st, match m st with
        | (Returned a, st') => k a st'
        | (Raised e, st') => (Raised e, st')
        | (OutOfFuel, st') => (OutOfFuel, st')
        end.

(** [try: m except: h e], the bare [except:] that catches everything: what
    [m] did to the state before raising stays done. *)
Definition try_except {A} (m : M A) (h : exn → M A) : M A :=
  λ st, match m st with
        | (Returned a, st') => (Returned a, st')
        | (Raised e, st') => h e st'
        | (OutOfFuel, st') => (OutOfFuel, st')
        end.

(** [try: m except Exception as e: h e]: an exception that does not derive
    from [Exception] passes the handler. *)
Definition try_except_Exception {A} (m : M A) (h : exn → M A) : M A :=
  λ st, match m st with
        | (Returned a, st') => (Returned a, st')
        | (Raised e, st') =>
            if is_Exception e then h e st' else (Raised e, st')
        | (OutOfFuel, st') => (OutOfFuel, st')
        end.

(** The value of a call that returns or raises without touching the
    state. *)
Definition of_outcome {A} (o : outcome A) : M A :=
  match o with
  | Ok a => ret a
  | Err e => raise e
  end.

Definition out_of_fuel {A} : M A := λ st, (OutOfFuel, st).

Definition log (ev : event) : M unit :=
  λ st, (Returned tt, mkState (world st) (trace st ++ [ev]) (table st)).

Definition print (m : message) : M unit := log (EvPrint m).

(** A call to a collaborator: recorded, then performed on the world. *)
Definition call {A} (ev : event) (op : W → outcome A * W) : M A :=
  λ st, match op (world st) with
        | (Ok a, w) => (Returned a, mkState w (trace st ++ [ev]) (table st))
        | (Err e, w) => (Raised e, mkState w (trace st ++ [ev]) (table st))
        end.

End Monad.

Declare Scope py_scope.
Delimit Scope py_scope with py.
Notation "x <- m ;; k" := (bind m (λ x, k))
  (at level 100, m at next level, k at level 200, right associativity)
  : py_scope.
Notation "m ;; k" := (bind m (λ _, k))
  (at level 100, k at level 200, right associativity) : py_scope.
Notation "'try' m 'except' h" := (try_except m h)
  (at level 100, m at level 200, h at level 200) : py_scope.
Notation "'try' m 'except_Exception' h" := (try_except_Exception m h)
  (at level 100, m at level 200, h at level 200) : py_scope.
Local Open Scope py_scope.

(** ** CatalogClient and the two login functions *)

Section Orchestration.
Context {W : Type} `{Collaborators W}.
Context {Geometry : Type} `{GeometryLib Geometry}.

(** [landsat_explorer_login(username, password)]: the handle, or [None]
    when the constructor raised.  The two handlers, [except
    LandsatxploreError] and [except Exception], differ in the text they
    print before the exception; together they catch what derives from
    [Exception]. *)
Definition landsat_explorer_login (username password : string)
  : M (W:=W) (option API) :=
  try (call (EvApiLogin username password) (api_login username password) ;;
       print MsgApiConnected ;;
       ret (Some api_session))
  except_Exception (λ e, print (MsgApiLoginError e) ;; ret None).

(** [earth_explorer_login(username, password)] *)
Definition earth_explorer_login (username password : string)
  : M (W:=W) (option EarthExplorer) :=
  try (call (EvEELogin username password) (ee_login username password) ;;
       print MsgEEConnected ;;
       ret (Some ee_session))
  except_Exception (λ e, print (MsgEELoginError e) ;; ret None).

(** A method call on [api], which is [None] after a failed login: the
    attribute lookup on [None] raises [AttributeError] before any call is
    made. *)
Definition on_api {A} (api : option API) (m : M (W:=W) A) : M A :=
  match api with
  | Some _ => m
  | None => raise AttributeError
  end.

Definition on_ee {A} (ee : option EarthExplorer) (m : M (W:=W) A) : M A :=
  match ee with
  | Some _ => m
  | None => raise AttributeError
  end.

(** [landsat_search(username, password, dataset, bbox, start_date, end_date,
    max_cloud_cover)].  The value is [Some scenes] for a returned list and
    [None] for Python's [None]: the branch for zero records prints and falls
    off the end of the function, and the handler returns [None]. *)
Definition landsat_search (username password : string) (qp : QueryParameters)
  : M (W:=W) (option (list Scene)) :=
  try (api <- landsat_explorer_login username password ;;
       scenes_landsat <- on_api api (call (EvApiSearch qp) (api_search qp)) ;;
       on_api api (call EvApiLogout api_logout) ;;
       if Nat.eqb (length scenes_landsat) 0
       then print MsgNoProductFound ;; ret None
       else print (MsgScenesFound (length scenes_landsat)) ;;
            ret (Some scenes_landsat))
  except (λ _, print MsgCannotBeDone ;; ret None).

(** ** The information table *)

(** Modelled from the spec: the classes [InformationTable], [DownloadBarFrame]
    and [DownloadProgressBar] of [gui/gui_utils.py] are not among the
    sources.  They are the progress observer of the spec, a push-only
    interface that never fails: the table keeps one row per work item with
    its status, and [insert(row_num, 1, st)] overwrites the status of row
    [row_num]. *)
Definition InformationTable (data : list (string * status)) : M (W:=W) unit :=
  λ s, (Returned tt,
        mkState (world s) (trace s ++ [EvInformationTable data]) data).

Definition information_table_insert (row_num : nat) (st : status)
  : M (W:=W) unit :=
  λ s, (Returned tt,
        mkState (world s) (trace s ++ [EvTableInsert row_num st])
                (alter (λ row, (row.1, st)) row_num (table s))).

(** The scan [for row_num, row in enumerate(data_for_table)] up to the first
    row with [row[0] == title]; [row_num] is the number of the row [rows]
    starts at. *)
Fixpoint find_row (rows : list (string * status)) (title : string)
    (row_num : nat) : option nat :=
  match rows with
  | [] => None
  | row :: rest =>
      if String.eqb row.1 title then Some row_num
      else find_row rest title (S row_num)
  end.

(** The block that writes a new status for [title]:
    [for row_num, row in enumerate(data_for_table):
       if row[0] == title: information_table.insert(row_num, 1, st); break]. *)
Definition set_status (data : list (string * status)) (title : string)
    (st : status) : M (W:=W) unit :=
  match find_row data title 0 with
  | Some row_num => information_table_insert row_num st
  | None => ret tt
  end.

(** ** DownloadWorker *)

Definition dataset_id_list : list string :=
  ["5e83d14f30ea90a9"; "5e83d14fec7cae84"; "632210d4770592cf"].

Definition EE_DOWNLOAD_URL (dataset_id product_id : string) : string :=
  "https://earthexplorer.usgs.gov/download/" +:+ dataset_id +:+ "/"
    +:+ product_id +:+ "/EE".

(** [title in names], by [==] on the elements. *)
Definition py_in (title : string) (names : list string) : bool :=
  existsb (String.eqb title) names.

(** [titles.remove(title)]: the first element equal to [title] is removed;
    [None] when there is none (Python raises [ValueError]). *)
Fixpoint py_list_remove (title : string) (titles : list string)
  : option (list string) :=
  match titles with
  | [] => None
  | t :: rest =>
      if String.eqb t title then Some rest
      else option_map (cons t) (py_list_remove title rest)
  end.

(** [next(product for product in query if product["display_id"] == title)] *)
Fixpoint next_product (query : list Scene) (title : string) : option Scene :=
  match query with
  | [] => None
  | product :: rest =>
      if String.eqb (display_id product) title then Some product
      else next_product rest title
  end.

(** The loop [for id_count, dataset_id in enumerate(dataset_id_list)] that
    probes the file size: the value of [file_size] after the loop.  The
    handler's [if id_count + 1 < id_num: pass] does nothing. *)
Fixpoint probe_loop (ee : option EarthExplorer) (product_id dir_downld : string)
    (ids : list string) (file_size : option Z) : M (W:=W) (option Z) :=
  match ids with
  | [] => ret file_size
  | dataset_id :: rest =>
      probed <- (try (info <- on_ee ee
                          (call (EvGetFileinfo
                                   (EE_DOWNLOAD_URL dataset_id product_id)
                                   dir_downld)
                                (ee_get_fileinfo
                                   (EE_DOWNLOAD_URL dataset_id product_id)
                                   dir_downld)) ;;
                       ret (Some info))
                 except (λ _, ret None)) ;;
      match probed with
      | Some (filename, size) => ret (Some size)          (* break *)
      | None => probe_loop ee product_id dir_downld rest file_size
      end
  end.

(** The body of the [try] of one work item. *)
Definition download_and_extract (ee : option EarthExplorer)
    (query : list Scene) (qp : QueryParameters) (dir_downld : string)
    (data : list (string * status)) (title archive_name : string)
  : M (W:=W) unit :=
  product <- match next_product query title with
             | Some product => ret product
             | None => raise StopIteration
             end ;;
  let product_id := entity_id product in
  file_size <- probe_loop ee product_id dir_downld dataset_id_list None ;;
  let final_file_size := file_size in
  let download_location := PyStr.path_join dir_downld archive_name in
  log EvDownloadBarFrame ;;
  set_status data title downloading ;;
  log (EvDownloadProgressBar download_location final_file_size) ;;
  on_ee ee (call (EvDownload product_id dir_downld (qp_dataset qp))
                 (ee_download product_id dir_downld (qp_dataset qp))) ;;
  print (MsgProductDownloaded title) ;;
  set_status data title downloaded ;;
  call (EvExtract download_location (PyStr.path_join dir_downld title))
       (tar_extractall download_location (PyStr.path_join dir_downld title)) ;;
  call (EvRemove download_location) (os_remove download_location) ;;
  set_status data title extracted.

(** The body of [for title in titles]; the value is the list [titles] as the
    body leaves it. *)
Definition process_title (ee : option EarthExplorer) (query : list Scene)
    (qp : QueryParameters) (dir_downld : string)
    (data : list (string * status)) (title : string) (titles : list string)
  : M (W:=W) (list string) :=
  names <- call (EvListdir dir_downld) (os_listdir dir_downld) ;;
  if py_in title names
  then
    print (MsgInFolder title) ;;
    set_status data title in_storage ;;
    ret titles
  else
    let archive_name := title +:+ ".tar" in
    names <- call (EvListdir dir_downld) (os_listdir dir_downld) ;;
    (if py_in archive_name names
     then call (EvRemove (PyStr.path_join dir_downld archive_name))
               (os_remove (PyStr.path_join dir_downld archive_name))
     else ret tt) ;;
    print (MsgMustDownload title) ;;
    try (download_and_extract ee query qp dir_downld data title archive_name ;;
         ret titles)
    except_Exception (λ e,
      print (MsgItemError title e) ;;
      titles <- match py_list_remove title titles with
                | Some titles => ret titles
                | None => raise ValueError
                end ;;
      set_status data title error ;;
      ret titles).

(** [for title in titles]: Python's list iterator keeps an index [i] into
    the list object; each step yields [titles[i]] and increments [i], and the
    loop ends when [i] is no longer below the current length.  The body may
    remove elements from the list it iterates. *)
Fixpoint titles_loop (fuel : nat) (ee : option EarthExplorer)
    (query : list Scene) (qp : QueryParameters) (dir_downld : string)
    (data : list (string * status)) (i : nat) (titles : list string)
  : M (W:=W) (list string) :=
  match titles !! i with
  | None => ret titles
  | Some title =>
      match fuel with
      | 0 => out_of_fuel
      | S fuel' =>
          titles <- process_title ee query qp dir_downld data title titles ;;
          titles_loop fuel' ee query qp dir_downld data (S i) titles
      end
  end.

(** ** The orchestration *)

(** [download_landsat_images(username, password, qp, satellite_grid,
    input_shapefile, dir_downld, master_frame, verified_tiles)].  Iterating
    [query] when it is [None] raises [TypeError]. *)
Definition download_landsat_images (username password : string)
    (qp : QueryParameters)
    (satellite_grid input_shapefile : GeoDataFrame Geometry)
    (dir_downld : string) (verified_tiles : list string)
  : M (W:=W) (list string) :=
  query <- landsat_search username password qp ;;
  zones <- of_outcome (get_tile_list satellite_grid input_shapefile) ;;
  print (MsgZones zones) ;;
  let image_tiles_set : gset string := list_to_set verified_tiles in
  match query with
  | None => raise TypeError
  | Some scenes =>
      let data := data_for_table scenes zones image_tiles_set in
      let titles := titles_of data in
      print (MsgAfterFilter (length titles)) ;;
      match titles with
      | [] => print MsgNothingAfterFilter ;; ret titles
      | _ :: _ =>
          InformationTable data ;;
          ee <- earth_explorer_login username password ;;
          titles <- titles_loop (length titles) ee scenes qp dir_downld data
                      0 titles ;;
          print (MsgTotalDownloaded (length titles)) ;;
          ret titles
      end
  end.

End Orchestration.

(** ** Vocabulary of the properties *)

(** [m] never uses up the iteration bound, and a value it returns satisfies
    [Q]. *)
Definition terminates_with {W A} (m : M (W:=W) A) (Q : A → Prop) : Prop :=
  ∀ st, match (m st).1 with
        | Returned a => Q a
        | Raised _ => True
        | OutOfFuel => False
        end.

(** [m] only adds to the trace. *)
Definition trace_grows {W A} (m : M (W:=W) A) : Prop :=
  ∀ st, trace st `prefix_of` trace (m st).2.

(** The events of [set_status data title st]. *)
Definition status_events (data : list (string * status)) (title : string)
    (st : status) : list event :=
  match find_row data title 0 with
  | Some row_num => [EvTableInsert row_num st]
  | None => []
  end.

(** The metadata probe as the spec words it, for a metadata endpoint that
    maps a dataset identifier to a URL.  [probed endpoint dir ids w tried
    size w'] : from the world [w], the dataset identifiers [ids] are tried
    in list order up to the first one whose probe succeeds; [tried] are the
    identifiers tried, [size] is the size the successful probe answered, or
    [None] when every probe failed, and [w'] is the world left. *)
Inductive probed {W} `{Collaborators W} (endpoint : string → string)
    (dir : string)
  : list string → W → list string → option Z → W → Prop :=
| probed_nil w :
    probed endpoint dir [] w [] None w
| probed_success dataset_id ids w filename size w' :
    ee_get_fileinfo (endpoint dataset_id) dir w = (Ok (filename, size), w') →
    probed endpoint dir (dataset_id :: ids) w [dataset_id] (Some size) w'
| probed_failure dataset_id ids w e w' tried size w'' :
    ee_get_fileinfo (endpoint dataset_id) dir w = (Err e, w') →
    probed endpoint dir ids w' tried size w'' →
    probed endpoint dir (dataset_id :: ids) w (dataset_id :: tried) size w''.



(** The work item [title] was attempted: its storage check was made and
    answered, which the code reports by one of two messages. *)
Definition attempted (title : string) (tr : list event) : Prop :=
  EvPrint (MsgInFolder title) ∈ tr ∨ EvPrint (MsgMustDownload title) ∈ tr.

(** The display identifiers of the rows of the information table that ended
    in one of the statuses [in_storage], [downloaded] and [extracted]. *)
Definition succeeded (rows : list (string * status)) : list string :=
  fst <$> filter (λ row, row.2 = in_storage ∨ row.2 = downloaded
                         ∨ row.2 = extracted) rows.

(** ** Vocabulary of further properties *)

(** [m], run from any state, leaves a state related to it by [R]. *)
Definition respects {W A} (R : relation (state W)) (m : M (W:=W) A) : Prop :=
  ∀ st, R st (m st).2.

(** [s'] comes from [s] by adding events, all of which satisfy [P]. *)
Definition adds {W} (P : event → Prop) : relation (state W) :=
  λ s s', ∃ evs, trace s' = trace s ++ evs ∧ Forall P evs.

(** How a relation reacts to the primitive steps, for the events in [E]. *)
Record reacts {W} (R : relation (state W)) (E : event → Prop) : Prop := {
  reacts_preorder : PreOrder R;
  reacts_log : ∀ ev, E ev → respects R (log ev);
  reacts_call : ∀ A ev (op : W → outcome A * W), E ev → respects R (call ev op);
  reacts_insert : ∀ row_num st,
    E (EvTableInsert row_num st) →
    respects R (information_table_insert row_num st)
}.

(** The events the body of the loop may produce for the work item [title]:
    the storage check, the removal of the item's archive, its messages, the
    status of its row, its progress bar and, only with a session of the
    download service, the calls for the first scene that has its display
    identifier. *)
Inductive item_event (ee : option EarthExplorer) (query : list Scene)
    (qp : QueryParameters) (dir : string) (data : list (string * status))
    (title : string) : event → Prop :=
| ie_listdir :
    item_event ee query qp dir data title (EvListdir dir)
| ie_remove :
    item_event ee query qp dir data title
      (EvRemove (PyStr.path_join dir (title +:+ ".tar")))
| ie_in_folder :
    item_event ee query qp dir data title (EvPrint (MsgInFolder title))
| ie_must_download :
    item_event ee query qp dir data title (EvPrint (MsgMustDownload title))
| ie_downloaded :
    item_event ee query qp dir data title (EvPrint (MsgProductDownloaded title))
| ie_error e :
    item_event ee query qp dir data title (EvPrint (MsgItemError title e))
| ie_insert row_num st :
    find_row data title 0 = Some row_num →
    item_event ee query qp dir data title (EvTableInsert row_num st)
| ie_bar :
    item_event ee query qp dir data title EvDownloadBarFrame
| ie_progress size :
    item_event ee query qp dir data title
      (EvDownloadProgressBar (PyStr.path_join dir (title +:+ ".tar")) size)
| ie_fileinfo session product dataset_id :
    ee = Some session →
    next_product query title = Some product →
    dataset_id ∈ dataset_id_list →
    item_event ee query qp dir data title
      (EvGetFileinfo (EE_DOWNLOAD_URL dataset_id (entity_id product)) dir)
| ie_download session product :
    ee = Some session →
    next_product query title = Some product →
    item_event ee query qp dir data title
      (EvDownload (entity_id product) dir (qp_dataset qp))
| ie_extract session :
    ee = Some session →
    item_event ee query qp dir data title
      (EvExtract (PyStr.path_join dir (title +:+ ".tar"))
                 (PyStr.path_join dir title)).

(** The events of the loop over the work list [titles]. *)
Definition worklist_event (ee : option EarthExplorer) (query : list Scene)
    (qp : QueryParameters) (dir : string) (data : list (string * status))
    (titles : list string) (ev : event) : Prop :=
  ∃ title, title ∈ titles ∧ item_event ee query qp dir data title ev.

(** The value of [ee] after [earth_explorer_login] has returned, by what
    the constructor did. *)
Definition session_after (o : outcome unit) : option EarthExplorer :=
  match o with
  | Ok _ => Some ee_session
  | Err _ => None
  end.

(** The events of a catalog search. *)
Definition catalog_event (username password : string) (qp : QueryParameters)
    (ev : event) : Prop :=
  ev = EvApiLogin username password ∨ ev = EvApiSearch qp ∨ ev = EvApiLogout
  ∨ ev = EvPrint MsgApiConnected ∨ (∃ e, ev = EvPrint (MsgApiLoginError e))
  ∨ ev = EvPrint MsgNoProductFound ∨ (∃ n, ev = EvPrint (MsgScenesFound n))
  ∨ ev = EvPrint MsgCannotBeDone.

(** The events of the orchestration after the search, for the scenes the
    search returned: its own messages, the creation of the table, the login
    to the download service and the events of the loop. *)
Definition run_event (username password : string) (ee : option EarthExplorer)
    (scenes : list Scene) (qp : QueryParameters) (dir : string)
    (data : list (string * status)) (zones : list string) (ev : event)
  : Prop :=
  ev = EvPrint (MsgZones zones)
  ∨ (∃ n, ev = EvPrint (MsgAfterFilter n))
  ∨ ev = EvPrint MsgNothingAfterFilter
  ∨ ev = EvInformationTable data
  ∨ ev = EvEELogin username password
  ∨ ev = EvPrint MsgEEConnected ∨ (∃ e, ev = EvPrint (MsgEELoginError e))
  ∨ worklist_event ee scenes qp dir data (titles_of data) ev
  ∨ (∃ n, ev = EvPrint (MsgTotalDownloaded n)).

(** [m] raises only exceptions that satisfy [P]. *)
Definition raises_only {W A} (m : M (W:=W) A) (P : exn → Prop) : Prop :=
  ∀ st e, (m st).1 = Raised e → P e.

(** The exception [e] is one that the download, the extraction of an
    archive or the removal of a file raises in some world. *)
Definition raised_by_transfer {W} `{Collaborators W} (e : exn) : Prop :=
  (∃ identifier output_dir dataset w w',
     ee_download identifier output_dir dataset w = (Err e, w'))
  ∨ (∃ archive dest w w', tar_extractall archive dest w = (Err e, w'))
  ∨ (∃ path w w', os_remove path w = (Err e, w')).

(** The end of the orchestration: the loop over the work list of [data]
    and the line with the number of titles left. *)
Definition loop_and_report {W} `{Collaborators W} (ee : option EarthExplorer)
    (scenes : list Scene) (qp : QueryParameters) (dir : string)
    (data : list (string * status)) : M (W:=W) (list string) :=
  titles <- titles_loop (length (titles_of data)) ee scenes qp dir data 0
              (titles_of data) ;;
  print (MsgTotalDownloaded (length titles)) ;;
  ret titles.

(** A call to the download service or an extraction of what it delivered. *)
Definition is_download_service_call (ev : event) : bool :=
  match ev with
  | EvGetFileinfo _ _ | EvDownload _ _ _ | EvExtract _ _ => true
  | _ => false
  end.

Definition is_ee_login (ev : event) : bool :=
  match ev with EvEELogin _ _ => true | _ => false end.

Definition is_api_login (ev : event) : bool :=
  match ev with EvApiLogin _ _ => true | _ => false end.

(** ** A concrete world *)

(** A small implementation of the collaborators, on which the code can be
    run: a file system that is a list of paths, a catalog that answers every
    search with a fixed outcome, and a download service whose failures are
    listed in a configuration. *)
Module Sim.

(** Geometries are finite sets of integer grid points; two geometries
    intersect when they share a point, the union of no geometry is empty,
    and there is one coordinate system. *)
Definition Geometry : Type := list (Z * Z).

Definition point_eqb (p q : Z * Z) : bool :=
  Z.eqb p.1 q.1 && Z.eqb p.2 q.2.

Definition geom_intersects (a b : Geometry) : bool :=
  existsb (λ p, existsb (point_eqb p) b) a.

#[global] Instance geometry : GeometryLib Geometry := {|
  intersects := geom_intersects;
  unary_union := λ gs, List.concat gs;
  to_crs := λ _ _ g, g
|}.

Record config := mkConfig {
  catalog_login_ok : bool;
  search_outcome : outcome (list Scene);
  ee_login_ok : bool;
  (** the size the metadata endpoint answers for a URL, if it answers *)
  fileinfo : string → option Z;
  (** entity ids whose download fails *)
  failing_downloads : list string;
  (** archives that cannot be extracted *)
  corrupt_archives : list string
}.

Record world := mkWorld {
  files : list string;
  open_sessions : nat
}.

(** [path] without the leading [prefix], when it starts with it. *)
Fixpoint strip_prefix (prefix path : string) : option string :=
  match prefix, path with
  | EmptyString, _ => Some path
  | String _ _, EmptyString => None
  | String a prefix', String b path' =>
      if Ascii.eqb a b then strip_prefix prefix' path' else None
  end.

Definition names_under (dir : string) (paths : list string) : list string :=
  omap (strip_prefix (dir +:+ "/")) paths.

Definition remove_path (path : string) (paths : list string) : list string :=
  List.filter (λ p, negb (String.eqb p path)) paths.

(** The archive the download service writes for an entity: the display
    identifier of the scene followed by [.tar]. *)
Fixpoint archive_of (scenes : list Scene) (identifier : string) : string :=
  match scenes with
  | [] => identifier +:+ ".tar"
  | s :: rest =>
      if String.eqb (entity_id s) identifier then display_id s +:+ ".tar"
      else archive_of rest identifier
  end.

Definition catalog (c : config) : list Scene :=
  match search_outcome c with
  | Ok scenes => scenes
  | Err _ => []
  end.

Definition collaborators (c : config) : Collaborators world := {|
  api_login := λ _ _ w,
    if catalog_login_ok c
    then (Ok tt, mkWorld (files w) (S (open_sessions w)))
    else (Err LandsatxploreError, w);
  api_search := λ _ w, (search_outcome c, w);
  api_logout := λ w, (Ok tt, mkWorld (files w) (pred (open_sessions w)));
  ee_login := λ _ _ w,
    if ee_login_ok c then (Ok tt, w) else (Err LandsatxploreError, w);
  ee_get_fileinfo := λ url _ w,
    match fileinfo c url with
    | Some size => (Ok ("scene.tar", size), w)
    | None => (Err LandsatxploreError, w)
    end;
  ee_download := λ identifier dir _ w,
    if py_in identifier (failing_downloads c)
    then (Err LandsatxploreError, w)
    else (Ok tt,
          mkWorld (files w ++ [PyStr.path_join dir (archive_of (catalog c) identifier)])
                  (open_sessions w));
  os_listdir := λ dir w, (Ok (names_under dir (files w)), w);
  os_remove := λ path w,
    if py_in path (files w)
    then (Ok tt, mkWorld (remove_path path (files w)) (open_sessions w))
    else (Err OSError, w);
  tar_extractall := λ archive dest w,
    if py_in archive (files w) && negb (py_in archive (corrupt_archives c))
    then (Ok tt, mkWorld (files w ++ [dest]) (open_sessions w))
    else (Err TarError, w)
|}.

Definition initial (paths : list string) : state world :=
  mkState (mkWorld paths 0) [] [].

(** The inputs of the runs below. *)
Definition qp : QueryParameters :=
  mkQuery "landsat_ot_c2_l2" (23, 51, 32, 56)%Z "2024-01-01" "2024-02-01" 20%Z.

Definition cell1 : Feature Geometry := mkFeature "001_02" [(0, 0); (0, 1)]%Z.
Definition cell2 : Feature Geometry := mkFeature "003_04" [(5, 5); (5, 6)]%Z.
Definition grid : GeoDataFrame Geometry :=
  mkFrame (Some "EPSG:4326") [cell1; cell2].

(** An area over the first cell only, an area without any geometry, and an
    area without any geometry and without coordinate system. *)
Definition area1 : GeoDataFrame Geometry :=
  mkFrame (Some "EPSG:4326") [mkFeature "aoi" [(0, 1); (1, 1)]%Z].
Definition empty_area : GeoDataFrame Geometry := mkFrame (Some "EPSG:4326") [].
Definition naive_empty_area : GeoDataFrame Geometry := mkFrame None [].

Definition sceneA : Scene := mkScene "LC09_L2SP_001002_20240101_20240102_02_T1" "E1".
Definition sceneB : Scene := mkScene "LC09_L2SP_001002_20240117_20240118_02_T1" "E2".
Definition sceneC : Scene := mkScene "LC09_L2SP_003004_20240101_20240102_02_T1" "E3".
Definition sceneD : Scene := mkScene "LC08_L2SP_001002_20240125_20240126_02_T1" "E4".

(** Everything works. *)
Definition all_fine (scenes : list Scene) : config :=
  mkConfig true (Ok scenes) true (λ _, Some 1000%Z) [] [].

(** The download of the first scene fails; everything else works. *)
Definition first_download_fails : config :=
  mkConfig true (Ok [sceneA; sceneB; sceneC; sceneD]) true
    (λ _, Some 1000%Z) ["E1"] [].

(** The login to the catalog succeeds and the search raises. *)
Definition search_raises : config :=
  mkConfig true (Err LandsatxploreError) true (λ _, Some 1000%Z) [] [].

(** The search finds nothing. *)
Definition search_finds_nothing : config := all_fine [].

(** The metadata endpoint answers for no dataset identifier. *)
Definition no_fileinfo : config :=
  mkConfig true (Ok [sceneA]) true (λ _, None) [] [].

(** The metadata endpoint answers for the third dataset identifier only. *)
Definition fileinfo_third_only : config :=
  mkConfig true (Ok [sceneA]) true
    (λ url, if String.eqb url (EE_DOWNLOAD_URL "632210d4770592cf" "E1")
            then Some 2048%Z else None) [] [].

(** One run of the orchestration in the concrete world. *)
Definition run (c : config) (area : GeoDataFrame Geometry)
    (verified_tiles : list string) (paths : list string)
  : result (list string) * state world :=
  download_landsat_images (H := collaborators c) "user" "secret" qp grid area
    "/data" verified_tiles (initial paths).

(** One catalog search in the concrete world. *)
Definition search (c : config) : result (option (list Scene)) * state world :=
  landsat_search (H := collaborators c) "user" "secret" qp (initial []).

(** What the run with [first_download_fails] over [area1] does, from an
    empty storage directory and with no verified tile. *)
Definition first_download_fails_trace : list event :=
  [EvApiLogin "user" "secret"; EvPrint MsgApiConnected; EvApiSearch qp;
   EvApiLogout; EvPrint (MsgScenesFound 4);
   EvPrint (MsgZones ["001002"]); EvPrint (MsgAfterFilter 3);
   EvInformationTable [(display_id sceneA, needs_download);
                       (display_id sceneB, needs_download);
                       (display_id sceneD, needs_download)];
   EvEELogin "user" "secret"; EvPrint MsgEEConnected;
   (* first item: the download raises *)
   EvListdir "/data"; EvListdir "/data";
   EvPrint (MsgMustDownload (display_id sceneA));
   EvGetFileinfo (EE_DOWNLOAD_URL "5e83d14f30ea90a9" "E1") "/data";
   EvDownloadBarFrame; EvTableInsert 0 downloading;
   EvDownloadProgressBar
     (PyStr.path_join "/data" (display_id sceneA +:+ ".tar")) (Some 1000%Z);
   EvDownload "E1" "/data" "landsat_ot_c2_l2";
   EvPrint (MsgItemError (display_id sceneA) LandsatxploreError);
   EvTableInsert 0 error;
   (* third item; nothing is done for the second *)
   EvListdir "/data"; EvListdir "/data";
   EvPrint (MsgMustDownload (display_id sceneD));
   EvGetFileinfo (EE_DOWNLOAD_URL "5e83d14f30ea90a9" "E4") "/data";
   EvDownloadBarFrame; EvTableInsert 2 downloading;
   EvDownloadProgressBar
     (PyStr.path_join "/data" (display_id sceneD +:+ ".tar")) (Some 1000%Z);
   EvDownload "E4" "/data" "landsat_ot_c2_l2";
   EvPrint (MsgProductDownloaded (display_id sceneD));
   EvTableInsert 2 downloaded;
   EvExtract (PyStr.path_join "/data" (display_id sceneD +:+ ".tar"))
             (PyStr.path_join "/data" (display_id sceneD));
   EvRemove (PyStr.path_join "/data" (display_id sceneD +:+ ".tar"));
   EvTableInsert 2 extracted;
   EvPrint (MsgTotalDownloaded 2)].

End Sim.


(** ** The user interface: [gui/gui.py] *)

(** The parts of [gui.py] that decide what is run and what is reported: the
    frame that holds the loaded area file, the frame that holds the download
    directory, and [button_callback], the caller of
    [download_landsat_images].  Widgets are modelled by the values the code
    reads from them; the layout, the console redirection and the texts of
    labels other than the two file labels are left out. *)
Module Gui.

(** [os.path.basename] of [posixpath]: what follows the last slash. *)
Fixpoint basename (path : string) : string :=
  match path with
  | EmptyString => EmptyString
  | String c rest =>
      if existsb (Ascii.eqb "/") (list_ascii_of_string rest) then basename rest
      else if Ascii.eqb c "/" then rest else path
  end.

(** The messages of the [ValueError]s raised in [gui.py]. *)
Inductive value_error :=
| NoUsername            (* "Имя пользователя не указано" *)
| NoPassword            (* "Пароль не указан" *)
| NoFileSelected        (* "No shapefile or GeoJSON file selected." *)
| ShapefileNotChosen    (* "Shapefile не выбран" *)
| NoDirectory.          (* "Папка для загрузки не выбрана" *)

(** What reaches the handlers of [button_callback]: a [ValueError] of
    [gui.py] with its message, or an exception of the code it calls. *)
Inductive gui_exn :=
| GuiValueError (msg : value_error)
| Other (e : exn).

(** [except ValueError] catches the first and the [ValueError]s among the
    second. *)
Definition is_value_error (e : gui_exn) : bool :=
  match e with
  | GuiValueError _ => true
  | Other ValueError => true
  | Other _ => false
  end.

(** [except Exception] catches what derives from [Exception]. *)
Definition is_gui_Exception (e : gui_exn) : bool :=
  match e with
  | GuiValueError _ => true
  | Other e => is_Exception e
  end.

(** The lines [button_callback] prints itself. *)
Inductive gui_message :=
| AllDownloaded                 (* "Все спутниковые снимки Landsat загружены!" *)
| ErrorLine (e : gui_exn)       (* "Ошибка: ..." *)
| UnexpectedLine (e : gui_exn). (* "Произошла непредвиденная ошибка: ..." *)

(** What a method of the interface does. *)
Inductive gui_outcome (A : Type) :=
| Fine (a : A)
| Fails (e : gui_exn).
Arguments Fine {A} _.
Arguments Fails {A} _.

Section Frames.
Context {Geometry : Type} `{GeometryLib Geometry}.

(** [ShapefileEntryFrame]: the two attributes that hold the loaded file and
    the two labels. *)
Record ShapefileEntryFrame := mkFiles {
  shapefile : option (GeoDataFrame Geometry);
  geojsonfile : option (GeoDataFrame Geometry);
  entry_find_shp : string;
  entry_find_geojson : string
}.

Definition crs_file : string := "epsg:4326".

(** The state [__init__] leaves. *)
Definition no_file_label : string := "Файл не загружен".
Definition files_init : ShapefileEntryFrame :=
  mkFiles None None no_file_label no_file_label.

(** The frame as read and normalised by [open_shapefile] and
    [open_geojsonfile]: [to_crs(self.crs_file, inplace=True)] when the
    coordinate system differs, which raises for a file that declares no
    coordinate system. *)
Definition normalised (file : GeoDataFrame Geometry)
  : outcome (GeoDataFrame Geometry) :=
  if bool_decide (crs file ≠ Some crs_file)
  then frame_to_crs (Some crs_file) file
  else Ok file.

(** [open_shapefile()]: [file_path] is what the file dialog answered (empty
    when cancelled) and [read] what [gpd.read_file(file_path)] does.  When
    the read or the reprojection raises, the exception leaves the method and
    no attribute has been assigned. *)
Definition open_shapefile (file_path : string)
    (read : outcome (GeoDataFrame Geometry)) (f : ShapefileEntryFrame)
  : gui_outcome ShapefileEntryFrame :=
  if Nat.eqb (String.length file_path) 0 then Fine f
  else match read with
       | Err e => Fails (Other e)
       | Ok shp_file =>
           match normalised shp_file with
           | Err e => Fails (Other e)
           | Ok shp_file =>
               Fine (mkFiles (Some shp_file) None
                       (basename file_path) (entry_find_geojson f))
           end
       end.

(** [open_geojsonfile()] *)
Definition open_geojsonfile (file_path : string)
    (read : outcome (GeoDataFrame Geometry)) (f : ShapefileEntryFrame)
  : gui_outcome ShapefileEntryFrame :=
  if Nat.eqb (String.length file_path) 0 then Fine f
  else match read with
       | Err e => Fails (Other e)
       | Ok geojson_file =>
           match normalised geojson_file with
           | Err e => Fails (Other e)
           | Ok geojson_file =>
               Fine (mkFiles None (Some geojson_file)
                       (entry_find_shp f) (basename file_path))
           end
       end.

(** [get_shapefile()]; the value is an [option] because the attributes it
    returns can hold [None]. *)
Definition get_shapefile (f : ShapefileEntryFrame)
  : gui_outcome (option (GeoDataFrame Geometry)) :=
  match shapefile f, geojsonfile f with
  | None, None => Fails (GuiValueError NoFileSelected)
  | _, _ =>
      Fine (match shapefile f with
            | Some file => Some file
            | None => geojsonfile f
            end)
  end.

(** One use of the two buttons of the frame. *)
Inductive file_action :=
| OpenShapefile (file_path : string) (read : outcome (GeoDataFrame Geometry))
| OpenGeojson (file_path : string) (read : outcome (GeoDataFrame Geometry)).

(** The frame after an action; an exception that leaves the method leaves
    the frame as it was. *)
Definition after_action (f : ShapefileEntryFrame) (a : file_action)
  : ShapefileEntryFrame :=
  match (match a with
         | OpenShapefile file_path read => open_shapefile file_path read f
         | OpenGeojson file_path read => open_geojsonfile file_path read f
         end) with
  | Fine f' => f'
  | Fails _ => f
  end.

Definition after_actions (actions : list file_action) : ShapefileEntryFrame :=
  fold_left after_action actions files_init.

(** What every use of the two buttons keeps. *)
Definition files_invariant (f : ShapefileEntryFrame) : Prop :=
  (shapefile f = None ∨ geojsonfile f = None)
  ∧ (∀ file, shapefile f = Some file → crs file = Some crs_file)
  ∧ (∀ file, geojsonfile f = Some file → crs file = Some crs_file).

(** [PathDownloadFrame]: the attribute [save_dir] of the master, which
    exists only once [directory()] has run, and the label. *)
Record PathDownloadFrame := mkPath {
  save_dir : option string;
  entry_path : string;
  error_boxes : nat          (* messagebox.showerror calls *)
}.

Definition path_init : PathDownloadFrame := mkPath None "Папка не выбрана" 0.

(** [directory()]: [files_save] is what [filedialog.askdirectory()]
    answered. *)
Definition directory (files_save : string) (p : PathDownloadFrame)
  : PathDownloadFrame :=
  if Nat.eqb (String.length files_save) 0
  then mkPath (Some files_save) (entry_path p) (S (error_boxes p))
  else mkPath (Some files_save) files_save (error_boxes p).

(** [get_selected_directory()]: reading an attribute that was never
    assigned raises [AttributeError]. *)
Definition get_selected_directory (p : PathDownloadFrame)
  : gui_outcome string :=
  match save_dir p with
  | Some d => Fine d
  | None => Fails (Other AttributeError)
  end.

(** What [button_callback] reads from the other widgets: the two entries of
    the login frame, the two dates as [strftime("%Y-%m-%d")] prints them,
    and [slider_entry_frame.progress]. *)
Record Inputs := mkInputs {
  entry_name : string;
  entry_pass : string;
  date_first : string;
  date_second : string;
  progress : Z;
  files : ShapefileEntryFrame;
  path : PathDownloadFrame
}.

(** How [button_callback] ends: with the line it printed itself, after the
    lines of the code it called, or with an exception that passed both of
    its handlers.  [CoreOutOfFuel] is the model's answer when the loop of
    the core uses up its bound, which it never does. *)
Inductive callback_result :=
| Printed (line : gui_message)
| Escaped (e : gui_exn)
| CoreOutOfFuel.

(** The two handlers of [button_callback], [except ValueError] and [except
    Exception]. *)
Definition handle (e : gui_exn) : callback_result :=
  if is_value_error e then Printed (ErrorLine e)
  else if is_gui_Exception e then Printed (UnexpectedLine e)
  else Escaped e.

Context {W : Type} `{Collaborators W}.
Context (total_bounds : GeoDataFrame Geometry → Z * Z * Z * Z).

(** [button_callback()].  [read_grid] is what [gpd.read_file] does with the
    grid file of the package.  The checks come in the order of the source;
    the call of [download_landsat_images] passes no [verified_tiles], so the
    default [[]] applies. *)
Definition button_callback (ui : Inputs)
    (read_grid : outcome (GeoDataFrame Geometry)) (st : state W)
  : callback_result * state W :=
  let dataset := "landsat_ot_c2_l2" in
  let landsat_username := entry_name ui in
  if Nat.eqb (String.length landsat_username) 0
  then (handle (GuiValueError NoUsername), st)
  else
  let landsat_password := entry_pass ui in
  if Nat.eqb (String.length landsat_password) 0
  then (handle (GuiValueError NoPassword), st)
  else
  let cloud_percent := progress ui in
  match get_shapefile (files ui) with
  | Fails e => (handle e, st)
  | Fine None => (handle (GuiValueError ShapefileNotChosen), st)
  | Fine (Some shapefile) =>
      match get_selected_directory (path ui) with
      | Fails e => (handle e, st)
      | Fine dir_download =>
          if Nat.eqb (String.length dir_download) 0
          then (handle (GuiValueError NoDirectory), st)
          else
          let footprint := total_bounds shapefile in
          match read_grid with
          | Err e => (handle (Other e), st)
          | Ok grid =>
              let query_parameters :=
                mkQuery dataset footprint (date_first ui) (date_second ui)
                        cloud_percent in
              match download_landsat_images landsat_username landsat_password
                      query_parameters grid shapefile dir_download [] st with
              | (Returned _, st') => (Printed AllDownloaded, st')
              | (Raised e, st') => (handle (Other e), st')
              | (OutOfFuel, st') => (CoreOutOfFuel, st')
              end
          end
      end
  end.

(** Every input of [button_callback] is there. *)
Definition complete (ui : Inputs) : bool :=
  negb (Nat.eqb (String.length (entry_name ui)) 0)
  && negb (Nat.eqb (String.length (entry_pass ui)) 0)
  && (bool_decide (is_Some (shapefile (files ui)))
      || bool_decide (is_Some (geojsonfile (files ui))))
  && match save_dir (path ui) with
     | Some d => negb (Nat.eqb (String.length d) 0)
     | None => false
     end.

End Frames.

Arguments ShapefileEntryFrame Geometry : clear implicits.
Arguments file_action Geometry : clear implicits.
Arguments Inputs Geometry : clear implicits.

End Gui.

(** ** Further concrete inputs *)

Module Scenario.

(** The concrete world with a storage that fails: the listing of the
    download directory raises when [listing_fails], and every removal raises
    when [removal_fails]; everything else is as in [Sim.collaborators]. *)
Definition faulty_storage (c : Sim.config) (listing_fails removal_fails : bool)
  : Collaborators Sim.world := {|
  api_login := api_login (Collaborators := Sim.collaborators c);
  api_search := api_search (Collaborators := Sim.collaborators c);
  api_logout := api_logout (Collaborators := Sim.collaborators c);
  ee_login := ee_login (Collaborators := Sim.collaborators c);
  ee_get_fileinfo := ee_get_fileinfo (Collaborators := Sim.collaborators c);
  ee_download := ee_download (Collaborators := Sim.collaborators c);
  os_listdir := λ dir w,
    if listing_fails then (Err OSError, w)
    else os_listdir (Collaborators := Sim.collaborators c) dir w;
  os_remove := λ path w,
    if removal_fails then (Err OSError, w)
    else os_remove (Collaborators := Sim.collaborators c) path w;
  tar_extractall := tar_extractall (Collaborators := Sim.collaborators c)
|}.

(** The concrete world in which the user interrupts every download:
    [ee.download] raises [KeyboardInterrupt]; everything else is as in
    [Sim.collaborators]. *)
Definition interrupted_download (c : Sim.config) : Collaborators Sim.world := {|
  api_login := api_login (Collaborators := Sim.collaborators c);
  api_search := api_search (Collaborators := Sim.collaborators c);
  api_logout := api_logout (Collaborators := Sim.collaborators c);
  ee_login := ee_login (Collaborators := Sim.collaborators c);
  ee_get_fileinfo := ee_get_fileinfo (Collaborators := Sim.collaborators c);
  ee_download := λ _ _ _ w, (Err KeyboardInterrupt, w);
  os_listdir := os_listdir (Collaborators := Sim.collaborators c);
  os_remove := os_remove (Collaborators := Sim.collaborators c);
  tar_extractall := tar_extractall (Collaborators := Sim.collaborators c)
|}.

(** The login to the download service fails; everything else works. *)
Definition ee_login_fails : Sim.config :=
  Sim.mkConfig true (Ok [Sim.sceneA; Sim.sceneB]) false (λ _, Some 1000%Z) [] [].

Definition idA : string := display_id Sim.sceneA.
Definition idB : string := display_id Sim.sceneB.
Definition idD : string := display_id Sim.sceneD.

(** The rows of the table for the work list [A; B]. *)
Definition data_AB : list (string * status) :=
  [(idA, needs_download); (idB, needs_download)].

(** The bounding box the geometry library answers for every file. *)
Definition total_bounds (file : GeoDataFrame Sim.Geometry) : Z * Z * Z * Z :=
  (23, 51, 32, 56)%Z.

(** [Sim.area1] as the interface loads it, in [epsg:4326]. *)
Definition area1_loaded : GeoDataFrame Sim.Geometry :=
  mkFrame (Some Gui.crs_file) (features Sim.area1).

(** The interface with the shapefile [Sim.area1] loaded and everything
    filled in but the download directory. *)
Definition files_loaded : Gui.ShapefileEntryFrame Sim.Geometry :=
  Gui.after_actions [Gui.OpenShapefile "/home/user/aoi.shp" (Ok Sim.area1)].

Definition inputs (path : Gui.PathDownloadFrame) : Gui.Inputs Sim.Geometry :=
  Gui.mkInputs "user" "secret" "2024-01-01" "2024-02-01" 20%Z files_loaded path.

(** The same with the download directory chosen. *)
Definition inputs_complete : Gui.Inputs Sim.Geometry :=
  inputs (Gui.directory "/data" Gui.path_init).

(** Nothing filled in. *)
Definition inputs_empty : Gui.Inputs Sim.Geometry :=
  Gui.mkInputs EmptyString EmptyString "2024-01-01" "2024-02-01" 0%Z
    Gui.files_init Gui.path_init.

(** One click on the download button in the concrete world. *)
Definition click (c : Sim.config) (ui : Gui.Inputs Sim.Geometry)
    (read_grid : outcome (GeoDataFrame Sim.Geometry))
  : Gui.callback_result * state Sim.world :=
  Gui.button_callback (H0 := Sim.collaborators c) total_bounds ui read_grid
    (Sim.initial []).

(** One run with the failing storage. *)
Definition run_faulty (c : Sim.config) (listing_fails removal_fails : bool)
    (paths : list string) : result (list string) * state Sim.world :=
  download_landsat_images (H := faulty_storage c listing_fails removal_fails)
    "user" "secret" Sim.qp Sim.grid Sim.area1 "/data" [] (Sim.initial paths).

End Scenario.

(** * Properties *)

(** ** Strings *)

Section Strings.

Lemma take_drop_substring (n m : nat) (s : string) :
  PyStr.take m (PyStr.drop n s) = substring n m s.
Proof.
  revert m s. induction n as [|n IHn]; intros m s.
  - revert s. induction m as [|m IHm]; intros [|c s]; simpl; try done.
    by rewrite <- IHm.
  - destruct s as [|c s]; simpl.
    + by destruct m.
    + apply IHn.
Qed.

Lemma tile_code_substring (id : string) : tile_code id = substring 10 6 id.
Proof. apply (take_drop_substring 10 6). Qed.

(** The characters of the tile code are those at positions 10 to 15. *)
Lemma tile_code_get (id : string) (i : nat) :
  i < 6 → String.get i (tile_code id) = String.get (10 + i) id.
Proof.
  intros Hi. rewrite tile_code_substring.
  do 10 (destruct id as [|? id]; [by do 6 (destruct i as [|i]; try done)|]).
  change (substring 10 6 _) with (substring 0 6 id).
  change (String.get (10 + i) _) with (String.get i id).
  do 6 (destruct i as [|i]; [by do 6 (destruct id as [|? id]; try done)|]).
  lia.
Qed.

Lemma replace_underscore_cons (c : ascii) (s : string) :
  PyStr.replace "_" "0" (String c s)
  = String (PyStr.zero_for_underscore c) (PyStr.replace "_" "0" s).
Proof.
  unfold PyStr.zero_for_underscore. cbn [PyStr.replace].
  by destruct (Ascii.eqb c "_").
Qed.

Lemma replace_underscore_length (s : string) :
  String.length (PyStr.replace "_" "0" s) = String.length s.
Proof.
  induction s as [|c s IH]; [done|].
  rewrite replace_underscore_cons. simpl. by rewrite IH.
Qed.

Lemma replace_underscore_get (s : string) (i : nat) :
  String.get i (PyStr.replace "_" "0" s)
  = PyStr.zero_for_underscore <$> String.get i s.
Proof.
  revert i. induction s as [|c s IH]; intros i; [done|].
  rewrite replace_underscore_cons. destruct i as [|i]; simpl; [done|apply IH].
Qed.

Lemma py_in_elem_of (x : string) (l : list string) :
  py_in x l = true ↔ x ∈ l.
Proof.
  unfold py_in. rewrite existsb_exists. split.
  - intros (y & Hy & Heq). apply String.eqb_eq in Heq. subst.
    by apply list_elem_of_In.
  - intros Hx. exists x. split; [by apply list_elem_of_In|apply String.eqb_refl].
Qed.

End Strings.

(** ** GridIntersector *)

Section GridIntersectorProperties.
Context {Geometry : Type} `{GeometryLib Geometry}.

Lemma iterrows_loop_filter (rows : list (Feature Geometry)) (area : Geometry)
    (selected : list string) :
  iterrows_loop rows area selected
  = selected
    ++ (tile_id <$> filter (λ row, intersects (geometry row) area = true) rows).
Proof.
  revert selected. induction rows as [|row rows IH]; intros selected; simpl.
  - by rewrite app_nil_r.
  - rewrite filter_cons. destruct (intersects (geometry row) area) eqn:Hrow.
    + rewrite decide_True by done. rewrite IH, <- app_assoc. done.
    + rewrite decide_False by done. apply IH.
Qed.

Lemma get_tile_list_filter (grid shp : GeoDataFrame Geometry) :
  get_tile_list grid shp
  = match unioned_area grid shp with
    | Ok area =>
        Ok (tile_id <$> filter (λ row, intersects (geometry row) area = true)
                               (features grid))
    | Err e => Err e
    end.
Proof.
  unfold get_tile_list, unioned_area.
  destruct (aligned grid shp) as [shp'|e]; [|done].
  by rewrite iterrows_loop_filter.
Qed.

(** The area is reprojected exactly when its coordinate system is not that
    of the grid, and the reprojection raises exactly when one of the two is
    missing. *)
Lemma aligned_paths (grid shp : GeoDataFrame Geometry) :
  aligned grid shp
  = match crs shp, crs grid with
    | Some src, Some dst =>
        if bool_decide (src = dst) then Ok shp
        else Ok (mkFrame (Some dst)
                   (map (λ r, mkFeature (Name r) (to_crs src dst (geometry r)))
                        (features shp)))
    | None, None => Ok shp
    | _, _ => Err ValueError
    end.
Proof.
  unfold aligned, frame_to_crs.
  destruct (crs shp) as [src|], (crs grid) as [dst|]; try done.
  repeat case_bool_decide; congruence.
Qed.

Lemma aligned_features_nil (grid shp shp' : GeoDataFrame Geometry) :
  features shp = [] → aligned grid shp = Ok shp' → features shp' = [].
Proof.
  intros Hshp. rewrite aligned_paths.
  destruct (crs shp) as [src|], (crs grid) as [dst|]; try done.
  - case_bool_decide; intros [= <-]; [done|]. simpl. by rewrite Hshp.
  - by intros [= <-].
Qed.

(** What [get_tile_list] raises is the [ValueError] of [to_crs], for a
    coordinate system that is missing on one side only. *)
Lemma get_tile_list_raises (grid shp : GeoDataFrame Geometry) (e : exn) :
  get_tile_list grid shp = Err e →
  e = ValueError ∧ crs shp ≠ crs grid ∧ (crs shp = None ∨ crs grid = None).
Proof.
  unfold get_tile_list. rewrite aligned_paths.
  destruct (crs shp) as [src|], (crs grid) as [dst|]; try done.
  - by case_bool_decide.
  - intros [= <-]. split_and!; [done|done|by right].
  - intros [= <-]. split_and!; [done|done|by left].
Qed.

(** C9, as amended.  The identifiers [get_tile_list] returns are, in grid
    order, those of the cells whose geometry intersects the unioned area, and
    the identifier of a cell is its raw name with every underscore replaced
    by the digit zero and every other character unchanged: same length, and
    at each position the character of the name, or ["0"] where the name has
    ["_"].  So the raw name ["123_045"] becomes ["1230045"], and it is the
    raw name ["123_45"] that becomes ["123045"]. *)
Theorem tile_id_replaces_underscores (grid shp : GeoDataFrame Geometry) :
  get_tile_list grid shp
  = match unioned_area grid shp with
    | Ok area =>
        Ok (tile_id <$> filter (λ row, intersects (geometry row) area = true)
                               (features grid))
    | Err e => Err e
    end
  ∧ (∀ (cell : Feature Geometry) (i : nat),
       String.length (tile_id cell) = String.length (Name cell)
       ∧ String.get i (tile_id cell)
         = PyStr.zero_for_underscore <$> String.get i (Name cell))
  ∧ (∀ g : Geometry, tile_id (mkFeature "123_045" g) = "1230045"
                     ∧ tile_id (mkFeature "123_45" g) = "123045").
Proof.
  split; [apply get_tile_list_filter|]. split.
  - intros cell i. unfold tile_id.
    split; [apply replace_underscore_length|apply replace_underscore_get].
  - intros g. by split.
Qed.

(** C8, as amended.  [get_tile_list] checks nothing about the area.  For an
    area of interest without any geometry, whose union (the empty geometry)
    intersects no cell, it returns the empty list, the value it also returns
    for an area that intersects no cell, whenever the area and the grid both
    declare a coordinate system or both declare none; when only one of them
    declares one, the reprojection raises [ValueError]. *)
Theorem get_tile_list_empty_area (grid shp : GeoDataFrame Geometry) :
  features shp = [] →
  (∀ g : Geometry, intersects g (unary_union []) = false) →
  get_tile_list grid shp
  = match crs shp, crs grid with
    | Some _, Some _ | None, None => Ok []
    | _, _ => Err ValueError
    end.
Proof.
  intros Hshp Hempty. unfold get_tile_list.
  destruct (aligned grid shp) as [shp'|e] eqn:Hal.
  - rewrite (aligned_features_nil grid shp shp' Hshp Hal). simpl.
    rewrite iterrows_loop_filter. simpl.
    assert (filter (λ row, intersects (geometry row) (unary_union []) = true)
                   (features grid) = []) as ->.
    { induction (features grid) as [|row rows IH]; [done|].
      rewrite filter_cons, decide_False; [apply IH|]. by rewrite Hempty. }
    rewrite aligned_paths in Hal.
    destruct (crs shp) as [src|], (crs grid) as [dst|]; done.
  - rewrite aligned_paths in Hal.
    destruct (crs shp) as [src|], (crs grid) as [dst|]; try done;
      [by case_bool_decide|congruence..].
Qed.

End GridIntersectorProperties.

Lemma sim_empty_union_intersects_nothing (g : Sim.Geometry) :
  intersects g (unary_union []) = false.
Proof. induction g as [|p g IH]; [done|apply IH]. Qed.

Lemma get_tile_list_empty_area_witness :
  get_tile_list Sim.grid Sim.empty_area = Ok []
  ∧ get_tile_list Sim.grid Sim.naive_empty_area = Err ValueError.
Proof.
  split.
  - apply (get_tile_list_empty_area Sim.grid Sim.empty_area).
    + reflexivity.
    + apply sim_empty_union_intersects_nothing.
  - apply (get_tile_list_empty_area Sim.grid Sim.naive_empty_area).
    + reflexivity.
    + apply sim_empty_union_intersects_nothing.
Defined.

(** C9, as the claim states it: its example does not hold.  In the raw name
    ["123_045"] the underscore is replaced, not dropped, and the identifier
    has seven characters. *)
Lemma tile_id_example_cex :
  tile_id (mkFeature "123_045" ([] : Sim.Geometry)) = "1230045"
  ∧ tile_id (mkFeature "123_045" ([] : Sim.Geometry)) ≠ "123045".
Proof. split; [reflexivity|discriminate]. Qed.

(** ** DownloadReconciler *)

Section Reconciler.

Lemma any_zone_elem_of (code : string) (zones : list string) :
  existsb (λ zone, String.eqb zone code) zones = true ↔ code ∈ zones.
Proof.
  rewrite existsb_exists. split.
  - intros (zone & Hzone & Heq). apply String.eqb_eq in Heq. subst.
    by apply list_elem_of_In.
  - intros Hin. exists code. split; [by apply list_elem_of_In|].
    apply String.eqb_refl.
Qed.

(** C3.  The work list is the scene list, in its order, restricted to the
    scenes whose tile code (the substring of the display identifier at offset
    10, of length 6) is among the intersecting cells and whose display
    identifier is not among the verified ones; every item starts with status
    [needs_download]. *)
Theorem data_for_table_filter (scenes : list Scene) (zones : list string)
    (verified_tiles : list string) :
  data_for_table scenes zones (list_to_set verified_tiles)
  = (λ t, (display_id t, needs_download))
      <$> filter (λ t, substring 10 6 (display_id t) ∈ zones
                       ∧ display_id t ∉ verified_tiles) scenes.
Proof.
  induction scenes as [|t scenes IH]; [done|].
  cbn [data_for_table]. rewrite filter_cons, tile_code_substring.
  destruct (existsb _ zones) eqn:Hzone.
  - apply any_zone_elem_of in Hzone. case_bool_decide as Hver.
    + rewrite elem_of_list_to_set in Hver.
      rewrite decide_True by done. by rewrite fmap_cons, IH.
    + rewrite elem_of_list_to_set in Hver.
      rewrite decide_False by tauto. done.
  - rewrite decide_False; [done|].
    intros [Hin _]. apply any_zone_elem_of in Hin. congruence.
Qed.

(** The work list keeps the scan order of the scenes. *)
Lemma data_for_table_sublist (scenes : list Scene) (zones : list string)
    (verified_tiles : list string) :
  titles_of (data_for_table scenes zones (list_to_set verified_tiles))
    `sublist_of` (display_id <$> scenes).
Proof.
  induction scenes as [|t scenes IH]; [done|].
  cbn [data_for_table]. rewrite fmap_cons.
  destruct (existsb _ zones); [case_bool_decide|]; try by apply sublist_cons.
  by apply sublist_skip.
Qed.

End Reconciler.

(** ** CatalogClient *)

(** Unfolds the monad down to functions on states. *)
Ltac run_monad :=
  unfold landsat_search, landsat_explorer_login, earth_explorer_login,
    on_api, on_ee, bind, try_except, try_except_Exception, call, print, log,
    ret, raise; simpl.

(** Closes [∀ u p, ev u p ∉ l] for an explicit list [l] without such an
    event. *)
Ltac not_in_explicit_list :=
  let Hin := fresh "Hin" in
  let Heq := fresh "Heq" in
  intros ? ? Hin;
  repeat (apply elem_of_cons in Hin as [Heq|Hin]; [discriminate Heq|]);
  by apply elem_of_nil in Hin.

Section CatalogClient.
Context {W : Type} `{Collaborators W}.

(** The paths of [landsat_search], by what the catalog does.  A login that
    raises an [Exception] is reported by [landsat_explorer_login], and the
    search on the [None] it returns raises [AttributeError]; any other
    exception of the login reaches the handler of [landsat_search]
    directly. *)
Lemma landsat_search_paths (username password : string) (qp : QueryParameters)
    (st : state W) :
  landsat_search username password qp st
  = match api_login username password (world st) with
    | (Err e, w1) =>
        (Returned None,
         mkState w1
           (trace st
            ++ (if is_Exception e
                then [EvApiLogin username password;
                      EvPrint (MsgApiLoginError e); EvPrint MsgCannotBeDone]
                else [EvApiLogin username password; EvPrint MsgCannotBeDone]))
           (table st))
    | (Ok _, w1) =>
        match api_search qp w1 with
        | (Err e, w2) =>
            (Returned None,
             mkState w2 (trace st ++ [EvApiLogin username password;
                                      EvPrint MsgApiConnected;
                                      EvApiSearch qp;
                                      EvPrint MsgCannotBeDone]) (table st))
        | (Ok scenes, w2) =>
            match api_logout w2 with
            | (Err e, w3) =>
                (Returned None,
                 mkState w3 (trace st ++ [EvApiLogin username password;
                                          EvPrint MsgApiConnected;
                                          EvApiSearch qp; EvApiLogout;
                                          EvPrint MsgCannotBeDone]) (table st))
            | (Ok _, w3) =>
                match scenes with
                | [] =>
                    (Returned None,
                     mkState w3 (trace st ++ [EvApiLogin username password;
                                              EvPrint MsgApiConnected;
                                              EvApiSearch qp; EvApiLogout;
                                              EvPrint MsgNoProductFound])
                             (table st))
                | _ :: _ =>
                    (Returned (Some scenes),
                     mkState w3 (trace st ++ [EvApiLogin username password;
                                              EvPrint MsgApiConnected;
                                              EvApiSearch qp; EvApiLogout;
                                              EvPrint (MsgScenesFound
                                                         (length scenes))])
                             (table st))
                end
            end
        end
    end.
Proof.
  run_monad.
  destruct (api_login username password (world st)) as [[[]|e] w1]; simpl;
    [|destruct (is_Exception e); simpl; by rewrite <- !app_assoc].
  destruct (api_search qp w1) as [[scenes|e] w2]; simpl;
    [|by rewrite <- !app_assoc].
  destruct (api_logout w2) as [[[]|e] w3]; simpl;
    [|by rewrite <- !app_assoc].
  destruct scenes as [|scene scenes]; simpl; by rewrite <- !app_assoc.
Qed.

(** [landsat_search] always returns, and what it adds to the trace is no
    call to the download service. *)
Lemma landsat_search_trace (username password : string) (qp : QueryParameters)
    (st : state W) :
  ∃ (query : option (list Scene)) (st1 : state W) (evs : list event),
    landsat_search username password qp st = (Returned query, st1)
    ∧ trace st1 = trace st ++ evs
    ∧ table st1 = table st
    ∧ ∀ u p, EvEELogin u p ∉ evs.
Proof.
  rewrite landsat_search_paths.
  destruct (api_login username password (world st)) as [[[]|e] w1].
  2: { destruct (is_Exception e); eexists _, _, _;
         (split_and!; [done..|]); not_in_explicit_list. }
  destruct (api_search qp w1) as [[scenes|e] w2].
  2: { eexists _, _, _. split_and!; [done..|]. not_in_explicit_list. }
  destruct (api_logout w2) as [[[]|e] w3].
  2: { eexists _, _, _. split_and!; [done..|]. not_in_explicit_list. }
  destruct scenes as [|scene scenes].
  all: eexists _, _, _; split_and!; [done..|]; not_in_explicit_list.
Qed.

(** On the path where the search returns, the logout is made. *)
Lemma landsat_search_logs_out_after_search (username password : string)
    (qp : QueryParameters) (st : state W) (w1 w2 : W) (scenes : list Scene) :
  api_login username password (world st) = (Ok tt, w1) →
  api_search qp w1 = (Ok scenes, w2) →
  EvApiLogout ∈ trace (landsat_search username password qp st).2.
Proof.
  intros Hlogin Hsearch. rewrite landsat_search_paths, Hlogin, Hsearch.
  destruct (api_logout w2) as [[[]|e] w3]; [destruct scenes|]; simpl.
  all: apply elem_of_app; right.
  all: do 3 apply list_elem_of_further; apply list_elem_of_here.
Qed.

(** C6 fails on the code.  When the login succeeds and the search raises,
    control goes to the handler of [landsat_search]: it prints, returns
    [None], and the world is the one the failed search left.  The call
    [api.logout()] stands after the search inside the [try], so it is not
    made: there is no logout among the events of the call. *)
Theorem no_logout_when_search_raises (username password : string)
    (qp : QueryParameters) (st : state W) (w1 w2 : W) (e : exn) :
  api_login username password (world st) = (Ok tt, w1) →
  api_search qp w1 = (Err e, w2) →
  ∃ evs : list event,
    landsat_search username password qp st
    = (Returned None, mkState w2 (trace st ++ evs) (table st))
    ∧ evs = [EvApiLogin username password; EvPrint MsgApiConnected;
             EvApiSearch qp; EvPrint MsgCannotBeDone]
    ∧ EvApiLogout ∉ evs.
Proof.
  intros Hlogin Hsearch. eexists. split_and!; [|reflexivity|].
  - by rewrite landsat_search_paths, Hlogin, Hsearch.
  - intros Hin.
    repeat (apply elem_of_cons in Hin as [Heq|Hin]; [discriminate Heq|]).
    by apply elem_of_nil in Hin.
Qed.

(** When the search completes with zero records, [landsat_search] returns
    [None] as well, after a message of its own. *)
Lemma landsat_search_zero_records (username password : string)
    (qp : QueryParameters) (st : state W) (w1 w2 w3 : W) :
  api_login username password (world st) = (Ok tt, w1) →
  api_search qp w1 = (Ok [], w2) →
  api_logout w2 = (Ok tt, w3) →
  landsat_search username password qp st
  = (Returned None,
     mkState w3 (trace st ++ [EvApiLogin username password;
                              EvPrint MsgApiConnected; EvApiSearch qp;
                              EvApiLogout; EvPrint MsgNoProductFound])
             (table st)).
Proof.
  intros Hlogin Hsearch Hlogout.
  by rewrite landsat_search_paths, Hlogin, Hsearch, Hlogout.
Qed.

End CatalogClient.

(** ** The monad: termination and results *)

Section TerminatesWith.
Context {W : Type}.

Lemma tw_ret {A} (a : A) (Q : A → Prop) :
  Q a → terminates_with (W:=W) (ret a) Q.
Proof. intros Ha st. done. Qed.

Lemma tw_raise {A} (e : exn) (Q : A → Prop) :
  terminates_with (W:=W) (raise e) Q.
Proof. intros st. done. Qed.

Lemma tw_log (ev : event) (Q : unit → Prop) :
  Q tt → terminates_with (W:=W) (log ev) Q.
Proof. intros Ha st. done. Qed.

Lemma tw_call {A} (ev : event) (op : W → outcome A * W) (Q : A → Prop) :
  (∀ a, Q a) → terminates_with (call ev op) Q.
Proof.
  intros HQ st. unfold call.
  destruct (op (world st)) as [[a|e] w]; simpl; [apply HQ|done].
Qed.

Lemma tw_bind {A B} (m : M (W:=W) A) (k : A → M B) (P : A → Prop)
    (Q : B → Prop) :
  terminates_with m P →
  (∀ a, P a → terminates_with (k a) Q) →
  terminates_with (bind m k) Q.
Proof.
  intros Hm Hk st. unfold bind. specialize (Hm st).
  destruct (m st) as [[a|e|] st']; simpl in *; [|done..].
  apply (Hk a Hm st').
Qed.

Lemma tw_try {A} (m : M (W:=W) A) (h : exn → M A) (Q : A → Prop) :
  terminates_with m Q →
  (∀ e, terminates_with (h e) Q) →
  terminates_with (try_except m h) Q.
Proof.
  intros Hm Hh st. unfold try_except. specialize (Hm st).
  destruct (m st) as [[a|e|] st']; simpl in *; [done| |done].
  apply (Hh e st').
Qed.

Lemma tw_try_Exception {A} (m : M (W:=W) A) (h : exn → M A) (Q : A → Prop) :
  terminates_with m Q →
  (∀ e, terminates_with (h e) Q) →
  terminates_with (try_except_Exception m h) Q.
Proof.
  intros Hm Hh st. unfold try_except_Exception. specialize (Hm st).
  destruct (m st) as [[a|e|] st']; simpl in *; [done| |done].
  destruct (is_Exception e); [apply (Hh e st')|done].
Qed.

Lemma tw_of_outcome {A} (o : outcome A) (Q : A → Prop) :
  (∀ a, o = Ok a → Q a) → terminates_with (W:=W) (of_outcome o) Q.
Proof. intros HQ st. destruct o as [a|e]; simpl; [by apply HQ|done]. Qed.

Lemma tw_weaken {A} (m : M (W:=W) A) (P Q : A → Prop) :
  terminates_with m P → (∀ a, P a → Q a) → terminates_with m Q.
Proof.
  intros Hm HPQ st. specialize (Hm st).
  destruct (m st) as [[a|e|] st']; simpl in *; auto.
Qed.

Lemma bind_returned {A B} (m : M (W:=W) A) (k : A → M B) st a st' :
  m st = (Returned a, st') → bind m k st = k a st'.
Proof. intros Hm. unfold bind. by rewrite Hm. Qed.

Lemma bind_raised {A B} (m : M (W:=W) A) (k : A → M B) st e st' :
  m st = (Raised e, st') → bind m k st = (Raised e, st').
Proof. intros Hm. unfold bind. by rewrite Hm. Qed.

Lemma bind_of_outcome_ok {A B} (a : A) (k : A → M (W:=W) B) st :
  bind (of_outcome (Ok a)) k st = k a st.
Proof. done. Qed.

Lemma bind_log {B} (ev : event) (k : unit → M (W:=W) B) st :
  bind (log ev) k st = k tt (mkState (world st) (trace st ++ [ev]) (table st)).
Proof. done. Qed.

Lemma tg_ret {A} (a : A) : trace_grows (W:=W) (ret a).
Proof. intros st. done. Qed.

Lemma tg_raise {A} (e : exn) : trace_grows (W:=W) (A:=A) (raise e).
Proof. intros st. done. Qed.

Lemma tg_log (ev : event) : trace_grows (W:=W) (log ev).
Proof. intros st. simpl. by apply prefix_app_r. Qed.

Lemma tg_call {A} (ev : event) (op : W → outcome A * W) :
  trace_grows (call ev op).
Proof.
  intros st. unfold call.
  destruct (op (world st)) as [[a|e] w]; simpl; by apply prefix_app_r.
Qed.

Lemma tg_bind {A B} (m : M (W:=W) A) (k : A → M B) :
  trace_grows m → (∀ a, trace_grows (k a)) → trace_grows (bind m k).
Proof.
  intros Hm Hk st. unfold bind. specialize (Hm st).
  destruct (m st) as [[a|e|] st']; simpl in *; [|done..].
  etrans; [exact Hm|apply Hk].
Qed.

Lemma tg_try {A} (m : M (W:=W) A) (h : exn → M A) :
  trace_grows m → (∀ e, trace_grows (h e)) → trace_grows (try_except m h).
Proof.
  intros Hm Hh st. unfold try_except. specialize (Hm st).
  destruct (m st) as [[a|e|] st']; simpl in *; [done| |done].
  etrans; [exact Hm|apply Hh].
Qed.

Lemma tg_try_Exception {A} (m : M (W:=W) A) (h : exn → M A) :
  trace_grows m → (∀ e, trace_grows (h e)) →
  trace_grows (try_except_Exception m h).
Proof.
  intros Hm Hh st. unfold try_except_Exception. specialize (Hm st).
  destruct (m st) as [[a|e|] st']; simpl in *; [done| |done].
  destruct (is_Exception e); [|done]. etrans; [exact Hm|apply Hh].
Qed.

(** What follows a call in a sequence leaves the record of the call in
    place. *)
Lemma bind_call_prefix {A B} (ev : event) (op : W → outcome A * W)
    (k : A → M B) st :
  (∀ a, trace_grows (k a)) →
  (trace st ++ [ev]) `prefix_of` trace (bind (call ev op) k st).2.
Proof.
  intros Hk. unfold bind, call.
  destruct (op (world st)) as [[a|e] w]; simpl; [|done].
  apply (Hk a (mkState w (trace st ++ [ev]) (table st))).
Qed.

End TerminatesWith.

(** ** DownloadWorker *)

(** One statement of a sequence whose value is not constrained. *)
Tactic Notation "tw_seq" tactic3(tac) :=
  eapply tw_bind with (P := λ _, True); [tac|intros _ _].

Section DownloadWorker.
Context {W : Type} `{Collaborators W}.

Lemma tw_set_status (data : list (string * status)) (title : string)
    (st : status) :
  terminates_with (W:=W) (set_status data title st) (λ _, True).
Proof. intros s. unfold set_status. by destruct (find_row data title 0). Qed.

Lemma tw_on_ee {A} (ee : option EarthExplorer) (m : M (W:=W) A)
    (Q : A → Prop) :
  terminates_with m Q → terminates_with (on_ee ee m) Q.
Proof. destruct ee; [done|]. intros _. apply tw_raise. Qed.

Lemma tw_probe_loop (ee : option EarthExplorer) (product_id dir : string)
    (ids : list string) (file_size : option Z) :
  terminates_with (W:=W) (probe_loop ee product_id dir ids file_size)
    (λ _, True).
Proof.
  induction ids as [|dataset_id ids IH]; simpl; [by apply tw_ret|].
  eapply tw_bind with (P := λ _, True).
  - apply tw_try; [|intros e; by apply tw_ret].
    eapply tw_bind with (P := λ _, True).
    + apply tw_on_ee, tw_call. done.
    + intros info _. by apply tw_ret.
  - intros [[filename size]|] _; [by apply tw_ret|apply IH].
Qed.

Lemma tw_download_and_extract (ee : option EarthExplorer) (query : list Scene)
    (qp : QueryParameters) (dir : string) (data : list (string * status))
    (title archive_name : string) :
  terminates_with (W:=W)
    (download_and_extract ee query qp dir data title archive_name)
    (λ _, True).
Proof.
  unfold download_and_extract.
  eapply tw_bind with (P := λ _, True).
  { destruct (next_product query title); [by apply tw_ret|apply tw_raise]. }
  intros product _.
  eapply tw_bind with (P := λ _, True); [apply tw_probe_loop|intros size _].
  tw_seq (by apply tw_log).
  tw_seq (apply tw_set_status).
  tw_seq (by apply tw_log).
  tw_seq (by apply tw_on_ee, tw_call).
  tw_seq (by apply tw_log).
  tw_seq (apply tw_set_status).
  tw_seq (by apply tw_call).
  tw_seq (by apply tw_call).
  apply tw_set_status.
Qed.

(** *** The metadata probe *)





(** *** The trace only grows *)

Lemma set_status_run (data : list (string * status)) (title : string)
    (s : status) (st : state W) :
  ∃ tbl, set_status data title s st
         = (Returned tt,
            mkState (world st) (trace st ++ status_events data title s) tbl).
Proof.
  unfold set_status, status_events. destruct (find_row data title 0).
  - by eexists.
  - exists (table st). destruct st as [w tr tbl]. unfold ret. simpl.
    by rewrite app_nil_r.
Qed.

Lemma tg_set_status (data : list (string * status)) (title : string)
    (s : status) :
  trace_grows (W:=W) (set_status data title s).
Proof.
  intros st. destruct (set_status_run data title s st) as [tbl ->].
  simpl. by apply prefix_app_r.
Qed.

(** *** Removal during the iteration *)

(** Removing the element the iterator stands on, when it has no earlier
    copy, deletes position [i]. *)
Lemma py_list_remove_at (titles : list string) (i : nat) (title : string) :
  titles !! i = Some title →
  (∀ j, j < i → titles !! j ≠ Some title) →
  py_list_remove title titles = Some (delete i titles).
Proof.
  revert i. induction titles as [|t titles IH]; intros i Hi Hfirst; [done|].
  destruct i as [|i]; simpl in *.
  - injection Hi as ->. by rewrite String.eqb_refl.
  - destruct (String.eqb t title) eqn:Heq.
    + apply String.eqb_eq in Heq. subst. by destruct (Hfirst 0); [lia|].
    + rewrite (IH i); [done|done|].
      intros j Hj. apply (Hfirst (S j)). lia.
Qed.

(** So the element that followed it takes position [i], which the iterator
    has left, and the next element the iterator yields, at position [S i],
    is the one that was at position [S (S i)]: one element is passed over. *)
Lemma iterator_passes_over_next (titles : list string) (i : nat)
    (title : string) :
  titles !! i = Some title →
  (∀ j, j < i → titles !! j ≠ Some title) →
  ∃ titles', py_list_remove title titles = Some titles'
             ∧ titles' !! i = titles !! S i
             ∧ titles' !! S i = titles !! S (S i).
Proof.
  intros Hi Hfirst. exists (delete i titles).
  split; [by apply py_list_remove_at|].
  split; rewrite list_lookup_delete_ge by lia; done.
Qed.

(** *** Without a session of the download service *)


Lemma py_list_remove_length (title : string) (titles titles' : list string) :
  py_list_remove title titles = Some titles' →
  S (length titles') = length titles.
Proof.
  revert titles'. induction titles as [|t titles IH]; intros titles'; [done|].
  simpl. destruct (String.eqb t title).
  - by intros [= ->].
  - destruct (py_list_remove title titles) as [rest|]; [|done].
    intros [= <-]. simpl. by rewrite (IH rest).
Qed.

(** The body of the loop never makes the list longer. *)
Lemma tw_process_title (ee : option EarthExplorer) (query : list Scene)
    (qp : QueryParameters) (dir : string) (data : list (string * status))
    (title : string) (titles : list string) :
  terminates_with (W:=W) (process_title ee query qp dir data title titles)
    (λ titles', length titles' ≤ length titles).
Proof.
  unfold process_title.
  eapply tw_bind with (P := λ _, True); [by apply tw_call|intros names _].
  destruct (py_in title names).
  { tw_seq (by apply tw_log).
    tw_seq (apply tw_set_status).
    by apply tw_ret. }
  eapply tw_bind with (P := λ _, True); [by apply tw_call|intros names' _].
  eapply tw_bind with (P := λ _, True).
  { destruct (py_in _ names'); [by apply tw_call|by apply tw_ret]. }
  intros _ _.
  tw_seq (by apply tw_log).
  apply tw_try_Exception.
  - tw_seq (apply tw_download_and_extract).
    by apply tw_ret.
  - intros e.
    tw_seq (by apply tw_log).
    eapply tw_bind with (P := λ titles', length titles' ≤ length titles).
    + destruct (py_list_remove title titles) as [titles'|] eqn:Hrm;
        [|apply tw_raise].
      apply tw_ret. apply py_list_remove_length in Hrm. lia.
    + intros titles' Hlen.
      tw_seq (apply tw_set_status).
      by apply tw_ret.
Qed.

(** The loop over the titles ends: [length titles - i] steps are enough, so
    the bound [length titles] the orchestration starts it with, at index
    [0], is never used up. *)
Lemma titles_loop_fuel (fuel : nat) (ee : option EarthExplorer)
    (query : list Scene) (qp : QueryParameters) (dir : string)
    (data : list (string * status)) (i : nat) (titles : list string) :
  length titles - i ≤ fuel →
  terminates_with (W:=W) (titles_loop fuel ee query qp dir data i titles)
    (λ _, True).
Proof.
  revert i titles. induction fuel as [|fuel IH]; intros i titles Hfuel.
  - simpl. destruct (titles !! i) as [title|] eqn:Hi; [|by apply tw_ret].
    apply lookup_lt_Some in Hi. lia.
  - simpl. destruct (titles !! i) as [title|] eqn:Hi; [|by apply tw_ret].
    apply lookup_lt_Some in Hi.
    eapply tw_bind; [apply tw_process_title|].
    intros titles' Hlen. apply IH. simpl in Hlen. lia.
Qed.

End DownloadWorker.

Section MetadataProbe.
Context {W : Type} `{Collaborators W}.


End MetadataProbe.

(** ** The orchestration *)

Section OrchestrationProperties.
Context {W : Type} `{Collaborators W}.
Context {Geometry : Type} `{GeometryLib Geometry}.

Lemma tw_landsat_search (username password : string) (qp : QueryParameters) :
  terminates_with (W:=W) (landsat_search username password qp) (λ _, True).
Proof.
  intros st.
  destruct (landsat_search_trace username password qp st)
    as (query & st1 & evs & -> & _).
  done.
Qed.

Lemma tw_earth_explorer_login (username password : string) :
  terminates_with (W:=W) (earth_explorer_login username password) (λ _, True).
Proof.
  unfold earth_explorer_login. apply tw_try_Exception.
  - tw_seq (by apply tw_call).
    tw_seq (by apply tw_log).
    by apply tw_ret.
  - intros e.
    tw_seq (by apply tw_log).
    by apply tw_ret.
Qed.

(** The model of the orchestration is total: on every input and in every
    world it returns or raises; the bound of its loop is never used up. *)
Theorem download_landsat_images_total (username password : string)
    (qp : QueryParameters) (grid shp : GeoDataFrame Geometry) (dir : string)
    (verified_tiles : list string) :
  terminates_with (W:=W)
    (download_landsat_images username password qp grid shp dir verified_tiles)
    (λ _, True).
Proof.
  unfold download_landsat_images.
  eapply tw_bind with (P := λ _, True); [apply tw_landsat_search|].
  intros query _.
  eapply tw_bind with (P := λ _, True); [by apply tw_of_outcome|].
  intros zones _.
  tw_seq (by apply tw_log).
  destruct query as [scenes|]; [|apply tw_raise].
  tw_seq (by apply tw_log).
  destruct (titles_of _) as [|title titles] eqn:Htitles.
  { tw_seq (by apply tw_log).
    by apply tw_ret. }
  eapply tw_bind with (P := λ _, True); [done|intros _ _].
  eapply tw_bind with (P := λ _, True);
    [apply tw_earth_explorer_login|intros ee _].
  eapply tw_bind with (P := λ _, True).
  { apply titles_loop_fuel. lia. }
  intros titles' _.
  tw_seq (by apply tw_log).
  by apply tw_ret.
Qed.

(** The run up to the work list: the search, then the grid intersection,
    whose exception ends the run, then the line with the zones. *)
Lemma run_after_grid_error (username password : string) (qp : QueryParameters)
    (grid shp : GeoDataFrame Geometry) (dir : string)
    (verified_tiles : list string) (st st1 : state W)
    (query : option (list Scene)) (e : exn) :
  landsat_search username password qp st = (Returned query, st1) →
  get_tile_list grid shp = Err e →
  download_landsat_images username password qp grid shp dir verified_tiles st
  = (Raised e, st1).
Proof.
  intros Hsearch Hgrid. unfold download_landsat_images.
  rewrite (bind_returned _ _ _ _ _ Hsearch). by rewrite Hgrid.
Qed.

Lemma run_after_failed_search (username password : string)
    (qp : QueryParameters) (grid shp : GeoDataFrame Geometry) (dir : string)
    (verified_tiles : list string) (st st1 : state W) (zones : list string) :
  landsat_search username password qp st = (Returned None, st1) →
  get_tile_list grid shp = Ok zones →
  download_landsat_images username password qp grid shp dir verified_tiles st
  = (Raised TypeError,
     mkState (world st1) (trace st1 ++ [EvPrint (MsgZones zones)]) (table st1)).
Proof.
  intros Hsearch Hgrid. unfold download_landsat_images.
  rewrite (bind_returned _ _ _ _ _ Hsearch), Hgrid, bind_of_outcome_ok.
  unfold print. by rewrite bind_log.
Qed.

(** C4 fails on the code.  Take a run whose catalog search completes: the
    login, the search and the logout return, with the scenes [found], and
    the grid intersection returns.  When no scene passes the filter the work
    list is empty, and no login to the download service is among the events
    of the run.  But the run returns the empty list only when the search
    found scenes: when it found none, which is the plainest way for the work
    list to be empty, the run raises [TypeError] and returns nothing. *)
Theorem empty_worklist_raises_after_empty_search (username password : string)
    (qp : QueryParameters) (grid shp : GeoDataFrame Geometry) (dir : string)
    (verified_tiles : list string) (st : state W) (w1 w2 w3 : W)
    (found : list Scene) (zones : list string) :
  api_login username password (world st) = (Ok tt, w1) →
  api_search qp w1 = (Ok found, w2) →
  api_logout w2 = (Ok tt, w3) →
  get_tile_list grid shp = Ok zones →
  data_for_table found zones (list_to_set verified_tiles) = [] →
  ∃ evs : list event,
    download_landsat_images username password qp grid shp dir verified_tiles st
    = (match found with
       | [] => Raised TypeError
       | _ :: _ => Returned []
       end,
       mkState w3 (trace st ++ evs) (table st))
    ∧ ∀ u p, EvEELogin u p ∉ evs.
Proof.
  intros Hlogin Hsearch Hlogout Hgrid Hdata.
  pose proof (landsat_search_paths username password qp st) as Hpaths.
  rewrite Hlogin, Hsearch, Hlogout in Hpaths.
  destruct found as [|scene scenes].
  - rewrite (run_after_failed_search _ _ _ _ _ _ _ _ _ _ Hpaths Hgrid).
    cbn [world trace table]. rewrite <- app_assoc.
    eexists. split; [reflexivity|]. not_in_explicit_list.
  - unfold download_landsat_images.
    rewrite (bind_returned _ _ _ _ _ Hpaths), Hgrid, bind_of_outcome_ok.
    unfold print. rewrite bind_log. cbv zeta. rewrite Hdata. simpl.
    rewrite !bind_log. unfold ret. simpl. rewrite <- !app_assoc.
    eexists. split; [reflexivity|]. not_in_explicit_list.
Qed.


End OrchestrationProperties.

(** ** Runs in the concrete world *)

(** The run in which the download of the first of three work items raises:
    the second item is skipped and stays in the returned list. *)
Lemma run_first_download_fails :
  Sim.run Sim.first_download_fails Sim.area1 [] []
  = (Returned [display_id Sim.sceneB; display_id Sim.sceneD],
     mkState (Sim.mkWorld [PyStr.path_join "/data" (display_id Sim.sceneD)] 0)
       Sim.first_download_fails_trace
       [(display_id Sim.sceneA, error);
        (display_id Sim.sceneB, needs_download);
        (display_id Sim.sceneD, extracted)]).
Proof. vm_compute. reflexivity. Qed.

(** C1 fails on the code.  The work list is [A; B; D] and the download of
    [A] raises.  [titles.remove(A)] shifts [B] to the index the list
    iterator has just left, so the iterator goes on with [D]: [B] is never
    attempted (no storage check, no download), its row keeps the status
    [needs_download], and yet it is in the returned list. *)
Theorem item_after_failed_item_is_skipped :
  let r := Sim.run Sim.first_download_fails Sim.area1 [] [] in
  r.1 = Returned [display_id Sim.sceneB; display_id Sim.sceneD]
  ∧ table r.2 = [(display_id Sim.sceneA, error);
                 (display_id Sim.sceneB, needs_download);
                 (display_id Sim.sceneD, extracted)]
  ∧ attempted (display_id Sim.sceneA) (trace r.2)
  ∧ ¬ attempted (display_id Sim.sceneB) (trace r.2)
  ∧ attempted (display_id Sim.sceneD) (trace r.2).
Proof.
  cbv zeta. rewrite run_first_download_fails. cbn [fst snd table trace].
  split; [done|]. split; [done|]. unfold attempted. split_and!.
  - right. unfold Sim.first_download_fails_trace.
    do 12 apply list_elem_of_further. apply list_elem_of_here.
  - unfold Sim.first_download_fails_trace.
    intros [Hin|Hin];
      repeat (apply elem_of_cons in Hin as [Heq|Hin]; [discriminate Heq|]);
      by apply elem_of_nil in Hin.
  - right. unfold Sim.first_download_fails_trace.
    do 22 apply list_elem_of_further. apply list_elem_of_here.
Qed.

(** C2 fails on the code.  In the same run the returned list is [B; D],
    while the items that ended in one of the statuses [in_storage],
    [downloaded], [extracted] are [D] alone: [B], which was never processed
    and ended in [needs_download], is returned. *)
Theorem returned_list_is_not_the_successes :
  let r := Sim.run Sim.first_download_fails Sim.area1 [] [] in
  r.1 = Returned [display_id Sim.sceneB; display_id Sim.sceneD]
  ∧ succeeded (table r.2) = [display_id Sim.sceneD]
  ∧ (display_id Sim.sceneB, needs_download) ∈ table r.2.
Proof.
  cbv zeta. rewrite run_first_download_fails. cbn [fst snd table].
  split; [done|]. split; [by vm_compute|].
  apply list_elem_of_further, list_elem_of_here.
Qed.

Lemma no_logout_when_search_raises_witness :
  ∃ evs : list event,
    Sim.search Sim.search_raises
    = (Returned None, mkState (Sim.mkWorld [] 1) ([] ++ evs) [])
    ∧ evs = [EvApiLogin "user" "secret"; EvPrint MsgApiConnected;
             EvApiSearch Sim.qp; EvPrint MsgCannotBeDone]
    ∧ EvApiLogout ∉ evs.
Proof.
  apply (no_logout_when_search_raises (H := Sim.collaborators Sim.search_raises)
           "user" "secret" Sim.qp (Sim.initial []) (Sim.mkWorld [] 1)
           (Sim.mkWorld [] 1) LandsatxploreError).
  - reflexivity.
  - reflexivity.
Defined.

(** C7 fails on the code.  A search that completes with zero records and a
    search that raises both make [landsat_search] return [None]: the two
    differ in the line printed, not in the value the caller gets. *)
Theorem empty_result_returns_what_failure_returns :
  (Sim.search Sim.search_finds_nothing).1 = Returned None
  ∧ (Sim.search Sim.search_raises).1 = Returned None
  ∧ (Sim.search Sim.search_finds_nothing).1 = (Sim.search Sim.search_raises).1
  ∧ last (trace (Sim.search Sim.search_finds_nothing).2)
    = Some (EvPrint MsgNoProductFound)
  ∧ last (trace (Sim.search Sim.search_raises).2)
    = Some (EvPrint MsgCannotBeDone).
Proof. by vm_compute. Qed.

(** C8, as the claim states it, fails: for the area without any geometry
    the grid intersection returns the empty list, and the run over that area
    is not stopped by an error; it returns the empty list as for an area
    that intersects no cell. *)
Lemma get_tile_list_empty_area_cex :
  get_tile_list Sim.grid Sim.empty_area = Ok []
  ∧ (Sim.run (Sim.all_fine [Sim.sceneA; Sim.sceneC]) Sim.empty_area [] []).1
    = Returned [].
Proof. by vm_compute. Qed.

Lemma empty_worklist_raises_after_empty_search_witness :
  ∃ evs : list event,
    Sim.run Sim.search_finds_nothing Sim.area1 [] []
    = (Raised TypeError,
       mkState (Sim.mkWorld [] 0) (trace (Sim.initial []) ++ evs)
               (table (Sim.initial [])))
    ∧ ∀ u p, EvEELogin u p ∉ evs.
Proof.
  apply (empty_worklist_raises_after_empty_search
           (H := Sim.collaborators Sim.search_finds_nothing)
           "user" "secret" Sim.qp Sim.grid Sim.area1 "/data" []
           (Sim.initial []) (Sim.mkWorld [] 1) (Sim.mkWorld [] 1)
           (Sim.mkWorld [] 0) [] ["001002"]).
  - reflexivity.
  - reflexivity.
  - reflexivity.
  - reflexivity.
  - reflexivity.
Defined.

(** The same run with a search that finds a scene of another tile: the work
    list is empty as well, and here the run returns the empty list. *)
Example empty_worklist_after_scenes :
  (Sim.run (Sim.all_fine [Sim.sceneC]) Sim.area1 [] []).1 = Returned [].
Proof. by vm_compute. Qed.



(** The two scenarios of the probe in the concrete world: the endpoint
    answers for the third identifier only, and for none.  In both the three
    identifiers are tried in order and the download is made, with the size
    the third probe answered and with no size. *)
Example probe_third_identifier_answers :
  let tr := trace (Sim.run Sim.fileinfo_third_only Sim.area1 [] []).2 in
  take 8 (drop 13 tr)
  = [EvGetFileinfo (EE_DOWNLOAD_URL "5e83d14f30ea90a9" "E1") "/data";
     EvGetFileinfo (EE_DOWNLOAD_URL "5e83d14fec7cae84" "E1") "/data";
     EvGetFileinfo (EE_DOWNLOAD_URL "632210d4770592cf" "E1") "/data";
     EvDownloadBarFrame; EvTableInsert 0 downloading;
     EvDownloadProgressBar
       (PyStr.path_join "/data" (display_id Sim.sceneA +:+ ".tar"))
       (Some 2048%Z);
     EvDownload "E1" "/data" "landsat_ot_c2_l2";
     EvPrint (MsgProductDownloaded (display_id Sim.sceneA))].
Proof. by vm_compute. Qed.

Example probe_no_identifier_answers :
  let r := Sim.run Sim.no_fileinfo Sim.area1 [] [] in
  take 8 (drop 13 (trace r.2))
  = [EvGetFileinfo (EE_DOWNLOAD_URL "5e83d14f30ea90a9" "E1") "/data";
     EvGetFileinfo (EE_DOWNLOAD_URL "5e83d14fec7cae84" "E1") "/data";
     EvGetFileinfo (EE_DOWNLOAD_URL "632210d4770592cf" "E1") "/data";
     EvDownloadBarFrame; EvTableInsert 0 downloading;
     EvDownloadProgressBar
       (PyStr.path_join "/data" (display_id Sim.sceneA +:+ ".tar")) None;
     EvDownload "E1" "/data" "landsat_ot_c2_l2";
     EvPrint (MsgProductDownloaded (display_id Sim.sceneA))]
  ∧ r.1 = Returned [display_id Sim.sceneA]
  ∧ table r.2 = [(display_id Sim.sceneA, extracted)].
Proof. by vm_compute. Qed.

(** * Further properties of the code *)

(** ** Relations between the state before and after *)

Section Respects.
Context {W : Type}.

Global Instance adds_preorder (P : event → Prop) : PreOrder (adds (W:=W) P).
Proof.
  split.
  - intros s. exists []. by rewrite app_nil_r.
  - intros s1 s2 s3 (evs1 & H1 & HP1) (evs2 & H2 & HP2).
    exists (evs1 ++ evs2). rewrite H2, H1, <- app_assoc.
    split; [done|by apply Forall_app].
Qed.

Lemma adds_mono (P Q : event → Prop) (s s' : state W) :
  (∀ ev, P ev → Q ev) → adds P s s' → adds Q s s'.
Proof.
  intros HPQ (evs & Htr & HP). exists evs. split; [done|].
  by eapply Forall_impl.
Qed.

Context (R : relation (state W)) `{!PreOrder R}.

Lemma rs_ret {A} (a : A) : respects R (ret a).
Proof. intros st. simpl. reflexivity. Qed.

Lemma rs_raise {A} (e : exn) : respects R (A:=A) (raise e).
Proof. intros st. simpl. reflexivity. Qed.

(** The continuation need only respect [R] for the values [m] can return. *)
Lemma rs_bind {A B} (m : M (W:=W) A) (k : A → M B) (Q : A → Prop) :
  terminates_with m Q →
  respects R m →
  (∀ a, Q a → respects R (k a)) →
  respects R (bind m k).
Proof.
  intros HQ Hm Hk st. unfold bind. specialize (Hm st). specialize (HQ st).
  destruct (m st) as [[a|e|] st']; simpl in *; [|done..].
  etrans; [exact Hm|apply (Hk a HQ)].
Qed.

Lemma rs_try {A} (m : M (W:=W) A) (h : exn → M A) :
  respects R m → (∀ e, respects R (h e)) → respects R (try_except m h).
Proof.
  intros Hm Hh st. unfold try_except. specialize (Hm st).
  destruct (m st) as [[a|e|] st']; simpl in *; [done| |done].
  etrans; [exact Hm|apply Hh].
Qed.

Lemma rs_try_Exception {A} (m : M (W:=W) A) (h : exn → M A) :
  respects R m → (∀ e, respects R (h e)) →
  respects R (try_except_Exception m h).
Proof.
  intros Hm Hh st. unfold try_except_Exception. specialize (Hm st).
  destruct (m st) as [[a|e|] st']; simpl in *; [done| |done].
  destruct (is_Exception e); [|done]. etrans; [exact Hm|apply Hh].
Qed.

Lemma rs_of_outcome {A} (o : outcome A) : respects R (of_outcome o).
Proof. intros st. destruct o; simpl; reflexivity. Qed.

End Respects.

Section Reacts.
Context {W : Type}.

Lemma adds_reacts (P : event → Prop) : reacts (adds (W:=W) P) P.
Proof.
  split.
  - apply _.
  - intros ev Hev st. exists [ev]. split; [done|by constructor].
  - intros A ev op Hev st. exists [ev]. unfold call.
    destruct (op (world st)) as [[a|e] w]; (split; [done|by constructor]).
  - intros n s Hev st. exists [EvTableInsert n s]. split; [done|by constructor].
Qed.

End Reacts.

(** ** The events of the loop *)

(** One statement of a sequence, for [respects]: [tw] shows that the
    statement ends and [rs] that it respects the relation. *)
Tactic Notation "rs_seq" tactic3(tw) tactic3(rs) :=
  eapply rs_bind with (Q := λ _, True); [apply _|tw|rs|intros ? _].

Section LoopRespects.
Context {W : Type} `{Collaborators W}.
Context (R : relation (state W)) (E : event → Prop) (HR : reacts R E).

Local Instance reacts_is_preorder : PreOrder R := reacts_preorder R E HR.

Lemma rs_on_ee {A} (ee : option EarthExplorer) (m : M (W:=W) A) :
  (∀ session, ee = Some session → respects R m) → respects R (on_ee ee m).
Proof.
  destruct ee as [session|]; simpl; intros Hm; [by eapply Hm|].
  apply rs_raise, _.
Qed.

(** A method call on [ee] returns only when there is a session. *)
Lemma tw_on_ee_session {A} (ee : option EarthExplorer) (m : M (W:=W) A) :
  terminates_with m (λ _, True) →
  terminates_with (on_ee ee m) (λ _, is_Some ee).
Proof.
  destruct ee as [session|]; simpl; intros Hm; [|apply tw_raise].
  eapply tw_weaken; [exact Hm|]. intros _ _. by eexists.
Qed.

Lemma rs_set_status (data : list (string * status)) (title : string)
    (s : status) :
  (∀ n, find_row data title 0 = Some n → E (EvTableInsert n s)) →
  respects R (set_status data title s).
Proof.
  intros HE. unfold set_status.
  destruct (find_row data title 0) as [n|]; [|apply rs_ret, _].
  apply (reacts_insert R E HR). by apply HE.
Qed.

Lemma rs_probe_loop (ee : option EarthExplorer) (product_id dir : string)
    (ids : list string) (file_size : option Z) :
  (∀ session dataset_id, ee = Some session → dataset_id ∈ ids →
     E (EvGetFileinfo (EE_DOWNLOAD_URL dataset_id product_id) dir)) →
  respects R (probe_loop ee product_id dir ids file_size).
Proof.
  induction ids as [|id ids IH]; intros HE; simpl; [apply rs_ret, _|].
  eapply rs_bind with (Q := λ _, True); [apply _| | |].
  - apply tw_try; [|intros e; by apply tw_ret].
    eapply tw_bind with (P := λ _, True);
      [by apply tw_on_ee, tw_call|intros info _; by apply tw_ret].
  - apply rs_try; [apply _| |intros e; apply rs_ret, _].
    eapply rs_bind with (Q := λ _, True);
      [apply _|by apply tw_on_ee, tw_call| |intros info _; apply rs_ret, _].
    apply rs_on_ee. intros session Hee. apply (reacts_call R E HR).
    eapply HE; [done|apply list_elem_of_here].
  - intros [[filename size]|] _; [apply rs_ret, _|].
    apply IH. intros session d Hee Hd. eapply HE; [done|].
    by apply list_elem_of_further.
Qed.

Context (ee : option EarthExplorer) (query : list Scene)
  (qp : QueryParameters) (dir : string) (data : list (string * status)).

Lemma rs_download_and_extract (title : string) :
  (∀ ev, item_event ee query qp dir data title ev → E ev) →
  respects R
    (download_and_extract ee query qp dir data title (title +:+ ".tar")).
Proof.
  intros HE. unfold download_and_extract.
  destruct (next_product query title) as [product|] eqn:Hnext.
  2: { eapply rs_bind with (Q := λ _, False);
         [apply _|apply tw_raise|apply rs_raise, _|by intros ? []]. }
  eapply rs_bind with (Q := λ a, a = product);
    [apply _|by apply tw_ret|apply rs_ret, _|intros ? ->].
  eapply rs_bind with (Q := λ _, True); [apply _|apply tw_probe_loop| |intros size _].
  { apply rs_probe_loop. intros session d Hee Hd. apply HE.
    by eapply ie_fileinfo. }
  rs_seq (by apply tw_log) (apply (reacts_log R E HR), HE; constructor).
  rs_seq (apply tw_set_status)
         (apply rs_set_status; intros n Hn; apply HE; by constructor).
  rs_seq (by apply tw_log) (apply (reacts_log R E HR), HE; constructor).
  eapply rs_bind with (Q := λ _, is_Some ee);
    [apply _|by apply tw_on_ee_session, tw_call| |intros _ [session Hee]].
  { apply rs_on_ee; intros session Hee; apply (reacts_call R E HR), HE.
    by eapply ie_download. }
  rs_seq (by apply tw_log) (apply (reacts_log R E HR), HE; constructor).
  rs_seq (apply tw_set_status)
         (apply rs_set_status; intros n Hn; apply HE; by constructor).
  rs_seq (by apply tw_call)
         (apply (reacts_call R E HR), HE; by eapply ie_extract).
  rs_seq (by apply tw_call) (apply (reacts_call R E HR), HE; constructor).
  apply rs_set_status; intros n Hn; apply HE; by constructor.
Qed.

End LoopRespects.

Section WorkListShrinks.
Context {W : Type} `{Collaborators W}.

Lemma py_list_remove_sublist (title : string) (titles titles' : list string) :
  py_list_remove title titles = Some titles' → titles' `sublist_of` titles.
Proof.
  revert titles'. induction titles as [|t titles IH]; intros titles'; [done|].
  simpl. destruct (String.eqb t title).
  - intros [= <-]. by apply sublist_cons.
  - destruct (py_list_remove title titles) as [rest|]; [|done].
    intros [= <-]. by apply sublist_skip, IH.
Qed.

(** The body of the loop returns the list as it got it, or the list without
    the first copy of the title. *)
Lemma tw_process_title_result (ee : option EarthExplorer) (query : list Scene)
    (qp : QueryParameters) (dir : string) (data : list (string * status))
    (title : string) (titles : list string) :
  terminates_with (W:=W) (process_title ee query qp dir data title titles)
    (λ titles', titles' = titles
                ∨ py_list_remove title titles = Some titles').
Proof.
  unfold process_title.
  eapply tw_bind with (P := λ _, True); [by apply tw_call|intros names _].
  destruct (py_in title names).
  { tw_seq (by apply tw_log). tw_seq (apply tw_set_status).
    apply tw_ret. by left. }
  eapply tw_bind with (P := λ _, True); [by apply tw_call|intros names' _].
  eapply tw_bind with (P := λ _, True).
  { destruct (py_in _ names'); [by apply tw_call|by apply tw_ret]. }
  intros _ _. tw_seq (by apply tw_log).
  apply tw_try_Exception.
  - tw_seq (apply tw_download_and_extract). apply tw_ret. by left.
  - intros e. tw_seq (by apply tw_log).
    destruct (py_list_remove title titles) as [titles'|] eqn:Hrm.
    + eapply tw_bind with (P := λ a, a = titles');
        [by apply tw_ret|intros ? ->].
      tw_seq (apply tw_set_status). apply tw_ret. by right.
    + eapply tw_bind with (P := λ _, False); [apply tw_raise|by intros ? []].
Qed.

Lemma tw_process_title_sublist (ee : option EarthExplorer)
    (query : list Scene) (qp : QueryParameters) (dir : string)
    (data : list (string * status)) (title : string) (titles : list string) :
  terminates_with (W:=W) (process_title ee query qp dir data title titles)
    (λ titles', titles' `sublist_of` titles).
Proof.
  eapply tw_weaken; [apply tw_process_title_result|].
  intros titles' [->|Hrm]; [done|by eapply py_list_remove_sublist].
Qed.

(** The loop only ever shortens the list: what it returns is a sublist of
    what it started with. *)
Lemma tw_titles_loop_sublist (fuel : nat) (ee : option EarthExplorer)
    (query : list Scene) (qp : QueryParameters) (dir : string)
    (data : list (string * status)) (i : nat) (titles : list string) :
  length titles - i ≤ fuel →
  terminates_with (W:=W) (titles_loop fuel ee query qp dir data i titles)
    (λ titles', titles' `sublist_of` titles).
Proof.
  revert i titles. induction fuel as [|fuel IH]; intros i titles Hfuel.
  - simpl. destruct (titles !! i) as [title|] eqn:Hi; [|by apply tw_ret].
    apply lookup_lt_Some in Hi. lia.
  - simpl. destruct (titles !! i) as [title|] eqn:Hi; [|by apply tw_ret].
    apply lookup_lt_Some in Hi.
    eapply tw_bind with (P := λ t, t `sublist_of` titles);
      [apply tw_process_title_sublist|].
    intros titles' Hsub. eapply tw_weaken.
    + apply IH. apply sublist_length in Hsub. lia.
    + intros titles'' Hsub'. etrans; [exact Hsub'|exact Hsub].
Qed.

End WorkListShrinks.

Section LoopRespectsRelation.
Context {W : Type} `{Collaborators W}.
Context (R : relation (state W)) (E : event → Prop) (HR : reacts R E).
Context (ee : option EarthExplorer) (query : list Scene)
  (qp : QueryParameters) (dir : string) (data : list (string * status)).

Local Instance reacts_is_preorder' : PreOrder R := reacts_preorder R E HR.

Lemma rs_process_title (title : string) (titles : list string) :
  (∀ ev, item_event ee query qp dir data title ev → E ev) →
  respects R (process_title ee query qp dir data title titles).
Proof.
  intros HE. unfold process_title.
  eapply rs_bind with (Q := λ _, True);
    [apply _|by apply tw_call| |intros names _].
  { apply (reacts_call R E HR), HE. constructor. }
  destruct (py_in title names).
  { rs_seq (by apply tw_log) (apply (reacts_log R E HR), HE; constructor).
    rs_seq (apply tw_set_status)
           (apply (rs_set_status R E HR); intros n Hn; apply HE;
            by constructor).
    apply rs_ret, _. }
  eapply rs_bind with (Q := λ _, True);
    [apply _|by apply tw_call| |intros names' _].
  { apply (reacts_call R E HR), HE. constructor. }
  eapply rs_bind with (Q := λ _, True); [apply _| | |intros _ _].
  { destruct (py_in _ names'); [by apply tw_call|by apply tw_ret]. }
  { destruct (py_in _ names'); [|apply rs_ret, _].
    apply (reacts_call R E HR), HE. constructor. }
  rs_seq (by apply tw_log) (apply (reacts_log R E HR), HE; constructor).
  apply rs_try_Exception; [apply _| |intros e].
  - rs_seq (apply tw_download_and_extract)
           (by apply (rs_download_and_extract R E HR)).
    apply rs_ret, _.
  - rs_seq (by apply tw_log) (apply (reacts_log R E HR), HE; constructor).
    destruct (py_list_remove title titles) as [titles'|].
    + rs_seq (by apply tw_ret) (apply rs_ret, _).
      rs_seq (apply tw_set_status)
             (apply (rs_set_status R E HR); intros n Hn; apply HE;
              by constructor).
      apply rs_ret, _.
    + eapply rs_bind with (Q := λ _, False);
        [apply _|apply tw_raise|apply rs_raise, _|by intros ? []].
Qed.

(** The loop respects every relation that reacts to the events of its
    items. *)
Lemma rs_titles_loop (fuel i : nat) (titles : list string) :
  (∀ title ev, title ∈ titles →
     item_event ee query qp dir data title ev → E ev) →
  respects R (titles_loop fuel ee query qp dir data i titles).
Proof.
  revert i titles. induction fuel as [|fuel IH]; intros i titles HE; simpl.
  - destruct (titles !! i); [|apply rs_ret, _]. intros st. simpl. reflexivity.
  - destruct (titles !! i) as [title|] eqn:Hi; [|apply rs_ret, _].
    eapply rs_bind with (Q := λ t, t `sublist_of` titles);
      [apply _|apply tw_process_title_sublist| |].
    + apply rs_process_title. intros ev. apply HE.
      by eapply list_elem_of_lookup_2.
    + intros titles' Hsub. apply IH. intros title' ev Hin. apply HE.
      by eapply sublist_subseteq.
Qed.

End LoopRespectsRelation.

(** ** The two login functions and the search *)

Section Logins.
Context {W : Type} `{Collaborators W}.

(** The paths of the two login functions, by what the constructor does. *)
Lemma landsat_explorer_login_paths (username password : string)
    (st : state W) :
  landsat_explorer_login username password st
  = match api_login username password (world st) with
    | (Ok _, w) =>
        (Returned (Some api_session),
         mkState w (trace st ++ [EvApiLogin username password;
                                 EvPrint MsgApiConnected]) (table st))
    | (Err e, w) =>
        if is_Exception e
        then (Returned None,
              mkState w (trace st ++ [EvApiLogin username password;
                                      EvPrint (MsgApiLoginError e)])
                      (table st))
        else (Raised e,
              mkState w (trace st ++ [EvApiLogin username password])
                      (table st))
    end.
Proof.
  unfold landsat_explorer_login, bind, try_except_Exception, call, print, log,
    ret.
  destruct (api_login username password (world st)) as [[[]|e] w]; simpl;
    [|destruct (is_Exception e); simpl]; by rewrite <- ?app_assoc.
Qed.

Lemma earth_explorer_login_paths (username password : string)
    (st : state W) :
  earth_explorer_login username password st
  = match ee_login username password (world st) with
    | (Ok _, w) =>
        (Returned (Some ee_session),
         mkState w (trace st ++ [EvEELogin username password;
                                 EvPrint MsgEEConnected]) (table st))
    | (Err e, w) =>
        if is_Exception e
        then (Returned None,
              mkState w (trace st ++ [EvEELogin username password;
                                      EvPrint (MsgEELoginError e)])
                      (table st))
        else (Raised e,
              mkState w (trace st ++ [EvEELogin username password])
                      (table st))
    end.
Proof.
  unfold earth_explorer_login, bind, try_except_Exception, call, print, log,
    ret.
  destruct (ee_login username password (world st)) as [[[]|e] w]; simpl;
    [|destruct (is_Exception e); simpl]; by rewrite <- ?app_assoc.
Qed.

(** X1.  The two login functions catch exactly what derives from
    [Exception].  Each makes one call to its constructor and, beyond that
    call, only prints.  It returns the handle exactly when the constructor
    returned; it returns [None] exactly when the constructor raised an
    exception that derives from [Exception]; and it raises exactly when the
    constructor raised an exception that does not ([KeyboardInterrupt],
    [SystemExit]), which it passes on.  The world is the one the constructor
    left. *)
Theorem logins_catch_exactly_Exception (username password : string)
    (st : state W) :
  let api := landsat_explorer_login username password st in
  let api_outcome := api_login username password (world st) in
  let ee := earth_explorer_login username password st in
  let ee_outcome := ee_login username password (world st) in
  ((api.1 = Returned (Some api_session) ↔ api_outcome.1 = Ok tt)
   ∧ (api.1 = Returned None
      ↔ ∃ e, api_outcome.1 = Err e ∧ is_Exception e = true)
   ∧ (∀ e, api.1 = Raised e
           ↔ api_outcome.1 = Err e ∧ is_Exception e = false)
   ∧ world api.2 = api_outcome.2
   ∧ ∃ lines, trace api.2 = trace st ++ EvApiLogin username password :: lines
              ∧ Forall (λ ev, ∃ m, ev = EvPrint m) lines)
  ∧ ((ee.1 = Returned (Some ee_session) ↔ ee_outcome.1 = Ok tt)
     ∧ (ee.1 = Returned None
        ↔ ∃ e, ee_outcome.1 = Err e ∧ is_Exception e = true)
     ∧ (∀ e, ee.1 = Raised e
             ↔ ee_outcome.1 = Err e ∧ is_Exception e = false)
     ∧ world ee.2 = ee_outcome.2
     ∧ ∃ lines, trace ee.2 = trace st ++ EvEELogin username password :: lines
                ∧ Forall (λ ev, ∃ m, ev = EvPrint m) lines).
Proof.
  cbv zeta. rewrite landsat_explorer_login_paths, earth_explorer_login_paths.
  split.
  - destruct (api_login username password (world st)) as [[[]|e] w];
      [|destruct (is_Exception e) eqn:He]; cbn [fst snd world trace].
    + split_and!; [done| |split; [done|by intros [? _]]|done|].
      * split; [done|]. by intros (e & ? & _).
      * eexists. split; [done|]. repeat constructor. by eexists.
    + split_and!; [done| | |done|].
      * split; [by eexists|done].
      * intros e'. split; [done|]. intros [[= ->] ?]. congruence.
      * eexists. split; [done|]. repeat constructor. by eexists.
    + split_and!; [done| | |done|].
      * split; [done|]. intros (e' & [= ->] & ?). congruence.
      * intros e'. split; [by intros [= ->]|]. by intros [[= ->] _].
      * eexists. split; [done|]. constructor.
  - destruct (ee_login username password (world st)) as [[[]|e] w];
      [|destruct (is_Exception e) eqn:He]; cbn [fst snd world trace].
    + split_and!; [done| |split; [done|by intros [? _]]|done|].
      * split; [done|]. by intros (e & ? & _).
      * eexists. split; [done|]. repeat constructor. by eexists.
    + split_and!; [done| | |done|].
      * split; [by eexists|done].
      * intros e'. split; [done|]. intros [[= ->] ?]. congruence.
      * eexists. split; [done|]. repeat constructor. by eexists.
    + split_and!; [done| | |done|].
      * split; [done|]. intros (e' & [= ->] & ?). congruence.
      * intros e'. split; [by intros [= ->]|]. by intros [[= ->] _].
      * eexists. split; [done|]. constructor.
Qed.

(** X2.  [landsat_search] never raises, and it returns a scene list exactly
    when the login returned, the search returned that list, the list is not
    empty and the logout returned.  In particular the scenes of a successful
    search are dropped when the logout raises. *)
Theorem landsat_search_returns_scenes_iff (username password : string)
    (qp : QueryParameters) (st : state W) (scenes : list Scene) :
  (∃ query, (landsat_search username password qp st).1 = Returned query)
  ∧ ((landsat_search username password qp st).1 = Returned (Some scenes)
     ↔ ∃ w1 w2 w3,
         api_login username password (world st) = (Ok tt, w1)
         ∧ api_search qp w1 = (Ok scenes, w2)
         ∧ api_logout w2 = (Ok tt, w3)
         ∧ scenes ≠ []).
Proof.
  rewrite landsat_search_paths.
  destruct (api_login username password (world st)) as [[[]|e] w1] eqn:Hlogin.
  2: { split; [by eexists|]. split; [done|]. by intros (?&?&?&[=]&_). }
  destruct (api_search qp w1) as [[found|e] w2] eqn:Hsearch.
  2: { split; [by eexists|]. split; [done|].
       intros (?&?&?&[= <-]&Hs&_). rewrite Hsearch in Hs. done. }
  destruct (api_logout w2) as [[[]|e] w3] eqn:Hlogout.
  2: { split; [by eexists|]. split; [done|].
       intros (?&?&?&[= <-]&Hs&Hl&_). rewrite Hsearch in Hs.
       injection Hs as <- <-. rewrite Hlogout in Hl. done. }
  destruct found as [|scene found].
  - split; [by eexists|]. split; [done|].
    intros (?&?&?&[= <-]&Hs&_&Hne). rewrite Hsearch in Hs.
    injection Hs as <- <-. done.
  - split; [by eexists|]. split.
    + intros [= <-]. by eexists _, _, _.
    + intros (?&?&?&[= <-]&Hs&_). rewrite Hsearch in Hs.
      by injection Hs as <- <-.
Qed.

(** X3.  One call of [landsat_search] adds only events of the catalog: one
    login, then a search exactly when the login returned, then a logout
    exactly when the search returned. *)
Theorem landsat_search_calls (username password : string)
    (qp : QueryParameters) (st : state W) :
  ∃ evs,
    trace (landsat_search username password qp st).2 = trace st ++ evs
    ∧ Forall (catalog_event username password qp) evs
    ∧ length (List.filter is_api_login evs) = 1
    ∧ (EvApiSearch qp ∈ evs
       ↔ ∃ w1, api_login username password (world st) = (Ok tt, w1))
    ∧ (EvApiLogout ∈ evs
       ↔ ∃ w1 found w2,
           api_login username password (world st) = (Ok tt, w1)
           ∧ api_search qp w1 = (Ok found, w2)).
Proof.
  rewrite landsat_search_paths.
  destruct (api_login username password (world st)) as [[[]|e] w1] eqn:Hlogin;
    [destruct (api_search qp w1) as [[found|e] w2] eqn:Hsearch;
     [destruct (api_logout w2) as [[[]|e] w3] eqn:Hlogout;
      [destruct found as [|scene found]|]|]|destruct (is_Exception e)].
  all: eexists; split; [reflexivity|].
  all: split;
    [repeat (apply Forall_cons; split;
             [unfold catalog_event; naive_solver|]); by apply Forall_nil|].
  all: split; [reflexivity|].
  all: split; split.
  all: try (intros _; by eauto).
  all: try (intros Hin;
            repeat (apply elem_of_cons in Hin as [Heq|Hin];
                    [discriminate Heq|]); by apply elem_of_nil in Hin).
  all: try (intros _; do 2 apply list_elem_of_further; apply list_elem_of_here).
  all: try (intros _; do 3 apply list_elem_of_further; apply list_elem_of_here).
  all: try (by intros (?&[=])).
  all: try (intros (?&?&?&[= <-]&Hs); rewrite Hsearch in Hs; done).
  all: try (by intros (?&?&?&[=]&_)).
Qed.

End Logins.

(** ** The orchestration as a whole *)

Section WorkListMembers.

Lemma next_product_Some (query : list Scene) (title : string)
    (product : Scene) :
  next_product query title = Some product →
  product ∈ query ∧ display_id product = title.
Proof.
  induction query as [|scene query IH]; [done|]. simpl.
  destruct (String.eqb (display_id scene) title) eqn:Heq.
  - intros [= <-]. apply String.eqb_eq in Heq.
    split; [apply list_elem_of_here|done].
  - intros [Hin Hid]%IH. split; [by apply list_elem_of_further|done].
Qed.

(** The members of the work list. *)
Lemma titles_of_data_for_table (scenes : list Scene) (zones : list string)
    (verified_tiles : list string) (title : string) :
  title ∈ titles_of (data_for_table scenes zones (list_to_set verified_tiles))
  ↔ (∃ scene, scene ∈ scenes ∧ display_id scene = title)
    ∧ substring 10 6 title ∈ zones ∧ title ∉ verified_tiles.
Proof.
  unfold titles_of. induction scenes as [|t scenes IH].
  - simpl. split; [by intros ?%elem_of_nil|].
    by intros [(scene & ?%elem_of_nil & _) _].
  - cbn [data_for_table]. rewrite tile_code_substring.
    destruct (existsb _ zones) eqn:Hzone; [case_bool_decide as Hver|].
    + apply any_zone_elem_of in Hzone. rewrite elem_of_list_to_set in Hver.
      cbn [map]. rewrite elem_of_cons, IH. split.
      * intros [->|[(scene & Hin & Hid) Hrest]].
        -- split; [|done]. exists t. split; [apply list_elem_of_here|done].
        -- split; [|done]. exists scene.
           split; [by apply list_elem_of_further|done].
      * intros [(scene & [->|Hin]%elem_of_cons & Hid) Hrest]; [by left|].
        right. split; [by exists scene|done].
    + apply any_zone_elem_of in Hzone. rewrite elem_of_list_to_set in Hver.
      rewrite IH. split.
      * intros [(scene & Hin & Hid) Hrest]. split; [|done].
        exists scene. split; [by apply list_elem_of_further|done].
      * intros [(scene & [->|Hin]%elem_of_cons & Hid) [Hz Hv]].
        -- subst. tauto.
        -- split; [by exists scene|done].
    + rewrite IH. split.
      * intros [(scene & Hin & Hid) Hrest]. split; [|done].
        exists scene. split; [by apply list_elem_of_further|done].
      * intros [(scene & [->|Hin]%elem_of_cons & Hid) [Hz Hv]].
        -- subst. apply any_zone_elem_of in Hz. congruence.
        -- split; [by exists scene|done].
Qed.

End WorkListMembers.

Section RunEvents.
Context {W : Type} `{Collaborators W}.
Context {Geometry : Type} `{GeometryLib Geometry}.
Context (username password : string) (qp : QueryParameters)
  (grid shp : GeoDataFrame Geometry) (dir : string)
  (verified_tiles : list string) (zones : list string).
Context (Hzones : get_tile_list grid shp = Ok zones).

Let run := download_landsat_images (W:=W) username password qp grid shp dir
             verified_tiles.

(** The run after a search that returned scenes and a grid intersection
    that returned: with an empty work list it prints and returns; otherwise
    it creates the table, logs in to the download service and goes through
    the loop with the session, or with [None] when the login raised an
    [Exception]; any other exception of the login ends the run. *)
Lemma run_after_search (st : state W) (scenes : list Scene) (st1 : state W) :
  landsat_search username password qp st = (Returned (Some scenes), st1) →
  run st
  = let data := data_for_table scenes zones (list_to_set verified_tiles) in
    let before_login :=
      trace st1 ++ [EvPrint (MsgZones zones);
                    EvPrint (MsgAfterFilter (length (titles_of data)));
                    EvInformationTable data;
                    EvEELogin username password] in
    match titles_of data with
    | [] =>
        (Returned [],
         mkState (world st1)
           (trace st1 ++ [EvPrint (MsgZones zones); EvPrint (MsgAfterFilter 0);
                          EvPrint MsgNothingAfterFilter]) (table st1))
    | _ :: _ =>
        match ee_login username password (world st1) with
        | (Ok _, w2) =>
            loop_and_report (Some ee_session) scenes qp dir data
              (mkState w2 (before_login ++ [EvPrint MsgEEConnected]) data)
        | (Err e, w2) =>
            if is_Exception e
            then loop_and_report None scenes qp dir data
                   (mkState w2 (before_login ++ [EvPrint (MsgEELoginError e)])
                            data)
            else (Raised e, mkState w2 before_login data)
        end
    end.
Proof.
  intros Hsearch. unfold run, download_landsat_images.
  rewrite (bind_returned _ _ _ _ _ Hsearch), Hzones, bind_of_outcome_ok.
  unfold print at 1. rewrite bind_log. cbv zeta.
  unfold print at 1. rewrite bind_log. unfold loop_and_report.
  destruct (titles_of _) as [|title titles] eqn:Htitles.
  - unfold print. rewrite bind_log. unfold ret. simpl.
    by rewrite <- !app_assoc.
  - unfold bind at 1. unfold InformationTable at 1. cbn [fst snd].
    unfold bind at 1. rewrite earth_explorer_login_paths. cbn [world trace table].
    destruct (ee_login username password (world st1)) as [[[]|e] w2];
      [|destruct (is_Exception e)]; cbn [fst snd]; by rewrite <- ?app_assoc.
Qed.

(** What a run adds to the trace after the search. *)
Lemma run_events (st : state W) (scenes : list Scene) (st1 : state W) :
  landsat_search username password qp st = (Returned (Some scenes), st1) →
  adds (run_event username password
          (session_after (ee_login username password (world st1)).1)
          scenes qp dir
          (data_for_table scenes zones (list_to_set verified_tiles)) zones)
       st1 (run st).2.
Proof.
  intros Hsearch. rewrite (run_after_search st scenes st1 Hsearch). cbv zeta.
  set (data := data_for_table scenes zones (list_to_set verified_tiles)).
  destruct (titles_of data) as [|title titles] eqn:Htitles.
  { eexists; split; [reflexivity|].
    repeat (apply Forall_cons; split; [unfold run_event; naive_solver|]).
    by apply Forall_nil. }
  rewrite <- Htitles.
  destruct (ee_login username password (world st1)) as [[[]|e] w2];
    [|destruct (is_Exception e)]; cbn [fst snd]; set (ee := session_after _).
  3: { eexists; split; [reflexivity|].
       repeat (apply Forall_cons; split; [unfold run_event; naive_solver|]).
       by apply Forall_nil. }
  all: unfold loop_and_report.
  all: match goal with |- adds ?P _ (bind ?m ?k ?s).2 =>
         transitivity s; [|apply (rs_bind (adds P) m k (λ _, True))]
       end.
  1,5: eexists; split; [by rewrite <- app_assoc|];
    repeat (apply Forall_cons; split; [unfold run_event; naive_solver|]);
    by apply Forall_nil.
  1,4: apply titles_loop_fuel; lia.
  1,3: eapply rs_titles_loop; [apply adds_reacts|];
    intros t ev Hin Hev; unfold run_event; do 7 right; left; by exists t.
  all: intros titles' _;
    eapply rs_bind with (Q := λ _, True);
      [apply _|by apply tw_log| |intros _ _; apply rs_ret, _];
    apply adds_reacts; unfold run_event; do 8 right; by eexists.
Qed.

(** Among the events of a run, those of the kinds below come from the
    loop. *)
Lemma run_event_of_loop ee scenes data (ev : event) :
  run_event username password ee scenes qp dir data zones ev →
  is_download_service_call ev = true ∨ (∃ path, ev = EvRemove path) →
  worklist_event ee scenes qp dir data (titles_of data) ev.
Proof.
  unfold run_event. intros Hev Hkind.
  assert (∀ m, ev ≠ EvPrint m) as Hprint.
  { intros m ->. by destruct Hkind as [|[? ?]]. }
  assert (ev ≠ EvInformationTable data ∧ ev ≠ EvEELogin username password)
    as [Htable Hlogin].
  { split; intros ->; by destruct Hkind as [|[? ?]]. }
  destruct Hev as [Heq|[[n Heq]|[Heq|[Heq|[Heq|[Heq|[[e Heq]|[Hloop|[n Heq]]]]]]]]];
    try done; by edestruct Hprint.
Qed.

End RunEvents.

Section PathJoin.

Lemma startswith_sep_tar (b : string) :
  PyStr.startswith_sep (b +:+ ".tar") = PyStr.startswith_sep b.
Proof. by destruct b. Qed.

(** For a relative name, and a directory that is not empty and does not end
    in a separator, the joined path is the directory, a separator and the
    name. *)
Lemma path_join_relative (a b : string) :
  a ≠ EmptyString →
  PyStr.endswith_sep a = false →
  PyStr.startswith_sep b = false →
  PyStr.path_join a b = a +:+ "/" +:+ b.
Proof.
  intros Ha Hend Hb. unfold PyStr.path_join. rewrite Hb, Hend.
  by destruct a.
Qed.

(** An absolute name replaces the directory. *)
Lemma path_join_absolute (a b : string) :
  PyStr.startswith_sep b = true → PyStr.path_join a b = b.
Proof. intros Hb. unfold PyStr.path_join. by rewrite Hb. Qed.

(** The two paths of a work item. *)
Lemma work_item_paths (dir id : string) :
  if PyStr.startswith_sep id
  then PyStr.path_join dir (id +:+ ".tar") = id +:+ ".tar"
       ∧ PyStr.path_join dir id = id
  else dir ≠ EmptyString → PyStr.endswith_sep dir = false →
       PyStr.path_join dir (id +:+ ".tar") = dir +:+ "/" +:+ id +:+ ".tar"
       ∧ PyStr.path_join dir id = dir +:+ "/" +:+ id.
Proof.
  destruct (PyStr.startswith_sep id) eqn:Hsep.
  - split; apply path_join_absolute; [|done].
    by rewrite startswith_sep_tar.
  - intros Hdir Hend. split; apply path_join_relative; try done.
    by rewrite startswith_sep_tar.
Qed.

End PathJoin.

Section RunProperties.
Context {W : Type} `{Collaborators W}.
Context {Geometry : Type} `{GeometryLib Geometry}.
Context (username password : string) (qp : QueryParameters)
  (grid shp : GeoDataFrame Geometry) (dir : string)
  (verified_tiles : list string).

Let run := download_landsat_images (W:=W) username password qp grid shp dir
             verified_tiles.

(** X4.  After a search that returned scenes, every call the run makes to
    the download service is for a scene in scope: a scene the search
    returned, whose tile code is among the zones and whose display
    identifier is not verified.  Downloads go to the download directory with
    the dataset of the query, and metadata is asked for one of the three
    dataset identifiers.  (When the grid intersection raises there are no
    zones: the run raises the same exception and adds nothing.) *)
Theorem service_calls_only_for_scenes_in_scope (st : state W)
    (scenes : list Scene) (st1 : state W) :
  landsat_search username password qp st = (Returned (Some scenes), st1) →
  match get_tile_list grid shp with
  | Err e => run st = (Raised e, st1)
  | Ok zones =>
      ∃ evs,
        trace (run st).2 = trace st1 ++ evs
        ∧ (∀ id d ds, EvDownload id d ds ∈ evs →
             d = dir ∧ ds = qp_dataset qp
             ∧ ∃ scene, scene ∈ scenes ∧ entity_id scene = id
                        ∧ substring 10 6 (display_id scene) ∈ zones
                        ∧ display_id scene ∉ verified_tiles)
        ∧ (∀ url d, EvGetFileinfo url d ∈ evs →
             d = dir
             ∧ ∃ scene dataset_id,
                 scene ∈ scenes ∧ dataset_id ∈ dataset_id_list
                 ∧ url = EE_DOWNLOAD_URL dataset_id (entity_id scene)
                 ∧ substring 10 6 (display_id scene) ∈ zones
                 ∧ display_id scene ∉ verified_tiles)
  end.
Proof.
  intros Hsearch.
  destruct (get_tile_list grid shp) as [zones|e] eqn:Hzones;
    [|by eapply run_after_grid_error].
  destruct (run_events username password qp grid shp dir verified_tiles zones
              Hzones st scenes st1 Hsearch) as (evs & Htrace & Hevs).
  exists evs. split; [done|]. rewrite Forall_forall in Hevs. split.
  - intros id d ds Hin. apply Hevs in Hin.
    apply run_event_of_loop in Hin as (title & Htitle & Hitem); [|by left].
    inversion Hitem as [| | | | | | | | | |session product Hee Hnext|]; subst.
    apply next_product_Some in Hnext as [Hscene <-].
    apply titles_of_data_for_table in Htitle as (_ & Hzone & Hver).
    split; [done|]. split; [done|]. by exists product.
  - intros url d Hin. apply Hevs in Hin.
    apply run_event_of_loop in Hin as (title & Htitle & Hitem); [|by left].
    inversion Hitem
      as [| | | | | | | | |session product dataset_id Hee Hnext Hid| |]; subst.
    apply next_product_Some in Hnext as [Hscene <-].
    apply titles_of_data_for_table in Htitle as (_ & Hzone & Hver).
    split; [done|]. by exists product, dataset_id.
Qed.

(** X5.  After a search that returned scenes, the run writes to the file
    system only for its work items: whatever it removes is the path
    [os.path.join(dir_downld, display_id + ".tar")] of a work item, and
    whatever it extracts is that archive, into
    [os.path.join(dir_downld, display_id)].  For a display identifier that
    does not begin with a separator these are [dir_downld/display_id.tar]
    and [dir_downld/display_id] (the download directory being given without
    a separator at its end); for one that begins with a separator the join
    drops the download directory, and the paths are [display_id.tar] and
    [display_id] themselves.  (When the grid intersection raises, the run
    raises the same exception and adds nothing.) *)
Theorem file_writes_only_for_work_items (st : state W)
    (scenes : list Scene) (st1 : state W) :
  landsat_search username password qp st = (Returned (Some scenes), st1) →
  match get_tile_list grid shp with
  | Err e => run st = (Raised e, st1)
  | Ok zones =>
      ∃ evs,
        trace (run st).2 = trace st1 ++ evs
        ∧ (∀ path, EvRemove path ∈ evs →
             ∃ scene, scene ∈ scenes
                      ∧ substring 10 6 (display_id scene) ∈ zones
                      ∧ (display_id scene ∉ verified_tiles)
                      ∧ path = PyStr.path_join dir (display_id scene +:+ ".tar")
                      ∧ if PyStr.startswith_sep (display_id scene)
                        then path = display_id scene +:+ ".tar"
                        else dir ≠ EmptyString →
                             PyStr.endswith_sep dir = false →
                             path = dir +:+ "/" +:+ display_id scene +:+ ".tar")
        ∧ (∀ archive dest, EvExtract archive dest ∈ evs →
             ∃ scene, scene ∈ scenes
                      ∧ substring 10 6 (display_id scene) ∈ zones
                      ∧ (display_id scene ∉ verified_tiles)
                      ∧ archive
                        = PyStr.path_join dir (display_id scene +:+ ".tar")
                      ∧ dest = PyStr.path_join dir (display_id scene)
                      ∧ if PyStr.startswith_sep (display_id scene)
                        then archive = display_id scene +:+ ".tar"
                             ∧ dest = display_id scene
                        else dir ≠ EmptyString →
                             PyStr.endswith_sep dir = false →
                             archive
                             = dir +:+ "/" +:+ display_id scene +:+ ".tar"
                             ∧ dest = dir +:+ "/" +:+ display_id scene)
  end.
Proof.
  intros Hsearch.
  destruct (get_tile_list grid shp) as [zones|e] eqn:Hzones;
    [|by eapply run_after_grid_error].
  destruct (run_events username password qp grid shp dir verified_tiles zones
              Hzones st scenes st1 Hsearch) as (evs & Htrace & Hevs).
  exists evs. split; [done|]. rewrite Forall_forall in Hevs. split.
  - intros path Hin. apply Hevs in Hin.
    apply run_event_of_loop in Hin as (title & Htitle & Hitem);
      [|right; by eexists].
    inversion Hitem; subst.
    apply titles_of_data_for_table
      in Htitle as ((scene & Hscene & <-) & Hzone & Hver).
    exists scene. split_and!; try done.
    pose proof (work_item_paths dir (display_id scene)) as Hpaths.
    destruct (PyStr.startswith_sep (display_id scene)); [by destruct Hpaths|].
    intros Hdir Hend. by destruct (Hpaths Hdir Hend).
  - intros archive dest Hin. apply Hevs in Hin.
    apply run_event_of_loop in Hin as (title & Htitle & Hitem); [|by left].
    inversion Hitem; subst.
    apply titles_of_data_for_table
      in Htitle as ((scene & Hscene & <-) & Hzone & Hver).
    exists scene. split_and!; try done.
    pose proof (work_item_paths dir (display_id scene)) as Hpaths.
    destruct (PyStr.startswith_sep (display_id scene)); [done|].
    intros Hdir Hend. by apply Hpaths.
Qed.

End RunProperties.

Section RunResults.
Context {W : Type} `{Collaborators W}.
Context {Geometry : Type} `{GeometryLib Geometry}.
Context (username password : string) (qp : QueryParameters)
  (grid shp : GeoDataFrame Geometry) (dir : string)
  (verified_tiles : list string).

Let run := download_landsat_images (W:=W) username password qp grid shp dir
             verified_tiles.

(** X7.  Whatever happens to the items, the list a run returns is a sublist
    of the work list, hence of the display identifiers of the scenes the
    search returned, in their order: no identifier is added, repeated or
    moved, and every returned identifier has its tile code among the zones
    the grid intersection returned and is not verified. *)
Theorem returned_ids_are_work_items (st : state W) (scenes : list Scene)
    (st1 : state W) (returned : list string) :
  landsat_search username password qp st = (Returned (Some scenes), st1) →
  (run st).1 = Returned returned →
  ∃ zones,
    get_tile_list grid shp = Ok zones
    ∧ returned `sublist_of` (display_id <$> scenes)
    ∧ ∀ id, id ∈ returned →
        substring 10 6 id ∈ zones ∧ id ∉ verified_tiles.
Proof.
  intros Hsearch Hret. unfold run in *.
  destruct (get_tile_list grid shp) as [zones|e] eqn:Hzones.
  2: { by rewrite (run_after_grid_error _ _ _ _ _ _ _ _ _ _ _ Hsearch Hzones)
         in Hret. }
  exists zones. split; [done|].
  set (data := data_for_table scenes zones (list_to_set verified_tiles)).
  assert (returned `sublist_of` titles_of data) as Hsub.
  { rewrite (run_after_search username password qp grid shp dir verified_tiles
               zones Hzones st scenes st1 Hsearch) in Hret. cbv zeta in Hret.
    fold data in Hret.
    destruct (titles_of data) as [|title titles] eqn:Htitles.
    { cbn [fst] in Hret. injection Hret as <-. done. }
    assert (∀ ee, terminates_with (W:=W)
                    (loop_and_report ee scenes qp dir data)
                    (λ t, t `sublist_of` titles_of data)) as Htw.
    { intros ee. unfold loop_and_report.
      eapply tw_bind; [apply tw_titles_loop_sublist; lia|].
      intros t Ht. tw_seq (by apply tw_log). by apply tw_ret. }
    rewrite Htitles in Htw.
    destruct (ee_login username password (world st1)) as [[[]|e] w2];
      [|destruct (is_Exception e); [|done]].
    all: match type of Hret with (loop_and_report ?ee _ _ _ _ ?s).1 = _ =>
           specialize (Htw ee s); by rewrite Hret in Htw
         end. }
  split.
  - etrans; [exact Hsub|]. apply data_for_table_sublist.
  - intros id Hin. eapply sublist_subseteq in Hin; [|exact Hsub].
    by apply titles_of_data_for_table in Hin as (_ & Hzone & Hver).
Qed.

(** The row a status is written to. *)
Lemma find_row_first (rows : list (string * status)) (title : string)
    (k row_num : nat) :
  find_row rows title k = Some row_num →
  k ≤ row_num
  ∧ fst <$> rows !! (row_num - k) = Some title
  ∧ ∀ j, j < row_num - k → fst <$> rows !! j ≠ Some title.
Proof.
  revert k. induction rows as [|row rows IH]; intros k; [done|]. simpl.
  destruct (String.eqb row.1 title) eqn:Heq.
  - intros [= <-]. apply String.eqb_eq in Heq.
    replace (k - k) with 0 by lia. simpl. rewrite Heq.
    split; [done|]. split; [done|]. intros j Hj. lia.
  - intros (Hle & Hrow & Hfirst)%IH. apply String.eqb_neq in Heq.
    split; [lia|]. replace (row_num - k) with (S (row_num - S k)) by lia.
    split; [done|]. intros [|j] Hj; simpl; [congruence|].
    apply Hfirst. lia.
Qed.

(** X8.  Every status the run writes goes to an existing row of the table:
    the first row that carries the display identifier of a work item.  With
    a display identifier that occurs twice in the work list, the later row
    never receives a status.  (When the grid intersection raises there is no
    table: the run raises the same exception and adds nothing.) *)
Theorem status_goes_to_first_row_of_item (st : state W) (scenes : list Scene)
    (st1 : state W) :
  landsat_search username password qp st = (Returned (Some scenes), st1) →
  match get_tile_list grid shp with
  | Err e => run st = (Raised e, st1)
  | Ok zones =>
      ∃ evs,
        trace (run st).2 = trace st1 ++ evs
        ∧ ∀ row_num s, EvTableInsert row_num s ∈ evs →
            ∃ title,
              fst <$> data_for_table scenes zones (list_to_set verified_tiles)
                        !! row_num = Some title
              ∧ ∀ j, j < row_num →
                  fst <$> data_for_table scenes zones
                            (list_to_set verified_tiles) !! j ≠ Some title
  end.
Proof.
  intros Hsearch.
  destruct (get_tile_list grid shp) as [zones|e] eqn:Hzones;
    [|by eapply run_after_grid_error].
  destruct (run_events username password qp grid shp dir verified_tiles zones
              Hzones st scenes st1 Hsearch) as (evs & Htrace & Hevs).
  exists evs. split; [done|]. rewrite Forall_forall in Hevs.
  intros row_num s Hin. apply Hevs in Hin.
  destruct Hin
    as [Heq|[[n Heq]|[Heq|[Heq|[Heq|[Heq|[[e Heq]|[Hloop|[n Heq]]]]]]]]];
    try discriminate Heq.
  destruct Hloop as (title & Htitle & Hitem).
  inversion Hitem as [| | | | | |n s' Hrow| | | | |]; subst.
  apply find_row_first in Hrow as (_ & Hrow & Hfirst).
  rewrite Nat.sub_0_r in Hrow, Hfirst. by exists title.
Qed.

End RunResults.

(** ** One work item and the loop *)

(** *** What a piece of code can raise *)

Section RaisesOnly.
Context {W : Type}.

Lemma ro_ret {A} (a : A) (P : exn → Prop) : raises_only (W:=W) (ret a) P.
Proof. by intros st e. Qed.

Lemma ro_raise {A} (e : exn) (P : exn → Prop) :
  P e → raises_only (W:=W) (A:=A) (raise e) P.
Proof. intros He st e' [= <-]. done. Qed.

Lemma ro_log (ev : event) (P : exn → Prop) : raises_only (W:=W) (log ev) P.
Proof. by intros st e. Qed.

Lemma ro_call {A} (ev : event) (op : W → outcome A * W) (P : exn → Prop) :
  (∀ w e w', op w = (Err e, w') → P e) → raises_only (call ev op) P.
Proof.
  intros Hop st e. unfold call.
  destruct (op (world st)) as [[a|e'] w] eqn:Hw; simpl; [done|].
  intros [= <-]. by eapply Hop.
Qed.

Lemma ro_bind {A B} (m : M (W:=W) A) (k : A → M B) (P : exn → Prop) :
  raises_only m P → (∀ a, raises_only (k a) P) → raises_only (bind m k) P.
Proof.
  intros Hm Hk st e. unfold bind. specialize (Hm st).
  destruct (m st) as [[a|e'|] st']; simpl in *; [apply Hk| |done].
  intros [= <-]. by apply Hm.
Qed.

(** A bare [except:] lets through only what its handler raises. *)
Lemma ro_try {A} (m : M (W:=W) A) (h : exn → M A) (P : exn → Prop) :
  (∀ e, raises_only (h e) P) → raises_only (try_except m h) P.
Proof.
  intros Hh st e. unfold try_except.
  destruct (m st) as [[a|e'|] st']; simpl; [done|apply Hh|done].
Qed.

(** [except Exception] lets through what its handler raises and, of what the
    body raises, the exceptions outside [Exception]. *)
Lemma ro_try_Exception {A} (m : M (W:=W) A) (h : exn → M A)
    (P Q : exn → Prop) :
  raises_only m P →
  (∀ e, raises_only (h e) Q) →
  raises_only (try_except_Exception m h)
    (λ e, (is_Exception e = false ∧ P e) ∨ Q e).
Proof.
  intros Hm Hh st e. unfold try_except_Exception. specialize (Hm st).
  destruct (m st) as [[a|e'|] st']; simpl in *; [done| |done].
  destruct (is_Exception e') eqn:He'.
  - intros Hr. right. by eapply Hh.
  - intros [= <-]. left. split; [done|by apply Hm].
Qed.

End RaisesOnly.

Section ItemRaises.
Context {W : Type} `{Collaborators W}.
Context (ee : option EarthExplorer) (query : list Scene)
  (qp : QueryParameters) (dir : string) (data : list (string * status)).

Lemma ro_set_status (title : string) (s : status) (P : exn → Prop) :
  raises_only (W:=W) (set_status data title s) P.
Proof.
  unfold set_status. destruct (find_row data title 0); [|apply ro_ret].
  by intros st e.
Qed.

Lemma ro_on_ee {A} (m : M (W:=W) A) (P : exn → Prop) :
  P AttributeError → raises_only m P → raises_only (on_ee ee m) P.
Proof. intros HP Hm. destruct ee; [done|]. by apply ro_raise. Qed.

(** The probe loop raises nothing, whatever the metadata endpoint raises. *)
Lemma ro_probe_loop (product_id : string) (ids : list string)
    (file_size : option Z) (P : exn → Prop) :
  raises_only (W:=W) (probe_loop ee product_id dir ids file_size) P.
Proof.
  induction ids as [|id ids IH]; simpl; [apply ro_ret|].
  apply ro_bind.
  - apply ro_try. intros e. apply ro_ret.
  - intros [[filename size]|]; [apply ro_ret|apply IH].
Qed.

(** What the body of the [try] of an item raises derives from [Exception]
    or comes from the download, the extraction or the removal of the
    archive. *)
Lemma ro_download_and_extract (title archive_name : string) :
  raises_only (W:=W)
    (download_and_extract ee query qp dir data title archive_name)
    (λ e, is_Exception e = true ∨ raised_by_transfer e).
Proof.
  unfold download_and_extract.
  apply ro_bind.
  { destruct (next_product query title); [apply ro_ret|apply ro_raise; by left]. }
  intros product. apply ro_bind; [apply ro_probe_loop|intros size].
  apply ro_bind; [apply ro_log|intros _].
  apply ro_bind; [apply ro_set_status|intros _].
  apply ro_bind; [apply ro_log|intros _].
  apply ro_bind.
  { apply ro_on_ee; [by left|]. apply ro_call. intros w e w' Hw.
    right. left. by eexists _, _, _, _, _. }
  intros _. apply ro_bind; [apply ro_log|intros _].
  apply ro_bind; [apply ro_set_status|intros _].
  apply ro_bind.
  { apply ro_call. intros w e w' Hw. right. right. left.
    by eexists _, _, _, _. }
  intros _. apply ro_bind.
  { apply ro_call. intros w e w' Hw. right. right. right.
    by eexists _, _, _. }
  intros _. apply ro_set_status.
Qed.

End ItemRaises.

Section ItemPaths.
Context {W : Type} `{Collaborators W}.

Lemma call_ok {A} (ev : event) (op : W → outcome A * W) (st : state W)
    (a : A) (w : W) :
  op (world st) = (Ok a, w) →
  call ev op st = (Returned a, mkState w (trace st ++ [ev]) (table st)).
Proof. intros Hop. unfold call. by rewrite Hop. Qed.

Lemma call_err {A} (ev : event) (op : W → outcome A * W) (st : state W)
    (e : exn) (w : W) :
  op (world st) = (Err e, w) →
  call ev op st = (Raised e, mkState w (trace st ++ [ev]) (table st)).
Proof. intros Hop. unfold call. by rewrite Hop. Qed.

Lemma py_list_remove_Some (title : string) (titles : list string) :
  title ∈ titles → ∃ titles', py_list_remove title titles = Some titles'.
Proof.
  induction titles as [|t titles IH]; [by intros ?%elem_of_nil|].
  simpl. destruct (String.eqb t title) eqn:Heq; [by eexists|].
  intros [->|Hin]%elem_of_cons.
  - by rewrite String.eqb_refl in Heq.
  - destruct (IH Hin) as [titles' ->]. by eexists.
Qed.

Context (ee : option EarthExplorer) (query : list Scene)
  (qp : QueryParameters) (dir : string) (data : list (string * status)).

(** An item found in the storage directory: one listing, one message, one
    status, and the list is returned as it is. *)
Lemma process_title_in_storage (title : string) (titles names : list string)
    (st : state W) (w1 : W) :
  os_listdir dir (world st) = (Ok names, w1) →
  py_in title names = true →
  ∃ tbl,
    process_title ee query qp dir data title titles st
    = (Returned titles,
       mkState w1
         (trace st ++ [EvListdir dir; EvPrint (MsgInFolder title)]
            ++ status_events data title in_storage) tbl).
Proof.
  intros Hls Hin. unfold process_title.
  rewrite (bind_returned _ _ _ _ _ (call_ok _ _ _ _ _ Hls)). rewrite Hin.
  unfold print. rewrite bind_log. cbn [world trace table].
  match goal with
  | |- context [bind (set_status data title in_storage) ?k ?s] =>
      destruct (set_status_run data title in_storage s) as [tbl Hst];
      rewrite (bind_returned _ k _ _ _ Hst)
  end.
  exists tbl. unfold ret. cbn [world trace]. by rewrite <- !app_assoc.
Qed.

(** X9.  When the storage directory lists every item of the work list, and
    listing it leaves the world as it is, the loop returns the whole list
    and leaves the world untouched: it only lists the directory, prints and
    writes the status [in_storage]; it makes no call to the download
    service, with or without a session. *)
Theorem stored_items_need_no_download (fuel i : nat) (titles names : list string)
    (st : state W) :
  os_listdir dir (world st) = (Ok names, world st) →
  (∀ title, title ∈ titles → py_in title names = true) →
  length titles - i ≤ fuel →
  ∃ tbl evs,
    titles_loop fuel ee query qp dir data i titles st
    = (Returned titles, mkState (world st) (trace st ++ evs) tbl)
    ∧ Forall (λ ev, ev = EvListdir dir
                    ∨ (∃ title, title ∈ titles ∧ ev = EvPrint (MsgInFolder title))
                    ∨ ∃ row_num, ev = EvTableInsert row_num in_storage) evs.
Proof.
  intros Hls Hall. revert i st Hls.
  induction fuel as [|fuel IH]; intros i st Hls Hfuel; simpl.
  - destruct (titles !! i) as [title|] eqn:Hi.
    { apply lookup_lt_Some in Hi. lia. }
    exists (table st), []. rewrite app_nil_r. by destruct st.
  - destruct (titles !! i) as [title|] eqn:Hi.
    2: { exists (table st), []. rewrite app_nil_r. by destruct st. }
    assert (title ∈ titles) as Hin by by eapply list_elem_of_lookup_2.
    destruct (process_title_in_storage title titles names st (world st) Hls
                (Hall title Hin)) as [tbl Hitem].
    rewrite (bind_returned _ _ _ _ _ Hitem).
    match goal with |- context [titles_loop fuel _ _ _ _ _ (S i) titles ?s] =>
      destruct (IH (S i) s) as (tbl' & evs & Hloop & Hevs);
        [exact Hls|apply lookup_lt_Some in Hi; lia|]
    end.
    rewrite Hloop. cbn [world trace].
    exists tbl', ([EvListdir dir; EvPrint (MsgInFolder title)]
                  ++ status_events data title in_storage ++ evs).
    split; [by rewrite <- !app_assoc|].
    apply Forall_cons. split; [by left|].
    apply Forall_cons. split; [right; left; by exists title|].
    apply Forall_app. split; [|done].
    unfold status_events. destruct (find_row data title 0) as [n|];
      [|by apply Forall_nil].
    apply Forall_cons. split; [right; right; by exists n|by apply Forall_nil].
Qed.

(** X10.  Once the storage check of an item has gone through (the item is
    not in storage and has no stale archive), no exception that derives from
    [Exception] leaves the body of the loop: whatever of that kind the
    probe, the download, the extraction and the removal of the archive
    raise, the body returns, with the list as it was or with the first copy
    of the item removed.  What can leave the body is an exception outside
    [Exception] ([KeyboardInterrupt], [SystemExit]), and only one raised by
    the download, the extraction or the removal of the archive: raised by a
    metadata probe, it is swallowed by the bare [except:] of the probe. *)
Theorem item_failure_is_contained (title : string) (titles names names' : list string)
    (st : state W) (w1 w2 : W) :
  os_listdir dir (world st) = (Ok names, w1) →
  py_in title names = false →
  os_listdir dir w1 = (Ok names', w2) →
  py_in (title +:+ ".tar") names' = false →
  title ∈ titles →
  match (process_title ee query qp dir data title titles st).1 with
  | Returned titles' =>
      titles' = titles ∨ py_list_remove title titles = Some titles'
  | Raised e => is_Exception e = false ∧ raised_by_transfer e
  | OutOfFuel => False
  end.
Proof.
  intros Hls Hout Hls' Hstale Hin.
  pose proof (tw_process_title_result ee query qp dir data title titles st)
    as Hres.
  destruct (process_title ee query qp dir data title titles st)
    as [[t|e|] s'] eqn:Hp; cbn [fst] in *; [done| |done].
  unfold process_title in Hp.
  rewrite (bind_returned _ _ _ _ _ (call_ok _ _ _ _ _ Hls)) in Hp.
  rewrite Hout in Hp. cbv beta iota zeta in Hp.
  erewrite bind_returned in Hp; [|apply call_ok; exact Hls'].
  rewrite Hstale in Hp. cbv beta iota in Hp.
  rewrite (bind_returned (ret tt) _ _ tt _ eq_refl) in Hp.
  unfold print at 1 in Hp. rewrite bind_log in Hp.
  destruct (py_list_remove_Some title titles Hin) as [titles' Hrm].
  rewrite Hrm in Hp.
  match type of Hp with try_except_Exception ?m ?h ?s = _ =>
    assert (raises_only (try_except_Exception m h)
              (λ e, (is_Exception e = false
                     ∧ (is_Exception e = true ∨ raised_by_transfer e))
                    ∨ False)) as Hro
  end.
  { apply ro_try_Exception.
    - apply ro_bind; [apply ro_download_and_extract|intros _; apply ro_ret].
    - intros e'. apply ro_bind; [apply ro_log|intros _].
      apply ro_bind; [apply ro_ret|intros t].
      apply ro_bind; [apply ro_set_status|intros _; apply ro_ret]. }
  match type of Hp with ?m ?s = _ => specialize (Hro s e) end.
  rewrite Hp in Hro.
  destruct (Hro eq_refl) as [[He [He'|Htransfer]]|[]]; [congruence|done].
Qed.

End ItemPaths.

Section StorageErrors.
Context {W : Type} `{Collaborators W}.
Context {Geometry : Type} `{GeometryLib Geometry}.

(** X11.  The storage check stands outside the [try] of the item: when the
    listing of the download directory raises at the first work item, the
    run is aborted: it raises and returns no list.  What it raises is the
    exception of the listing, unless the login to the download service
    before it was itself ended by an exception outside [Exception], which
    then is what leaves [download_landsat_images]. *)
Theorem storage_error_aborts_run (username password : string)
    (qp : QueryParameters) (grid shp : GeoDataFrame Geometry) (dir : string)
    (verified_tiles : list string) (st : state W) (scenes : list Scene)
    (st1 : state W) (zones : list string) (e : exn) (w3 : W) :
  landsat_search username password qp st = (Returned (Some scenes), st1) →
  get_tile_list grid shp = Ok zones →
  titles_of (data_for_table scenes zones (list_to_set verified_tiles)) ≠ [] →
  os_listdir dir (ee_login username password (world st1)).2 = (Err e, w3) →
  ∃ e',
    (download_landsat_images username password qp grid shp dir verified_tiles
       st).1 = Raised e'
    ∧ ((∀ e0, (ee_login username password (world st1)).1 = Err e0 →
              is_Exception e0 = true) → e' = e).
Proof.
  intros Hsearch Hzones Hne Hls.
  rewrite (run_after_search username password qp grid shp dir verified_tiles
             zones Hzones st scenes st1 Hsearch). cbv zeta.
  unfold loop_and_report.
  destruct (titles_of _) as [|title titles]; [done|].
  cbn [length titles_loop lookup list_lookup]. unfold process_title.
  destruct (ee_login username password (world st1)) as [[[]|e0] w2];
    [|destruct (is_Exception e0) eqn:He0]; cbn [fst snd] in *.
  3: { exists e0. split; [done|]. intros Hall.
       specialize (Hall e0 eq_refl). congruence. }
  all: exists e; split; [|done].
  all: erewrite bind_raised; [done|].
  all: erewrite bind_raised; [done|].
  all: erewrite bind_raised; [done|].
  all: apply call_err; exact Hls.
Qed.

(** X12.  The removal of a stale archive stands outside the [try] as well:
    when the item is not in storage, its archive [display_id.tar] is, and
    removing that archive raises, the exception leaves the body of the loop
    after two listings and the call, and no status is written for the
    item. *)
Theorem stale_archive_error_is_not_caught (ee : option EarthExplorer)
    (query : list Scene) (qp : QueryParameters) (dir : string)
    (data : list (string * status)) (title : string)
    (titles names names' : list string) (st : state W) (w1 w2 w3 : W)
    (e : exn) :
  os_listdir dir (world st) = (Ok names, w1) →
  py_in title names = false →
  os_listdir dir w1 = (Ok names', w2) →
  py_in (title +:+ ".tar") names' = true →
  os_remove (PyStr.path_join dir (title +:+ ".tar")) w2 = (Err e, w3) →
  process_title ee query qp dir data title titles st
  = (Raised e,
     mkState w3
       (trace st ++ [EvListdir dir; EvListdir dir;
                     EvRemove (PyStr.path_join dir (title +:+ ".tar"))])
       (table st)).
Proof.
  intros Hls Hout Hls' Hstale Hrm. unfold process_title.
  rewrite (bind_returned _ _ _ _ _ (call_ok _ _ _ _ _ Hls)). rewrite Hout.
  cbv beta iota zeta.
  erewrite bind_returned; [|apply call_ok; exact Hls']. rewrite Hstale.
  cbv beta iota.
  erewrite bind_raised; [|apply call_err; exact Hrm].
  cbn [world trace table]. by rewrite <- !app_assoc.
Qed.

End StorageErrors.

Section NothingDropped.
Context {W : Type} `{Collaborators W}.
Context (ee : option EarthExplorer) (query : list Scene)
  (qp : QueryParameters) (dir : string) (data : list (string * status)).

Lemma attempted_adds (P : event → Prop) (title : string) (s s' : state W) :
  adds P s s' → attempted title (trace s) → attempted title (trace s').
Proof.
  intros (evs & -> & _) [Hin|Hin]; [left|right]; apply elem_of_app; by left.
Qed.

(** The [try] statement of an item only adds to the trace. *)
Lemma item_try_adds (title : string) (titles : list string) :
  respects (W:=W) (adds (λ _, True))
    (try_except_Exception
       (bind (download_and_extract ee query qp dir data title (title +:+ ".tar"))
             (λ _, ret titles))
       (λ e, bind (print (MsgItemError title e))
               (λ _, bind (match py_list_remove title titles with
                           | Some titles => ret titles
                           | None => raise ValueError
                           end)
                       (λ titles, bind (set_status data title error)
                                    (λ _, ret titles))))).
Proof.
  pose proof (adds_reacts (W:=W) (λ _, True)) as HR.
  apply rs_try_Exception; [apply _| |intros e].
  - rs_seq (apply tw_download_and_extract)
           (by apply (rs_download_and_extract _ _ HR)).
    apply rs_ret, _.
  - rs_seq (by apply tw_log) (by apply (reacts_log _ _ HR)).
    destruct (py_list_remove title titles) as [titles'|].
    + rs_seq (by apply tw_ret) (apply rs_ret, _).
      rs_seq (apply tw_set_status) (by apply (rs_set_status _ _ HR)).
      apply rs_ret, _.
    + eapply rs_bind with (Q := λ _, False);
        [apply _|apply tw_raise|apply rs_raise, _|by intros ? []].
Qed.

(** When the body of the loop returns, the item was attempted. *)
Lemma process_title_attempted (title : string) (titles titles' : list string)
    (st st' : state W) :
  process_title ee query qp dir data title titles st = (Returned titles', st') →
  attempted title (trace st').
Proof.
  intros Hp. unfold process_title in Hp.
  destruct (os_listdir dir (world st)) as [[names|e] w1] eqn:Hls.
  2: { erewrite bind_raised in Hp by (apply call_err; exact Hls). done. }
  erewrite bind_returned in Hp by (apply call_ok; exact Hls).
  destruct (py_in title names).
  { unfold print in Hp. rewrite bind_log in Hp.
    match type of Hp with
    | context [bind (set_status data title in_storage) ?k ?s] =>
        destruct (set_status_run data title in_storage s) as [tbl Hst];
        rewrite (bind_returned _ k _ _ _ Hst) in Hp
    end.
    injection Hp as _ <-. left. cbn [trace].
    apply elem_of_app. left. apply elem_of_app. right. apply list_elem_of_here. }
  cbv zeta in Hp.
  match type of Hp with bind _ _ ?s = _ => set (s1 := s) in Hp end.
  destruct (os_listdir dir w1) as [[names'|e] w2] eqn:Hls'.
  2: { erewrite bind_raised in Hp by (apply call_err; exact Hls'). done. }
  erewrite bind_returned in Hp by (apply call_ok; exact Hls').
  assert (∃ s2, try_except_Exception
                  (bind (download_and_extract ee query qp dir data title
                           (title +:+ ".tar")) (λ _, ret titles))
                  (λ e, bind (print (MsgItemError title e))
                          (λ _, bind (match py_list_remove title titles with
                                      | Some titles => ret titles
                                      | None => raise ValueError
                                      end)
                                  (λ titles, bind (set_status data title error)
                                               (λ _, ret titles))))
                  (mkState (world s2)
                     (trace s2 ++ [EvPrint (MsgMustDownload title)])
                     (table s2))
                = (Returned titles', st')) as (s2 & Htry).
  { destruct (py_in (title +:+ ".tar") names').
    - destruct (os_remove (PyStr.path_join dir (title +:+ ".tar")) w2)
        as [[[]|e] w3] eqn:Hrm.
      2: { erewrite bind_raised in Hp by (apply call_err; exact Hrm). done. }
      erewrite bind_returned in Hp by (apply call_ok; exact Hrm).
      by exists (mkState w3
                   ((trace s1 ++ [EvListdir dir])
                    ++ [EvRemove (PyStr.path_join dir (title +:+ ".tar"))])
                   (table s1)).
    - by exists (mkState w2 (trace s1 ++ [EvListdir dir]) (table s1)). }
  match type of Htry with try_except_Exception ?m ?h ?s = _ =>
    pose proof (item_try_adds title titles s) as Hadds;
    unfold respects in Hadds; rewrite Htry in Hadds
  end.
  eapply attempted_adds; [exact Hadds|].
  right. cbn [trace]. apply elem_of_app. right. apply list_elem_of_here.
Qed.

(** X13.  If the loop returns a list as long as the work list, then nothing
    was dropped: the returned list is the work list, and every item of it was
    attempted, its storage check made and answered. *)
Theorem nothing_dropped_means_all_attempted (titles titles' : list string)
    (st st' : state W) :
  titles_loop (length titles) ee query qp dir data 0 titles st
  = (Returned titles', st') →
  length titles' = length titles →
  titles' = titles ∧ ∀ title, title ∈ titles → attempted title (trace st').
Proof.
  assert (∀ fuel i (st : state W),
            length titles - i ≤ fuel →
            titles_loop fuel ee query qp dir data i titles st
            = (Returned titles', st') →
            length titles' = length titles →
            titles' = titles
            ∧ ∀ j title, i ≤ j → titles !! j = Some title →
                attempted title (trace st')) as Hgen.
  { induction fuel as [|fuel IH]; intros i s Hfuel Hloop Hlen; simpl in Hloop.
    - destruct (titles !! i) as [title|] eqn:Hi; [done|].
      injection Hloop as <- <-. split; [done|]. intros j title Hj Hjt.
      apply lookup_ge_None_1 in Hi. apply lookup_lt_Some in Hjt. lia.
    - destruct (titles !! i) as [title|] eqn:Hi.
      2: { injection Hloop as <- <-. split; [done|]. intros j t Hj Hjt.
           apply lookup_ge_None_1 in Hi. apply lookup_lt_Some in Hjt. lia. }
      pose proof (lookup_lt_Some _ _ _ Hi) as Hlt.
      pose proof (tw_process_title_result ee query qp dir data title titles s)
        as Hres.
      destruct (process_title ee query qp dir data title titles s)
        as [[t1|e|] s1] eqn:Hp; unfold bind in Hloop; rewrite Hp in Hloop;
        [|done..].
      cbn [fst] in Hres.
      pose proof (tw_titles_loop_sublist fuel ee query qp dir data (S i) t1)
        as Hsub.
      destruct Hres as [->|Hrm].
      + destruct (IH (S i) s1) as [Heq Hrest]; [lia|done..|].
        split; [done|]. intros j t Hj Hjt.
        destruct (decide (j = i)) as [->|Hne]; [|apply (Hrest j); [lia|done]].
        assert (t = title) as -> by congruence.
        pose proof (rs_titles_loop _ _ (adds_reacts (λ _, True)) ee query qp
                      dir data fuel (S i) titles (λ _ _ _ _, I) s1) as Hadds.
        rewrite Hloop in Hadds. cbn [snd] in Hadds.
        eapply attempted_adds; [exact Hadds|].
        by eapply process_title_attempted.
      + apply py_list_remove_length in Hrm.
        specialize (Hsub ltac:(lia) s1). rewrite Hloop in Hsub. cbn [fst] in Hsub.
        apply sublist_length in Hsub. lia. }
  intros Hloop Hlen.
  destruct (Hgen (length titles) 0 st ltac:(lia) Hloop Hlen) as [Heq Hall].
  split; [done|]. intros title (j & Hj)%list_elem_of_lookup_1.
  apply (Hall j); [lia|done].
Qed.

End NothingDropped.

Section LoginCount.
Context {W : Type} `{Collaborators W}.
Context {Geometry : Type} `{GeometryLib Geometry}.
Context (username password : string) (qp : QueryParameters)
  (grid shp : GeoDataFrame Geometry) (dir : string)
  (verified_tiles : list string).

Lemma landsat_search_logins (st : state W) :
  ∃ query st1 evs,
    landsat_search username password qp st = (Returned query, st1)
    ∧ trace st1 = trace st ++ evs
    ∧ length (List.filter is_api_login evs) = 1
    ∧ List.filter is_ee_login evs = [].
Proof.
  rewrite landsat_search_paths.
  destruct (api_login username password (world st)) as [[[]|e] w1];
    [destruct (api_search qp w1) as [[found|e] w2];
     [destruct (api_logout w2) as [[[]|e] w3];
      [destruct found as [|scene found]|]|]|destruct (is_Exception e)].
  all: by eexists _, _, _.
Qed.

Lemma filter_none (f : event → bool) (evs : list event) :
  Forall (λ ev, f ev = false) evs → List.filter f evs = [].
Proof.
  induction 1 as [|ev evs Hev _ IH]; [done|]. simpl. by rewrite Hev.
Qed.

(** The end of the orchestration respects every relation that reacts to
    the events of the items and to the last line. *)
Lemma rs_loop_and_report (R : relation (state W)) (E : event → Prop)
    (HR : reacts R E) (ee : option EarthExplorer) (scenes : list Scene)
    (data : list (string * status)) :
  (∀ title ev, title ∈ titles_of data →
     item_event ee scenes qp dir data title ev → E ev) →
  (∀ n, E (EvPrint (MsgTotalDownloaded n))) →
  respects R (loop_and_report ee scenes qp dir data).
Proof.
  intros Hitems Hlast. unfold loop_and_report.
  pose proof (reacts_preorder R E HR) as Hpre.
  apply rs_bind with (Q := λ _, True); [apply _| | |].
  - apply titles_loop_fuel. lia.
  - by eapply rs_titles_loop.
  - intros titles' _.
    eapply rs_bind with (Q := λ _, True);
      [apply _|by apply tw_log| |intros _ _; apply rs_ret, _].
    apply (reacts_log R E HR), Hlast.
Qed.

(** X14.  In one run the orchestration logs in to the catalog exactly once
    and to the download service at most once: the session of the download
    service is made before the loop and used for every item; no item makes
    the code log in again, not even after a failure. *)
Theorem one_login_per_service (st : state W) :
  ∃ evs,
    trace (download_landsat_images username password qp grid shp dir
             verified_tiles st).2 = trace st ++ evs
    ∧ length (List.filter is_api_login evs) = 1
    ∧ length (List.filter is_ee_login evs) ≤ 1.
Proof.
  destruct (landsat_search_logins st)
    as (query & st1 & evs0 & Hsearch & Htrace & Hapi & Hee).
  destruct (get_tile_list grid shp) as [zones|e] eqn:Hzones.
  2: { rewrite (run_after_grid_error _ _ _ _ _ _ _ _ _ _ _ Hsearch Hzones).
       exists evs0. rewrite Hapi, Hee. split; [done|]. simpl. lia. }
  destruct query as [scenes|].
  2: { rewrite (run_after_failed_search _ _ _ _ _ _ _ _ _ _ Hsearch Hzones).
       cbn [snd trace]. exists (evs0 ++ [EvPrint (MsgZones zones)]).
       rewrite Htrace, <- app_assoc, !List.filter_app, !length_app, Hapi, Hee.
       split; [done|]. simpl. lia. }
  rewrite (run_after_search username password qp grid shp dir verified_tiles
             zones Hzones st scenes st1 Hsearch). cbv zeta.
  destruct (titles_of _) as [|title titles] eqn:Htitles.
  { cbn [snd trace]. eexists. rewrite Htrace, <- app_assoc.
    split; [reflexivity|].
    rewrite !List.filter_app, !length_app, Hapi, Hee. simpl. lia. }
  rewrite <- Htitles.
  destruct (ee_login username password (world st1)) as [[[]|e] w2];
    [|destruct (is_Exception e)].
  3: { cbn [snd trace]. eexists. rewrite Htrace, <- app_assoc.
       split; [reflexivity|].
       rewrite !List.filter_app, !length_app, Hapi, Hee. simpl. lia. }
  all: match goal with |- context [(loop_and_report ?ee ?sc ?q ?d ?dt ?s).2] =>
         destruct (rs_loop_and_report
                     (adds (λ ev, is_api_login ev = false
                                  ∧ is_ee_login ev = false)) _
                     (adds_reacts _) ee sc dt) with s
           as (evs & Hloop & Hevs);
           [by intros t ev _ Hev; inversion Hev|done|]
       end.
  all: rewrite Hloop; cbn [trace]; eexists; rewrite Htrace, <- !app_assoc.
  all: split; [reflexivity|].
  all: rewrite !List.filter_app, !length_app, Hapi, Hee.
  all: rewrite (filter_none is_api_login evs), (filter_none is_ee_login evs);
    [cbn; split; lia
    |eapply Forall_impl; [exact Hevs|]; by intros ev [_ ?]
    |eapply Forall_impl; [exact Hevs|]; by intros ev [? _]].
Qed.

End LoginCount.

(** ** A run without a session of the download service *)

Section FailedLogin.
Context {W : Type} `{Collaborators W}.
Context {Geometry : Type} `{GeometryLib Geometry}.
Context (username password : string) (qp : QueryParameters)
  (grid shp : GeoDataFrame Geometry) (dir : string)
  (verified_tiles : list string).

Let run := download_landsat_images (W:=W) username password qp grid shp dir
             verified_tiles.

Lemma adds_trace_grows {A} (P : event → Prop) (m : M (W:=W) A) :
  respects (adds P) m → trace_grows m.
Proof. intros Hm st. destruct (Hm st) as (evs & -> & _). by apply prefix_app_r. Qed.

Lemma bind_prefix {A B} (m : M (W:=W) A) (k : A → M B) (st : state W)
    (l : list event) :
  l `prefix_of` trace (m st).2 → (∀ a, trace_grows (k a)) →
  l `prefix_of` trace (bind m k st).2.
Proof.
  intros Hl Hk. unfold bind.
  destruct (m st) as [[a|e|] st']; simpl in *; [|done..].
  etrans; [exact Hl|apply Hk].
Qed.

(** The body of the loop begins with the listing of the download
    directory. *)
Lemma process_title_first_listing (ee : option EarthExplorer)
    (query : list Scene) (data : list (string * status)) (title : string)
    (titles : list string) (st : state W) :
  (trace st ++ [EvListdir dir])
    `prefix_of` trace (process_title ee query qp dir data title titles st).2.
Proof.
  unfold process_title. apply bind_call_prefix. intros names.
  destruct (py_in title names).
  { apply tg_bind; [apply tg_log|intros _].
    apply tg_bind; [apply tg_set_status|intros _]. apply tg_ret. }
  apply tg_bind; [apply tg_call|intros names'].
  apply tg_bind; [destruct (py_in _ names'); [apply tg_call|apply tg_ret]|].
  intros _. apply tg_bind; [apply tg_log|intros _].
  eapply adds_trace_grows, item_try_adds.
Qed.

(** With a work list that is not empty, the end of the orchestration begins
    with the storage check of the first item. *)
Lemma loop_and_report_first_listing (ee : option EarthExplorer)
    (scenes : list Scene) (data : list (string * status)) (st : state W) :
  titles_of data ≠ [] →
  (trace st ++ [EvListdir dir])
    `prefix_of` trace (loop_and_report ee scenes qp dir data st).2.
Proof.
  intros Hne. unfold loop_and_report.
  destruct (titles_of data) as [|title titles]; [done|].
  cbn [length titles_loop lookup list_lookup].
  apply bind_prefix.
  - apply bind_prefix; [apply process_title_first_listing|].
    intros titles'. eapply adds_trace_grows.
    by eapply (rs_titles_loop _ _ (adds_reacts (λ _, True))).
  - intros titles'. apply tg_bind; [apply tg_log|intros _; apply tg_ret].
Qed.

(** X6.  When the login to the download service raises an exception that
    derives from [Exception], the run is not stopped: [ee] is [None], and
    the run goes on with the loop over the work list, which begins with the
    storage check of the first item.  Whatever the work list and the
    storage directory, it then makes no call to the download service and
    extracts nothing. *)
Theorem failed_ee_login_makes_no_service_call (st : state W)
    (scenes : list Scene) (st1 : state W) (zones : list string) (e : exn)
    (w2 : W) :
  landsat_search username password qp st = (Returned (Some scenes), st1) →
  get_tile_list grid shp = Ok zones →
  titles_of (data_for_table scenes zones (list_to_set verified_tiles)) ≠ [] →
  ee_login username password (world st1) = (Err e, w2) →
  is_Exception e = true →
  let data := data_for_table scenes zones (list_to_set verified_tiles) in
  let after_login :=
    trace st1 ++ [EvPrint (MsgZones zones);
                  EvPrint (MsgAfterFilter (length (titles_of data)));
                  EvInformationTable data;
                  EvEELogin username password;
                  EvPrint (MsgEELoginError e)] in
  ∃ evs,
    run st = loop_and_report None scenes qp dir data
               (mkState w2 after_login data)
    ∧ trace (run st).2 = after_login ++ [EvListdir dir] ++ evs
    ∧ Forall (λ ev, is_download_service_call ev = false) evs.
Proof.
  intros Hsearch Hzones Hne Hlogin He. cbv zeta.
  set (data := data_for_table scenes zones (list_to_set verified_tiles)) in *.
  assert (run st
          = loop_and_report None scenes qp dir data
              (mkState w2
                 (trace st1
                  ++ [EvPrint (MsgZones zones);
                      EvPrint (MsgAfterFilter (length (titles_of data)));
                      EvInformationTable data; EvEELogin username password;
                      EvPrint (MsgEELoginError e)]) data)) as Hrun.
  { unfold run.
    rewrite (run_after_search username password qp grid shp dir verified_tiles
               zones Hzones st scenes st1 Hsearch). cbv zeta. fold data.
    destruct (titles_of data) as [|title titles]; [done|].
    rewrite Hlogin, He. by rewrite <- app_assoc. }
  rewrite Hrun.
  match goal with |- context [loop_and_report _ _ _ _ _ ?s] =>
    set (s2 := s) in *
  end.
  destruct (loop_and_report_first_listing None scenes data s2 Hne)
    as [evs Hevs].
  exists evs. split; [done|]. split; [by rewrite Hevs, <- app_assoc|].
  destruct (rs_loop_and_report qp dir
              (adds (λ ev, is_download_service_call ev = false)) _
              (adds_reacts _) None scenes data) with s2
    as (evs' & Hloop & Hno).
  - intros t ev _ Hev. by inversion Hev.
  - done.
  - rewrite Hevs, <- app_assoc in Hloop. apply app_inv_head in Hloop.
    rewrite <- Hloop in Hno. by apply Forall_app in Hno as [_ Hno].
Qed.

End FailedLogin.

(** ** Tile codes and zone identifiers *)

Section TileCodes.
Context {Geometry : Type} `{GeometryLib Geometry}.

Lemma take_length (n : nat) (s : string) :
  String.length (PyStr.take n s) = n `min` String.length s.
Proof.
  revert s. induction n as [|n IH]; intros [|c s]; simpl; try done.
  by rewrite IH.
Qed.

Lemma drop_length (n : nat) (s : string) :
  String.length (PyStr.drop n s) = String.length s - n.
Proof.
  revert s. induction n as [|n IH]; intros [|c s]; simpl; by try lia.
Qed.

(** X15.  The tile code of a display identifier is taken without any bound
    check and never fails: it has the six characters at positions 10 to 15
    when the identifier has at least sixteen characters, it is shorter when
    the identifier is, and it is empty when the identifier has ten
    characters or fewer, so that such a scene matches no zone of six
    characters. *)
Theorem tile_code_length (id : string) :
  String.length (tile_code id) = 6 `min` (String.length id - 10)
  ∧ ∀ i, i < 6 → String.get i (tile_code id) = String.get (10 + i) id.
Proof.
  split; [|intros i Hi; by apply tile_code_get].
  unfold tile_code, PyStr.slice. by rewrite take_length, drop_length.
Qed.

Lemma replace_underscore_no_underscore (s : string) (i : nat) :
  String.get i (PyStr.replace "_" "0" s) ≠ Some "_"%char.
Proof.
  rewrite replace_underscore_get. destruct (String.get i s) as [c|]; [|done].
  simpl. unfold PyStr.zero_for_underscore.
  destruct (Ascii.eqb c "_") eqn:Hc; [done|].
  apply Ascii.eqb_neq in Hc. congruence.
Qed.

Lemma replace_underscore_fixed (s : string) :
  (∀ i, String.get i s ≠ Some "_"%char) → PyStr.replace "_" "0" s = s.
Proof.
  induction s as [|c s IH]; intros Hs; [done|].
  rewrite replace_underscore_cons. unfold PyStr.zero_for_underscore.
  destruct (Ascii.eqb c "_") eqn:Hc.
  - apply Ascii.eqb_eq in Hc. subst. by destruct (Hs 0).
  - rewrite IH; [done|]. intros i. apply (Hs (S i)).
Qed.

(** X16.  When [get_tile_list] returns, it returns at most one identifier
    per grid cell, in the order of the grid, and the empty list exactly when
    no cell intersects the unioned area.  No identifier it returns contains
    an underscore, so transforming an identifier again changes nothing.
    When it raises, it raises the [ValueError] of the reprojection, and the
    coordinate system is missing on one side only. *)
Theorem get_tile_list_shape (grid shp : GeoDataFrame Geometry) :
  match get_tile_list grid shp with
  | Ok zones =>
      ∃ area,
        unioned_area grid shp = Ok area
        ∧ zones `sublist_of` (tile_id <$> features grid)
        ∧ (zones = []
           ↔ ∀ cell, cell ∈ features grid →
               intersects (geometry cell) area = false)
        ∧ ∀ id, id ∈ zones →
            (∀ i, String.get i id ≠ Some "_"%char)
            ∧ PyStr.replace "_" "0" id = id
  | Err e =>
      e = ValueError ∧ crs shp ≠ crs grid
      ∧ (crs shp = None ∨ crs grid = None)
  end.
Proof.
  destruct (get_tile_list grid shp) as [zones|e] eqn:Hzones;
    [|by apply get_tile_list_raises].
  rewrite get_tile_list_filter in Hzones.
  destruct (unioned_area grid shp) as [area|e]; [|done].
  injection Hzones as <-. exists area. split_and!; [done| | |].
  - apply fmap_sublist, sublist_filter.
  - split.
    + intros Hnil%fmap_nil_inv cell Hin.
      destruct (intersects (geometry cell) area) eqn:Hc; [|done].
      assert (cell ∈ filter (λ row, intersects (geometry row) area = true)
                            (features grid)) as Hf
        by by apply list_elem_of_filter.
      rewrite Hnil in Hf. by apply elem_of_nil in Hf.
    + intros Hall. induction (features grid) as [|row rows IH]; [done|].
      rewrite filter_cons, decide_False.
      * apply IH. intros cell Hin. apply Hall. by apply list_elem_of_further.
      * rewrite Hall; [done|apply list_elem_of_here].
  - intros id (cell & -> & _)%list_elem_of_fmap.
    assert (∀ i, String.get i (tile_id cell) ≠ Some "_"%char) as Hno
      by (intros i; apply replace_underscore_no_underscore).
    split; [done|by apply replace_underscore_fixed].
Qed.

End TileCodes.

(** ** The user interface *)

Section GuiFiles.
Context {Geometry : Type} `{GeometryLib Geometry}.

(** The normalisation succeeds exactly on a file that declares a coordinate
    system, and gives a file in [epsg:4326]; on a file that declares none it
    raises the [ValueError] of [to_crs]. *)
Lemma normalised_paths (file : GeoDataFrame Geometry) :
  match Gui.normalised file with
  | Ok file' => is_Some (crs file) ∧ crs file' = Some Gui.crs_file
  | Err e => crs file = None ∧ e = ValueError
  end.
Proof.
  unfold Gui.normalised, frame_to_crs.
  case_bool_decide as Hcrs.
  - destruct (crs file) as [src|]; simpl; [|done]. split; [by eexists|done].
  - rewrite Hcrs. split; [by eexists|done].
Qed.

Lemma normalised_crs (file file' : GeoDataFrame Geometry) :
  Gui.normalised file = Ok file' → crs file' = Some Gui.crs_file.
Proof.
  intros Hn. pose proof (normalised_paths file) as Hp. rewrite Hn in Hp.
  by destruct Hp.
Qed.

Lemma after_action_invariant (f : Gui.ShapefileEntryFrame Geometry)
    (a : Gui.file_action Geometry) :
  Gui.files_invariant f → Gui.files_invariant (Gui.after_action f a).
Proof.
  intros Hf. unfold Gui.after_action.
  destruct a as [file_path read|file_path read];
    unfold Gui.open_shapefile, Gui.open_geojsonfile;
    destruct (Nat.eqb (String.length file_path) 0); try done;
    destruct read as [file|e]; try done;
    destruct (Gui.normalised file) as [file'|e] eqn:Hn; try done.
  - split_and!; simpl; [by right| |done].
    intros ? [= <-]. by eapply normalised_crs.
  - split_and!; simpl; [by left|done|].
    intros ? [= <-]. by eapply normalised_crs.
Qed.

Lemma after_actions_invariant (actions : list (Gui.file_action Geometry))
    (f : Gui.ShapefileEntryFrame Geometry) :
  Gui.files_invariant f → Gui.files_invariant (fold_left Gui.after_action actions f).
Proof.
  revert f. induction actions as [|a actions IH]; intros f Hf; [done|].
  simpl. by apply IH, after_action_invariant.
Qed.

(** X17.  Whatever files are opened, cancelled or fail to load, in whatever
    order, the frame never holds a shapefile and a GeoJSON file at once, and
    the file [get_shapefile] returns is in the coordinate system
    [epsg:4326]; [get_shapefile] never returns [None], and it raises its
    [ValueError] exactly when neither attribute holds a file. *)
Theorem loaded_file_invariant (actions : list (Gui.file_action Geometry)) :
  let f := Gui.after_actions actions in
  (Gui.shapefile f = None ∨ Gui.geojsonfile f = None)
  ∧ Gui.get_shapefile f ≠ Gui.Fine None
  ∧ (∀ file, Gui.get_shapefile f = Gui.Fine (Some file) →
       crs file = Some Gui.crs_file)
  ∧ (Gui.get_shapefile f = Gui.Fails (Gui.GuiValueError Gui.NoFileSelected)
     ↔ Gui.shapefile f = None ∧ Gui.geojsonfile f = None).
Proof.
  cbv zeta.
  assert (Gui.files_invariant (Gui.after_actions actions)) as (Hone & Hshp & Hgeo).
  { apply after_actions_invariant. split_and!; [by left|done..]. }
  unfold Gui.get_shapefile.
  destruct (Gui.shapefile (Gui.after_actions actions)) as [shp|],
           (Gui.geojsonfile (Gui.after_actions actions)) as [geo|].
  all: split_and!; try done.
  all: try (intros file [= <-]; by eauto).
  all: split; [done|]; by intros [? ?].
Qed.

(** X18.  A load replaces what was loaded before, provided the file
    declares a coordinate system: after [open_shapefile] or
    [open_geojsonfile] with a path chosen and a file read, [get_shapefile]
    returns the file just read, in [epsg:4326].  A file that declares no
    coordinate system is read but not loaded: the reprojection raises and
    the frame stays as it was, as it does after a cancelled dialog or a
    failed read. *)
Theorem get_shapefile_returns_last_load (f : Gui.ShapefileEntryFrame Geometry)
    (file_path : string) (file : GeoDataFrame Geometry) (e : exn) :
  file_path ≠ EmptyString →
  match crs file with
  | Some src =>
      ∃ file',
        crs file' = Some Gui.crs_file
        ∧ features file'
          = (if bool_decide (src = Gui.crs_file) then features file
             else map (λ r, mkFeature (Name r)
                              (to_crs src Gui.crs_file (geometry r)))
                      (features file))
        ∧ Gui.get_shapefile
            (Gui.after_action f (Gui.OpenShapefile file_path (Ok file)))
          = Gui.Fine (Some file')
        ∧ Gui.get_shapefile
            (Gui.after_action f (Gui.OpenGeojson file_path (Ok file)))
          = Gui.Fine (Some file')
  | None =>
      Gui.open_shapefile file_path (Ok file) f
      = Gui.Fails (Gui.Other ValueError)
      ∧ Gui.open_geojsonfile file_path (Ok file) f
        = Gui.Fails (Gui.Other ValueError)
      ∧ Gui.after_action f (Gui.OpenShapefile file_path (Ok file)) = f
      ∧ Gui.after_action f (Gui.OpenGeojson file_path (Ok file)) = f
  end
  ∧ Gui.after_action f (Gui.OpenShapefile file_path (Err e)) = f
  ∧ Gui.after_action f (Gui.OpenGeojson file_path (Err e)) = f
  ∧ Gui.after_action f (Gui.OpenShapefile EmptyString (Ok file)) = f
  ∧ Gui.after_action f (Gui.OpenGeojson EmptyString (Ok file)) = f.
Proof.
  intros Hpath. unfold Gui.after_action, Gui.open_shapefile,
    Gui.open_geojsonfile.
  destruct file_path as [|c rest]; [done|]. cbn [String.length Nat.eqb].
  split; [|done]. unfold Gui.normalised, frame_to_crs.
  destruct (crs file) as [src|] eqn:Hcrs.
  - destruct (decide (src = Gui.crs_file)) as [->|Hne].
    + exists file. rewrite bool_decide_true by done.
      rewrite bool_decide_false by (by intros []). by split_and!.
    + rewrite (bool_decide_false (src = _)) by done.
      rewrite (bool_decide_true (Some src ≠ _)) by (by intros [=]).
      eexists. split_and!; [| |reflexivity..]; reflexivity.
  - rewrite bool_decide_true by done. done.
Qed.

End GuiFiles.

Section GuiCallback.
Context {Geometry : Type} `{GeometryLib Geometry}.
Context {W : Type} `{Collaborators W}.
Context (total_bounds : GeoDataFrame Geometry → Z * Z * Z * Z).

Lemma handle_value_error (msg : Gui.value_error) :
  Gui.handle (Gui.GuiValueError msg)
  = Gui.Printed (Gui.ErrorLine (Gui.GuiValueError msg)).
Proof. done. Qed.

Lemma handle_not_success (e : Gui.gui_exn) :
  Gui.handle e ≠ Gui.Printed Gui.AllDownloaded.
Proof.
  unfold Gui.handle.
  destruct (Gui.is_value_error e), (Gui.is_gui_Exception e); done.
Qed.

(** What the handlers make of an exception other than the [ValueError]
    "Shapefile не выбран". *)
Lemma handle_other (e : Gui.gui_exn) :
  e ≠ Gui.GuiValueError Gui.ShapefileNotChosen →
  match Gui.handle e with
  | Gui.Printed line =>
      line ≠ Gui.ErrorLine (Gui.GuiValueError Gui.ShapefileNotChosen)
      ∧ line ≠ Gui.UnexpectedLine (Gui.GuiValueError Gui.ShapefileNotChosen)
  | Gui.Escaped e' => e' = e ∧ Gui.is_gui_Exception e = false
  | Gui.CoreOutOfFuel => False
  end.
Proof.
  intros He. unfold Gui.handle.
  destruct (Gui.is_value_error e); [split; congruence|].
  destruct (Gui.is_gui_Exception e); [split; congruence|done].
Qed.

(** X19.  When an input is missing (no user name, no password, no file
    loaded, or no download directory), [button_callback] calls nothing: the
    state of the world and the trace are as before, and it prints exactly
    one line, which is not the line of success. *)
Theorem missing_input_calls_nothing (ui : Gui.Inputs Geometry)
    (read_grid : outcome (GeoDataFrame Geometry)) (st : state W) :
  Gui.complete ui = false →
  ∃ line,
    Gui.button_callback total_bounds ui read_grid st = (Gui.Printed line, st)
    ∧ line ≠ Gui.AllDownloaded.
Proof.
  unfold Gui.complete, Gui.button_callback. cbv zeta.
  destruct (Nat.eqb (String.length (Gui.entry_name ui)) 0).
  { intros _. rewrite handle_value_error. by eexists. }
  destruct (Nat.eqb (String.length (Gui.entry_pass ui)) 0).
  { intros _. rewrite handle_value_error. by eexists. }
  unfold Gui.get_shapefile, Gui.get_selected_directory.
  destruct (Gui.shapefile (Gui.files ui)) as [shp|],
           (Gui.geojsonfile (Gui.files ui)) as [geo|]; simpl.
  4: { intros _. by eexists. }
  all: destruct (Gui.save_dir (Gui.path ui)) as [d|]; simpl;
    [destruct (Nat.eqb (String.length d) 0); simpl; [|done]|];
    intros _; by eexists.
Qed.

(** X20.  Whatever the inputs and the world, [button_callback] never prints
    the [ValueError] "Shapefile не выбран": [get_shapefile] raises its own
    [ValueError] before it could return [None], so the check that follows it
    is never taken.  The callback ends with one line of its own, or with an
    exception outside [Exception] that passed both of its handlers. *)
Theorem shapefile_check_is_unreachable (ui : Gui.Inputs Geometry)
    (read_grid : outcome (GeoDataFrame Geometry)) (st : state W) :
  match (Gui.button_callback total_bounds ui read_grid st).1 with
  | Gui.Printed line =>
      line ≠ Gui.ErrorLine (Gui.GuiValueError Gui.ShapefileNotChosen)
      ∧ line ≠ Gui.UnexpectedLine (Gui.GuiValueError Gui.ShapefileNotChosen)
  | Gui.Escaped e => Gui.is_gui_Exception e = false
  | Gui.CoreOutOfFuel => False
  end.
Proof.
  assert (∀ e, e ≠ Gui.GuiValueError Gui.ShapefileNotChosen →
            match Gui.handle e with
            | Gui.Printed line =>
                line ≠ Gui.ErrorLine (Gui.GuiValueError Gui.ShapefileNotChosen)
                ∧ line
                  ≠ Gui.UnexpectedLine (Gui.GuiValueError Gui.ShapefileNotChosen)
            | Gui.Escaped e' => Gui.is_gui_Exception e' = false
            | Gui.CoreOutOfFuel => False
            end) as Hh.
  { intros e He. pose proof (handle_other e He) as Ho.
    destruct (Gui.handle e) as [line|e'|]; [done| |done].
    by destruct Ho as [-> ?]. }
  unfold Gui.button_callback. cbv zeta.
  destruct (Nat.eqb (String.length (Gui.entry_name ui)) 0);
    [by apply Hh|].
  destruct (Nat.eqb (String.length (Gui.entry_pass ui)) 0);
    [by apply Hh|].
  unfold Gui.get_shapefile, Gui.get_selected_directory.
  destruct (Gui.shapefile (Gui.files ui)) as [shp|],
           (Gui.geojsonfile (Gui.files ui)) as [geo|]; cbn [fst].
  4: by apply Hh.
  all: destruct (Gui.save_dir (Gui.path ui)) as [d|]; cbn [fst];
    [|by apply Hh].
  all: destruct (Nat.eqb (String.length d) 0); cbn [fst]; [by apply Hh|].
  all: destruct read_grid as [grid|e]; cbn [fst]; [|by apply Hh].
  all: match goal with |- context [download_landsat_images ?u ?p ?q ?g ?s ?d ?v ?st] =>
         pose proof (download_landsat_images_total u p q g s d v st) as Htot;
         destruct (download_landsat_images u p q g s d v st) as [[l|e|] st']
       end; cbn [fst] in *; try done.
  all: by apply Hh.
Qed.

(** X21.  When the directory dialog was never opened, the attribute
    [save_dir] does not exist: with every other input given,
    [button_callback] reports an unexpected [AttributeError], not the
    [ValueError] "Папка для загрузки не выбрана", and calls nothing.  That
    [ValueError] is what follows a cancelled dialog. *)
Theorem directory_never_chosen (ui : Gui.Inputs Geometry)
    (read_grid : outcome (GeoDataFrame Geometry)) (st : state W)
    (shp : GeoDataFrame Geometry) :
  Gui.entry_name ui ≠ EmptyString →
  Gui.entry_pass ui ≠ EmptyString →
  Gui.get_shapefile (Gui.files ui) = Gui.Fine (Some shp) →
  (Gui.path ui = Gui.path_init →
   Gui.button_callback total_bounds ui read_grid st
   = (Gui.Printed (Gui.UnexpectedLine (Gui.Other AttributeError)), st))
  ∧ (∀ p, Gui.path ui = Gui.directory EmptyString p →
     Gui.button_callback total_bounds ui read_grid st
     = (Gui.Printed (Gui.ErrorLine (Gui.GuiValueError Gui.NoDirectory)), st)).
Proof.
  intros Hname Hpass Hfile. unfold Gui.button_callback. cbv zeta.
  destruct (Gui.entry_name ui) as [|c name]; [done|].
  destruct (Gui.entry_pass ui) as [|c' pass]; [done|]. simpl.
  rewrite Hfile. split.
  - by intros ->.
  - by intros p ->.
Qed.

(** X22.  With every input given and the grid file read, a search that
    gives no usable scene list, be it a failed login, a failed search or a
    search without result, ends the click with the line for an unexpected
    [TypeError]; the line of success is not printed.  (When the grid
    intersection raises, for a coordinate system that the grid file or the
    loaded file does not declare, the click ends with the line for that
    [ValueError] instead.) *)
Theorem empty_search_is_reported_as_unexpected (ui : Gui.Inputs Geometry)
    (grid shp : GeoDataFrame Geometry) (dir : string) (st st1 : state W) :
  Gui.entry_name ui ≠ EmptyString →
  Gui.entry_pass ui ≠ EmptyString →
  Gui.get_shapefile (Gui.files ui) = Gui.Fine (Some shp) →
  Gui.save_dir (Gui.path ui) = Some dir →
  dir ≠ EmptyString →
  landsat_search (Gui.entry_name ui) (Gui.entry_pass ui)
    (mkQuery "landsat_ot_c2_l2" (total_bounds shp) (Gui.date_first ui)
       (Gui.date_second ui) (Gui.progress ui)) st
  = (Returned None, st1) →
  (Gui.button_callback total_bounds ui (Ok grid) st).1
  = Gui.Printed (match get_tile_list grid shp with
                 | Ok _ => Gui.UnexpectedLine (Gui.Other TypeError)
                 | Err e => Gui.ErrorLine (Gui.Other e)
                 end).
Proof.
  intros Hname Hpass Hfile Hdir Hne Hsearch.
  unfold Gui.button_callback, Gui.get_selected_directory. cbv zeta.
  destruct (Gui.entry_name ui) as [|c name] eqn:Hn; [done|].
  destruct (Gui.entry_pass ui) as [|c' pass] eqn:Hp; [done|]. simpl.
  rewrite Hfile, Hdir. destruct dir as [|c'' dir]; [done|]. simpl.
  destruct (get_tile_list grid shp) as [zones|e] eqn:Hzones.
  - by rewrite (run_after_failed_search _ _ _ _ _ _ _ st st1 zones Hsearch
                  Hzones).
  - rewrite (run_after_grid_error _ _ _ _ _ _ _ st st1 None e Hsearch Hzones).
    by apply get_tile_list_raises in Hzones as [-> _].
Qed.

(** X23.  The line of success is printed exactly when every input is given,
    the grid file is read and [download_landsat_images], called with the
    dataset ["landsat_ot_c2_l2"], the bounding box of the loaded file and no
    verified tile, returns; the list it returns is not looked at, so the
    line is the same when the list is empty or items have failed. *)
Theorem success_line_iff_core_returns (ui : Gui.Inputs Geometry)
    (read_grid : outcome (GeoDataFrame Geometry)) (st : state W) :
  (Gui.button_callback total_bounds ui read_grid st).1
  = Gui.Printed Gui.AllDownloaded
  ↔ ∃ grid shp dir returned,
      Gui.complete ui = true
      ∧ read_grid = Ok grid
      ∧ Gui.get_shapefile (Gui.files ui) = Gui.Fine (Some shp)
      ∧ Gui.save_dir (Gui.path ui) = Some dir
      ∧ (download_landsat_images (Gui.entry_name ui) (Gui.entry_pass ui)
           (mkQuery "landsat_ot_c2_l2" (total_bounds shp) (Gui.date_first ui)
              (Gui.date_second ui) (Gui.progress ui))
           grid shp dir [] st).1 = Returned returned.
Proof.
  unfold Gui.button_callback, Gui.complete, Gui.get_selected_directory.
  cbv zeta.
  destruct (Nat.eqb (String.length (Gui.entry_name ui)) 0).
  { split; [by intros ?%handle_not_success|]. by intros (?&?&?&?&[=]&_). }
  destruct (Nat.eqb (String.length (Gui.entry_pass ui)) 0).
  { split; [by intros ?%handle_not_success|]. by intros (?&?&?&?&[=]&_). }
  unfold Gui.get_shapefile.
  destruct (Gui.shapefile (Gui.files ui)) as [shp|],
           (Gui.geojsonfile (Gui.files ui)) as [geo|]; cbn [fst].
  4: { split; [by intros ?%handle_not_success|]. by intros (?&?&?&?&[=]&_). }
  all: destruct (Gui.save_dir (Gui.path ui)) as [d|]; cbn [fst];
    [|split; [by intros ?%handle_not_success|];
      by intros (?&?&?&?&_&_&_&[=]&_)].
  all: destruct (Nat.eqb (String.length d) 0); cbn [fst];
    [split; [by intros ?%handle_not_success|]; by intros (?&?&?&?&[=]&_)|].
  all: destruct read_grid as [grid|e]; cbn [fst];
    [|split; [by intros ?%handle_not_success|];
      by intros (?&?&?&?&_&[=]&_)].
  all: match goal with |- context [download_landsat_images ?u ?p ?q ?g ?s ?d ?v ?st] =>
         destruct (download_landsat_images u p q g s d v st) as [[l|e|] st'] eqn:Hrun
       end; cbn [fst].
  all: split.
  all: try (intros _; eexists _, _, _, _; split_and!; try reflexivity;
            by rewrite Hrun).
  all: try by intros ?%handle_not_success.
  all: try done.
  all: intros (g'&s'&d'&l'&_&[= <-]&[= <-]&[= <-]&Hret);
    rewrite Hrun in Hret; done.
Qed.

End GuiCallback.

(** ** The further properties on concrete inputs *)

Lemma service_calls_only_for_scenes_in_scope_witness :
  ∃ evs,
    trace (Sim.run Sim.first_download_fails Sim.area1 [] []).2
    = trace (Sim.search Sim.first_download_fails).2 ++ evs
    ∧ (∀ id d ds, EvDownload id d ds ∈ evs →
         d = "/data" ∧ ds = qp_dataset Sim.qp
         ∧ ∃ scene, scene ∈ [Sim.sceneA; Sim.sceneB; Sim.sceneC; Sim.sceneD]
                    ∧ entity_id scene = id
                    ∧ substring 10 6 (display_id scene) ∈ ["001002"]
                    ∧ display_id scene ∉ [])
    ∧ (∀ url d, EvGetFileinfo url d ∈ evs →
         d = "/data"
         ∧ ∃ scene dataset_id,
             scene ∈ [Sim.sceneA; Sim.sceneB; Sim.sceneC; Sim.sceneD]
             ∧ dataset_id ∈ dataset_id_list
             ∧ url = EE_DOWNLOAD_URL dataset_id (entity_id scene)
             ∧ substring 10 6 (display_id scene) ∈ ["001002"]
             ∧ display_id scene ∉ []).
Proof.
  exact (service_calls_only_for_scenes_in_scope
           (H := Sim.collaborators Sim.first_download_fails)
           "user" "secret" Sim.qp Sim.grid Sim.area1 "/data" []
           (Sim.initial []) [Sim.sceneA; Sim.sceneB; Sim.sceneC; Sim.sceneD]
           (Sim.search Sim.first_download_fails).2 eq_refl).
Defined.

Lemma file_writes_only_for_work_items_witness :
  ∃ evs,
    trace (Sim.run Sim.first_download_fails Sim.area1 [] []).2
    = trace (Sim.search Sim.first_download_fails).2 ++ evs
    ∧ (∀ path, EvRemove path ∈ evs →
         ∃ scene, scene ∈ [Sim.sceneA; Sim.sceneB; Sim.sceneC; Sim.sceneD]
                  ∧ substring 10 6 (display_id scene) ∈ ["001002"]
                  ∧ (display_id scene ∉ [])
                  ∧ path = PyStr.path_join "/data" (display_id scene +:+ ".tar")
                  ∧ if PyStr.startswith_sep (display_id scene)
                    then path = display_id scene +:+ ".tar"
                    else "/data" ≠ EmptyString →
                         PyStr.endswith_sep "/data" = false →
                         path = "/data" +:+ "/" +:+ display_id scene +:+ ".tar")
    ∧ (∀ archive dest, EvExtract archive dest ∈ evs →
         ∃ scene, scene ∈ [Sim.sceneA; Sim.sceneB; Sim.sceneC; Sim.sceneD]
                  ∧ substring 10 6 (display_id scene) ∈ ["001002"]
                  ∧ (display_id scene ∉ [])
                  ∧ archive
                    = PyStr.path_join "/data" (display_id scene +:+ ".tar")
                  ∧ dest = PyStr.path_join "/data" (display_id scene)
                  ∧ if PyStr.startswith_sep (display_id scene)
                    then archive = display_id scene +:+ ".tar"
                         ∧ dest = display_id scene
                    else "/data" ≠ EmptyString →
                         PyStr.endswith_sep "/data" = false →
                         archive
                         = "/data" +:+ "/" +:+ display_id scene +:+ ".tar"
                         ∧ dest = "/data" +:+ "/" +:+ display_id scene).
Proof.
  exact (file_writes_only_for_work_items
           (H := Sim.collaborators Sim.first_download_fails)
           "user" "secret" Sim.qp Sim.grid Sim.area1 "/data" []
           (Sim.initial []) [Sim.sceneA; Sim.sceneB; Sim.sceneC; Sim.sceneD]
           (Sim.search Sim.first_download_fails).2 eq_refl).
Defined.

(** A display identifier that begins with a separator takes the paths of
    its item out of the download directory. *)
Example absolute_display_id :
  PyStr.path_join "/data" ("/etc/LC09_001002" +:+ ".tar")
  = "/etc/LC09_001002.tar"
  ∧ tile_code "/etc/LC09_001002" = "001002"
  ∧ PyStr.path_join "/data" (display_id Sim.sceneA +:+ ".tar")
    = "/data/LC09_L2SP_001002_20240101_20240102_02_T1.tar".
Proof. by vm_compute. Qed.

Lemma failed_ee_login_makes_no_service_call_witness :
  ∃ evs,
    Sim.run Scenario.ee_login_fails Sim.area1 [] []
    = loop_and_report (H := Sim.collaborators Scenario.ee_login_fails) None
        [Sim.sceneA; Sim.sceneB] Sim.qp "/data" Scenario.data_AB
        (mkState (Sim.mkWorld [] 0)
           (trace (Sim.search Scenario.ee_login_fails).2
            ++ [EvPrint (MsgZones ["001002"]); EvPrint (MsgAfterFilter 2);
                EvInformationTable Scenario.data_AB;
                EvEELogin "user" "secret";
                EvPrint (MsgEELoginError LandsatxploreError)])
           Scenario.data_AB)
    ∧ trace (Sim.run Scenario.ee_login_fails Sim.area1 [] []).2
      = (trace (Sim.search Scenario.ee_login_fails).2
         ++ [EvPrint (MsgZones ["001002"]); EvPrint (MsgAfterFilter 2);
             EvInformationTable Scenario.data_AB;
             EvEELogin "user" "secret";
             EvPrint (MsgEELoginError LandsatxploreError)])
        ++ [EvListdir "/data"] ++ evs
    ∧ Forall (λ ev, is_download_service_call ev = false) evs.
Proof.
  apply (failed_ee_login_makes_no_service_call
           (H := Sim.collaborators Scenario.ee_login_fails)
           "user" "secret" Sim.qp Sim.grid Sim.area1 "/data" []
           (Sim.initial []) [Sim.sceneA; Sim.sceneB]
           (Sim.search Scenario.ee_login_fails).2 ["001002"]
           LandsatxploreError (Sim.mkWorld [] 0)).
  - reflexivity.
  - reflexivity.
  - discriminate.
  - reflexivity.
  - reflexivity.
Defined.

(** In that run both items are attempted and fail at the download call, on
    the [None] that stands for the session: the run returns the second
    item, which the iterator passed over, and makes no call to the download
    service. *)
Example run_without_session :
  let r := Sim.run Scenario.ee_login_fails Sim.area1 [] [] in
  r.1 = Returned [Scenario.idB]
  ∧ table r.2 = [(Scenario.idA, error); (Scenario.idB, needs_download)]
  ∧ EvPrint (MsgItemError Scenario.idA AttributeError) ∈ trace r.2.
Proof.
  cbv zeta. split; [by vm_compute|]. split; [by vm_compute|].
  apply list_elem_of_In. vm_compute.
  repeat (first [left; reflexivity|right]).
Qed.

Lemma returned_ids_are_work_items_witness :
  ∃ zones,
    get_tile_list Sim.grid Sim.area1 = Ok zones
    ∧ [Scenario.idB; Scenario.idD]
        `sublist_of`
        (display_id <$> [Sim.sceneA; Sim.sceneB; Sim.sceneC; Sim.sceneD])
    ∧ ∀ id, id ∈ [Scenario.idB; Scenario.idD] →
        substring 10 6 id ∈ zones ∧ id ∉ [].
Proof.
  apply (returned_ids_are_work_items
           (H := Sim.collaborators Sim.first_download_fails)
           "user" "secret" Sim.qp Sim.grid Sim.area1 "/data" []
           (Sim.initial []) [Sim.sceneA; Sim.sceneB; Sim.sceneC; Sim.sceneD]
           (Sim.search Sim.first_download_fails).2).
  - reflexivity.
  - vm_compute. reflexivity.
Defined.

Lemma status_goes_to_first_row_of_item_witness :
  ∃ evs,
    trace (Sim.run Sim.first_download_fails Sim.area1 [] []).2
    = trace (Sim.search Sim.first_download_fails).2 ++ evs
    ∧ ∀ row_num s, EvTableInsert row_num s ∈ evs →
        ∃ title,
          fst <$> data_for_table
                    [Sim.sceneA; Sim.sceneB; Sim.sceneC; Sim.sceneD]
                    ["001002"] (list_to_set [])
                    !! row_num = Some title
          ∧ ∀ j, j < row_num →
              fst <$> data_for_table
                        [Sim.sceneA; Sim.sceneB; Sim.sceneC; Sim.sceneD]
                        ["001002"] (list_to_set [])
                        !! j ≠ Some title.
Proof.
  exact (status_goes_to_first_row_of_item
           (H := Sim.collaborators Sim.first_download_fails)
           "user" "secret" Sim.qp Sim.grid Sim.area1 "/data" []
           (Sim.initial []) [Sim.sceneA; Sim.sceneB; Sim.sceneC; Sim.sceneD]
           (Sim.search Sim.first_download_fails).2 eq_refl).
Defined.

Lemma stored_items_need_no_download_witness :
  ∃ tbl evs,
    titles_loop (H := Sim.collaborators (Sim.all_fine [Sim.sceneA; Sim.sceneB]))
      2 None [Sim.sceneA; Sim.sceneB] Sim.qp "/data" Scenario.data_AB 0
      [Scenario.idA; Scenario.idB]
      (Sim.initial [PyStr.path_join "/data" Scenario.idA;
                    PyStr.path_join "/data" Scenario.idB])
    = (Returned [Scenario.idA; Scenario.idB],
       mkState (Sim.mkWorld [PyStr.path_join "/data" Scenario.idA;
                             PyStr.path_join "/data" Scenario.idB] 0)
         ([] ++ evs) tbl)
    ∧ Forall (λ ev, ev = EvListdir "/data"
                    ∨ (∃ title, title ∈ [Scenario.idA; Scenario.idB]
                                ∧ ev = EvPrint (MsgInFolder title))
                    ∨ ∃ row_num, ev = EvTableInsert row_num in_storage) evs.
Proof.
  apply (stored_items_need_no_download
           (H := Sim.collaborators (Sim.all_fine [Sim.sceneA; Sim.sceneB]))
           None [Sim.sceneA; Sim.sceneB] Sim.qp "/data" Scenario.data_AB 2 0
           [Scenario.idA; Scenario.idB] [Scenario.idA; Scenario.idB]
           (Sim.initial [PyStr.path_join "/data" Scenario.idA;
                         PyStr.path_join "/data" Scenario.idB])).
  - reflexivity.
  - intros title Hin. by apply py_in_elem_of.
  - simpl. lia.
Defined.

Lemma item_failure_is_contained_witness :
  (* the download raises an exception of the service: the item is removed *)
  ([Scenario.idB] = [Scenario.idA; Scenario.idB]
   ∨ py_list_remove Scenario.idA [Scenario.idA; Scenario.idB]
     = Some [Scenario.idB])
  (* the download is interrupted: the exception leaves the body *)
  ∧ (is_Exception KeyboardInterrupt = false
     ∧ raised_by_transfer
         (H := Scenario.interrupted_download (Sim.all_fine [Sim.sceneA]))
         KeyboardInterrupt).
Proof.
  split.
  - exact (item_failure_is_contained
             (H := Sim.collaborators Sim.first_download_fails)
             (Some ee_session) [Sim.sceneA; Sim.sceneB] Sim.qp "/data"
             Scenario.data_AB Scenario.idA [Scenario.idA; Scenario.idB] [] []
             (Sim.initial []) (Sim.mkWorld [] 0) (Sim.mkWorld [] 0)
             eq_refl eq_refl eq_refl eq_refl
             (list_elem_of_here Scenario.idA [Scenario.idB])).
  - exact (item_failure_is_contained
             (H := Scenario.interrupted_download (Sim.all_fine [Sim.sceneA]))
             (Some ee_session) [Sim.sceneA] Sim.qp "/data"
             [(Scenario.idA, needs_download)] Scenario.idA [Scenario.idA] [] []
             (Sim.initial []) (Sim.mkWorld [] 0) (Sim.mkWorld [] 0)
             eq_refl eq_refl eq_refl eq_refl
             (list_elem_of_here Scenario.idA [])).
Defined.

(** The two runs of the body behind that: an exception of the service is
    caught and the item removed; a [KeyboardInterrupt] raised by the
    download leaves the body, while one raised by every metadata probe would
    not. *)
Example item_body_runs :
  (process_title (H := Sim.collaborators Sim.first_download_fails)
     (Some ee_session) [Sim.sceneA; Sim.sceneB] Sim.qp "/data"
     Scenario.data_AB Scenario.idA [Scenario.idA; Scenario.idB]
     (Sim.initial [])).1 = Returned [Scenario.idB]
  ∧ (process_title
       (H := Scenario.interrupted_download (Sim.all_fine [Sim.sceneA]))
       (Some ee_session) [Sim.sceneA] Sim.qp "/data"
       [(Scenario.idA, needs_download)] Scenario.idA [Scenario.idA]
       (Sim.initial [])).1 = Raised KeyboardInterrupt.
Proof. by vm_compute. Qed.

Lemma storage_error_aborts_run_witness :
  ∃ e',
    (Scenario.run_faulty (Sim.all_fine [Sim.sceneA]) true false []).1
    = Raised e'
    ∧ ((∀ e0, (ee_login
                 (Collaborators := Scenario.faulty_storage
                                     (Sim.all_fine [Sim.sceneA]) true false)
                 "user" "secret" (Sim.mkWorld [] 0)).1 = Err e0 →
              is_Exception e0 = true) → e' = OSError).
Proof.
  apply (storage_error_aborts_run
           (H := Scenario.faulty_storage (Sim.all_fine [Sim.sceneA]) true false)
           "user" "secret" Sim.qp Sim.grid Sim.area1 "/data" []
           (Sim.initial []) [Sim.sceneA]
           (landsat_search
              (H := Scenario.faulty_storage (Sim.all_fine [Sim.sceneA])
                      true false)
              "user" "secret" Sim.qp (Sim.initial [])).2
           ["001002"] OSError (Sim.mkWorld [] 0)).
  - reflexivity.
  - reflexivity.
  - vm_compute. discriminate.
  - reflexivity.
Defined.

Lemma stale_archive_error_is_not_caught_witness :
  process_title
    (H := Scenario.faulty_storage (Sim.all_fine [Sim.sceneA]) false true)
    (Some ee_session) [Sim.sceneA] Sim.qp "/data"
    [(Scenario.idA, needs_download)] Scenario.idA [Scenario.idA]
    (Sim.initial [PyStr.path_join "/data" (Scenario.idA +:+ ".tar")])
  = (Raised OSError,
     mkState (Sim.mkWorld [PyStr.path_join "/data" (Scenario.idA +:+ ".tar")] 0)
       ([] ++ [EvListdir "/data"; EvListdir "/data";
               EvRemove (PyStr.path_join "/data" (Scenario.idA +:+ ".tar"))])
       []).
Proof.
  apply (stale_archive_error_is_not_caught
           (H := Scenario.faulty_storage (Sim.all_fine [Sim.sceneA]) false true)
           (Some ee_session) [Sim.sceneA] Sim.qp "/data"
           [(Scenario.idA, needs_download)] Scenario.idA [Scenario.idA]
           [Scenario.idA +:+ ".tar"] [Scenario.idA +:+ ".tar"]
           (Sim.initial [PyStr.path_join "/data" (Scenario.idA +:+ ".tar")])
           (Sim.mkWorld [PyStr.path_join "/data" (Scenario.idA +:+ ".tar")] 0)
           (Sim.mkWorld [PyStr.path_join "/data" (Scenario.idA +:+ ".tar")] 0)
           (Sim.mkWorld [PyStr.path_join "/data" (Scenario.idA +:+ ".tar")] 0)
           OSError).
  - reflexivity.
  - reflexivity.
  - reflexivity.
  - reflexivity.
  - reflexivity.
Defined.

Lemma nothing_dropped_means_all_attempted_witness :
  [Scenario.idA; Scenario.idB] = [Scenario.idA; Scenario.idB]
  ∧ ∀ title, title ∈ [Scenario.idA; Scenario.idB] →
      attempted title
        (trace (titles_loop
                  (H := Sim.collaborators (Sim.all_fine [Sim.sceneA; Sim.sceneB]))
                  2 (Some ee_session) [Sim.sceneA; Sim.sceneB] Sim.qp "/data"
                  Scenario.data_AB 0 [Scenario.idA; Scenario.idB]
                  (Sim.initial [])).2).
Proof.
  apply (nothing_dropped_means_all_attempted
           (H := Sim.collaborators (Sim.all_fine [Sim.sceneA; Sim.sceneB]))
           (Some ee_session) [Sim.sceneA; Sim.sceneB] Sim.qp "/data"
           Scenario.data_AB [Scenario.idA; Scenario.idB]
           [Scenario.idA; Scenario.idB] (Sim.initial [])).
  - vm_compute. reflexivity.
  - reflexivity.
Defined.

Lemma get_shapefile_returns_last_load_witness :
  (* a file that declares a coordinate system *)
  ((∃ file',
      crs file' = Some Gui.crs_file
      ∧ features file' = features Sim.area1
      ∧ Gui.get_shapefile
          (Gui.after_action Gui.files_init
             (Gui.OpenShapefile "/home/user/aoi.shp" (Ok Sim.area1)))
        = Gui.Fine (Some file')
      ∧ Gui.get_shapefile
          (Gui.after_action Gui.files_init
             (Gui.OpenGeojson "/home/user/aoi.shp" (Ok Sim.area1)))
        = Gui.Fine (Some file'))
   ∧ Gui.after_action Gui.files_init
       (Gui.OpenShapefile "/home/user/aoi.shp" (Err OSError)) = Gui.files_init
   ∧ Gui.after_action Gui.files_init
       (Gui.OpenGeojson "/home/user/aoi.shp" (Err OSError)) = Gui.files_init
   ∧ Gui.after_action Gui.files_init
       (Gui.OpenShapefile EmptyString (Ok Sim.area1)) = Gui.files_init
   ∧ Gui.after_action Gui.files_init
       (Gui.OpenGeojson EmptyString (Ok Sim.area1)) = Gui.files_init)
  (* a file that declares none, opened over a loaded file *)
  ∧ ((Gui.open_shapefile "/home/user/aoi.shp" (Ok Sim.naive_empty_area)
        Scenario.files_loaded
      = Gui.Fails (Gui.Other ValueError)
      ∧ Gui.open_geojsonfile "/home/user/aoi.shp" (Ok Sim.naive_empty_area)
          Scenario.files_loaded
        = Gui.Fails (Gui.Other ValueError)
      ∧ Gui.after_action Scenario.files_loaded
          (Gui.OpenShapefile "/home/user/aoi.shp" (Ok Sim.naive_empty_area))
        = Scenario.files_loaded
      ∧ Gui.after_action Scenario.files_loaded
          (Gui.OpenGeojson "/home/user/aoi.shp" (Ok Sim.naive_empty_area))
        = Scenario.files_loaded)
     ∧ Gui.after_action Scenario.files_loaded
         (Gui.OpenShapefile "/home/user/aoi.shp" (Err OSError))
       = Scenario.files_loaded
     ∧ Gui.after_action Scenario.files_loaded
         (Gui.OpenGeojson "/home/user/aoi.shp" (Err OSError))
       = Scenario.files_loaded
     ∧ Gui.after_action Scenario.files_loaded
         (Gui.OpenShapefile EmptyString (Ok Sim.naive_empty_area))
       = Scenario.files_loaded
     ∧ Gui.after_action Scenario.files_loaded
         (Gui.OpenGeojson EmptyString (Ok Sim.naive_empty_area))
       = Scenario.files_loaded).
Proof.
  split.
  - exact (get_shapefile_returns_last_load Gui.files_init "/home/user/aoi.shp"
             Sim.area1 OSError ltac:(discriminate)).
  - exact (get_shapefile_returns_last_load Scenario.files_loaded
             "/home/user/aoi.shp" Sim.naive_empty_area OSError
             ltac:(discriminate)).
Defined.

Lemma missing_input_calls_nothing_witness :
  ∃ line,
    Scenario.click (Sim.all_fine [Sim.sceneA]) Scenario.inputs_empty
      (Ok Sim.grid)
    = (Gui.Printed line, Sim.initial [])
    ∧ line ≠ Gui.AllDownloaded.
Proof.
  apply (missing_input_calls_nothing
           (H0 := Sim.collaborators (Sim.all_fine [Sim.sceneA]))
           Scenario.total_bounds Scenario.inputs_empty (Ok Sim.grid)
           (Sim.initial [])).
  reflexivity.
Defined.

Lemma directory_never_chosen_witness :
  (* the dialog was never opened *)
  Scenario.click (Sim.all_fine [Sim.sceneA]) (Scenario.inputs Gui.path_init)
    (Ok Sim.grid)
  = (Gui.Printed (Gui.UnexpectedLine (Gui.Other AttributeError)),
     Sim.initial [])
  (* the dialog was opened and cancelled *)
  ∧ Scenario.click (Sim.all_fine [Sim.sceneA])
      (Scenario.inputs (Gui.directory EmptyString Gui.path_init))
      (Ok Sim.grid)
    = (Gui.Printed (Gui.ErrorLine (Gui.GuiValueError Gui.NoDirectory)),
       Sim.initial []).
Proof.
  split.
  - apply (directory_never_chosen
             (H0 := Sim.collaborators (Sim.all_fine [Sim.sceneA]))
             Scenario.total_bounds (Scenario.inputs Gui.path_init)
             (Ok Sim.grid) (Sim.initial []) Scenario.area1_loaded).
    + discriminate.
    + discriminate.
    + reflexivity.
    + reflexivity.
  - apply (directory_never_chosen
             (H0 := Sim.collaborators (Sim.all_fine [Sim.sceneA]))
             Scenario.total_bounds
             (Scenario.inputs (Gui.directory EmptyString Gui.path_init))
             (Ok Sim.grid) (Sim.initial []) Scenario.area1_loaded) with
        (p := Gui.path_init).
    + discriminate.
    + discriminate.
    + reflexivity.
    + reflexivity.
Defined.

Lemma empty_search_is_reported_as_unexpected_witness :
  (Scenario.click Sim.search_finds_nothing Scenario.inputs_complete
     (Ok Sim.grid)).1
  = Gui.Printed (Gui.UnexpectedLine (Gui.Other TypeError)).
Proof.
  exact (empty_search_is_reported_as_unexpected
           (H0 := Sim.collaborators Sim.search_finds_nothing)
           Scenario.total_bounds Scenario.inputs_complete Sim.grid
           Scenario.area1_loaded "/data" (Sim.initial [])
           (Sim.search Sim.search_finds_nothing).2
           ltac:(discriminate) ltac:(discriminate) eq_refl eq_refl
           ltac:(discriminate) eq_refl).
Defined.
